(** * Pet Finder: a shallow embedding of the scraping pipeline

    The development follows the repository file by file:
    - [Py]        the fragment of Python (values, exceptions, builtins) that
                  the code relies on;
    - [Pet]       [website/models.py]: the persisted entity and
                  [calculate_distance];
    - [Geocoding] [website/geocoding.py];
    - [Services]  [website/services.py]: query builder, page fetcher,
                  record normalizer, upsert engine, pagination and the
                  duplicate sweep;
    - [Views]     [website/views.py]: the search of the home page.

    Conventions.  A Python [float] is represented by the rational number it
    denotes ([Q]); the arithmetic of [math] is idealised over the reals
    ([R]), so rounding, [nan] and [inf] are outside the model.  The
    exceptions that only floating-point evaluation raises (the
    [ValueError] of [math.sqrt] on a rounded negative, [OverflowError])
    are not in [Pet.calculate_distance], which gives the distance that
    the method returns when it returns one; where the code calls the
    method, whether the evaluation raises is left to the environment
    ([World.float_error]).  A text is the sequence of its bytes;
    [strip], [lower], [upper], [title] and [int] are Python's on ASCII
    texts, and the properties that depend on them say which texts they
    cover.  A JSON payload is an untyped tree ([Py.pyval]).  The [Pet]
    table is a finite map from primary keys to rows.  Which rows the
    database takes depends on Django's fields and on the engine, so it is
    left to the environment ([World.db_write]); what the code does when a
    write fails inside [transaction.atomic()] is modelled: the transaction
    is marked for rollback, later queries of the block raise, and the
    block ends in a rollback. *)

From Stdlib Require Import Reals Lra QArith Qreals.
From Stdlib Require Import Ascii String.
From stdpp Require Import gmap strings list fin_maps sorting pretty.

Open Scope Z_scope.

(* ===================================================================== *)
(** * The Python fragment                                                  *)
(* ===================================================================== *)

Module Py.

(** Values as they come out of [json.loads] (and [None]); a dict keeps its
    insertion order. *)
#[warnings="-register-all"]
Inductive pyval :=
  | PyNone
  | PyBool (b : bool)
  | PyInt (z : Z)
  | PyFloat (q : Q)
  | PyStr (s : string)
  | PyList (l : list pyval)
  | PyDict (d : list (string * pyval)).

(** [requests.exceptions.RequestException] and its subclasses. *)
Inductive request_failure :=
  | Timeout
  | ConnectionError
  | HTTPError (status : Z)
  | OtherRequestException.

(** Exceptions.  [PetFinderAPIError] (services.py:20) carries the cause it
    was built from.  The last three are Django's: a value that a column
    cannot take ([ValidationError]), a constraint of the table that a row
    violates ([IntegrityError]), and a query in a transaction that an
    earlier error has marked for rollback ([TransactionManagementError]). *)
Inductive exn :=
  | AttributeError
  | TypeError
  | ValueError
  | KeyError
  | IndexError
  | RequestException (f : request_failure)
  | PetFinderAPIError (cause : api_cause)
  | ValidationError
  | IntegrityError
  | TransactionManagementError
with api_cause :=
  | MissingResultKey
  | FailedToFetch (f : request_failure)
  | InvalidJSONResponse
  | ScrapingFailed (e : exn).

Inductive result (A : Type) :=
  | Ok (a : A)
  | Raise (e : exn).
Arguments Ok {A} a.
Arguments Raise {A} e.

(** Sequencing: the first exception ends the computation ([x ← r; k]). *)
#[global] Instance result_ret : MRet result := λ A a, Ok a.
#[global] Instance result_fmap : FMap result := λ A B f r,
  match r with
  | Ok a => Ok (f a)
  | Raise e => Raise e
  end.
#[global] Instance result_bind : MBind result := λ A B k r,
  match r with
  | Ok a => k a
  | Raise e => Raise e
  end.

(** ** Characters and strings *)

Definition code (a : ascii) : Z := Z.of_N (Ascii.N_of_ascii a).

(** [str.isspace] on ASCII: TAB..CR, FS..US and the space. *)
Definition is_space (a : ascii) : bool :=
  ((9 <=? code a) && (code a <=? 13)) || ((28 <=? code a) && (code a <=? 32)).

Definition is_upper (a : ascii) : bool := (65 <=? code a) && (code a <=? 90).
Definition is_lower (a : ascii) : bool := (97 <=? code a) && (code a <=? 122).

Definition to_lower (a : ascii) : ascii :=
  if is_upper a then Ascii.ascii_of_N (Z.to_N (code a + 32)) else a.
Definition to_upper (a : ascii) : ascii :=
  if is_lower a then Ascii.ascii_of_N (Z.to_N (code a - 32)) else a.

Fixpoint lstrip (s : string) : string :=
  match s with
  | EmptyString => EmptyString
  | String a s' => if is_space a then lstrip s' else s
  end.

Fixpoint rstrip (s : string) : string :=
  match s with
  | EmptyString => EmptyString
  | String a s' =>
      match rstrip s' with
      | EmptyString => if is_space a then EmptyString else String a EmptyString
      | r => String a r
      end
  end.

(** [str.strip()] *)
Definition strip (s : string) : string := rstrip (lstrip s).

(** [str.lower()], [str.upper()] *)
Fixpoint lower (s : string) : string :=
  match s with
  | EmptyString => EmptyString
  | String a s' => String (to_lower a) (lower s')
  end.

Fixpoint upper (s : string) : string :=
  match s with
  | EmptyString => EmptyString
  | String a s' => String (to_upper a) (upper s')
  end.

(** [str.title()]: a letter that follows a letter is lower-cased, any other
    letter is upper-cased. *)
Fixpoint title_from (prev_cased : bool) (s : string) : string :=
  match s with
  | EmptyString => EmptyString
  | String a s' =>
      if is_upper a || is_lower a
      then String (if prev_cased then to_lower a else to_upper a) (title_from true s')
      else String a (title_from false s')
  end.

Definition title (s : string) : string := title_from false s.

(** [sub in s] for two strings *)
Fixpoint contains (sub s : string) : bool :=
  String.prefix sub s ||
  match s with
  | EmptyString => false
  | String _ s' => contains sub s'
  end.

(** ** [int(...)] and [str(...)] *)

Definition digit_of (a : ascii) : option Z :=
  if (48 <=? code a) && (code a <=? 57) then Some (code a - 48) else None.

(** Decimal digits, single underscores allowed between two digits. *)
Fixpoint int_digits (acc : Z) (after_digit : bool) (s : string) : option Z :=
  match s with
  | EmptyString => if after_digit then Some acc else None
  | String a s' =>
      match digit_of a with
      | Some d => int_digits (10 * acc + d) true s'
      | None =>
          if Ascii.eqb a "_"%char && after_digit then int_digits acc false s' else None
      end
  end.

(** The whitespace [int] skips around an ASCII numeral (C's [isspace]):
    TAB..CR and the space, not FS..US. *)
Definition is_c_space (a : ascii) : bool :=
  ((9 <=? code a) && (code a <=? 13)) || (code a =? 32).

Fixpoint lstrip_c (s : string) : string :=
  match s with
  | EmptyString => EmptyString
  | String a s' => if is_c_space a then lstrip_c s' else s
  end.

Fixpoint rstrip_c (s : string) : string :=
  match s with
  | EmptyString => EmptyString
  | String a s' =>
      match rstrip_c s' with
      | EmptyString => if is_c_space a then EmptyString else String a EmptyString
      | r => String a r
      end
  end.

(** [int(s)] for an ASCII string: surrounding whitespace, an optional
    sign, digits.  The bound that recent versions of Python put on the
    number of digits is left out. *)
Definition int_of_str (s : string) : option Z :=
  match rstrip_c (lstrip_c s) with
  | String "+"%char r => int_digits 0 false r
  | String "-"%char r => Z.opp <$> int_digits 0 false r
  | t => int_digits 0 false t
  end.

(** [int(v)] *)
Definition int (v : pyval) : result Z :=
  match v with
  | PyBool b => Ok (Z.b2z b)
  | PyInt z => Ok z
  | PyFloat q => Ok (Z.quot (Qnum q) (Z.pos (Qden q)))
  | PyStr s =>
      match int_of_str s with
      | Some z => Ok z
      | None => Raise ValueError
      end
  | PyNone | PyList _ | PyDict _ => Raise TypeError
  end.

(** [str(z)], the text an f-string inserts for an integer *)
Definition str_of_int (z : Z) : string := pretty z.

(** ** Truthiness, dictionaries, membership *)

Definition Qzero (q : Q) : bool := Qnum q =? 0.

(** [bool(v)] *)
Definition truthy (v : pyval) : bool :=
  match v with
  | PyNone => false
  | PyBool b => b
  | PyInt z => negb (z =? 0)
  | PyFloat q => negb (Qzero q)
  | PyStr s => negb (String.eqb s EmptyString)
  | PyList l => match l with [] => false | _ => true end
  | PyDict d => match d with [] => false | _ => true end
  end.

Fixpoint lookup_key (k : string) (d : list (string * pyval)) : option pyval :=
  match d with
  | [] => None
  | (k', v) :: d' => if String.eqb k k' then Some v else lookup_key k d'
  end.

(** [v.get(k, dflt)]: only a dict has the method. *)
Definition get (v : pyval) (k : string) (dflt : pyval) : result pyval :=
  match v with
  | PyDict d => Ok (default dflt (lookup_key k d))
  | _ => Raise AttributeError
  end.

(** [v[k]] for a string key *)
Definition getitem (v : pyval) (k : string) : result pyval :=
  match v with
  | PyDict d =>
      match lookup_key k d with
      | Some x => Ok x
      | None => Raise KeyError
      end
  | _ => Raise TypeError
  end.

Definition is_str (k : string) (v : pyval) : bool :=
  match v with
  | PyStr s => String.eqb s k
  | _ => false
  end.

(** [k in v] for a string [k]: key of a dict, element of a list, substring
    of a string; the other values are not iterable. *)
Definition contained_in (k : string) (v : pyval) : result bool :=
  match v with
  | PyDict d => Ok (bool_decide (is_Some (lookup_key k d)))
  | PyList l => Ok (existsb (is_str k) l)
  | PyStr s => Ok (contains k s)
  | PyNone | PyBool _ | PyInt _ | PyFloat _ => Raise TypeError
  end.

(** [v.strip()]: only a string has the method. *)
Definition str_strip (v : pyval) : result string :=
  match v with
  | PyStr s => Ok (strip s)
  | _ => Raise AttributeError
  end.

(** The elements [for x in v] visits. *)
Definition iterate (v : pyval) : result (list pyval) :=
  match v with
  | PyList l => Ok l
  | PyDict d => Ok (PyStr <$> d.*1)
  | PyStr s => Ok ((λ a, PyStr (String a EmptyString)) <$> list_ascii_of_string s)
  | PyNone | PyBool _ | PyInt _ | PyFloat _ => Raise TypeError
  end.

(** [v[0]] *)
Definition first_item (v : pyval) : result pyval :=
  match v with
  | PyList (x :: _) => Ok x
  | PyList [] => Raise IndexError
  | PyStr (String a _) => Ok (PyStr (String a EmptyString))
  | PyStr EmptyString => Raise IndexError
  | PyDict _ => Raise KeyError
  | PyNone | PyBool _ | PyInt _ | PyFloat _ => Raise TypeError
  end.

(** [len(v)] *)
Definition len (v : pyval) : result Z :=
  match v with
  | PyList l => Ok (Z.of_nat (length l))
  | PyDict d => Ok (Z.of_nat (length d))
  | PyStr s => Ok (Z.of_nat (String.length s))
  | PyNone | PyBool _ | PyInt _ | PyFloat _ => Raise TypeError
  end.

(** [sep.join(parts)] *)
Fixpoint join (sep : string) (parts : list string) : string :=
  match parts with
  | [] => EmptyString
  | [x] => x
  | x :: rest => x +:+ sep +:+ join sep rest
  end.

(** ** Numbers and [math] *)

(** The real number a value stands for where Python expects one
    ([math.radians(v)], [a - b]): [bool], [int] and [float] qualify. *)
Definition number (v : pyval) : result Q :=
  match v with
  | PyBool b => Ok (inject_Z (Z.b2z b))
  | PyInt z => Ok (inject_Z z)
  | PyFloat q => Ok q
  | PyNone | PyStr _ | PyList _ | PyDict _ => Raise TypeError
  end.

Definition radians (x : R) : R := (x * (PI / 180))%R.

(** [math.atan2(y, x)] *)
Definition atan2 (y x : R) : R :=
  if Rlt_dec 0 x then atan (y / x)%R
  else if Rlt_dec x 0 then
    (if Rle_dec 0 y then atan (y / x) + PI else atan (y / x) - PI)%R
  else if Rlt_dec 0 y then (PI / 2)%R
  else if Rlt_dec y 0 then (- (PI / 2))%R
  else 0%R.

End Py.

Import Py.

(* ===================================================================== *)
(** * website/models.py                                                    *)
(* ===================================================================== *)

Module Pet.

(** A row of the [Pet] table (models.py:43-171), without its primary key.
    An attribute that the code assigns without conversion holds the Python
    value it was given; a nullable text column is an [option]; the three
    timestamps are instants on the clock of [World]. *)
Record t := mk {
  name : string;
  profile_url : option string;
  photo_url : option string;
  primary_breed : option string;
  secondary_breed : option string;
  is_mixed_breed : pyval;
  primary_color : option string;
  age : option string;
  sex : option string;
  size : option string;
  coat_length : option string;
  public_adoption_fee : option Q;
  adoption_fee_waived : pyval;
  location_city : option string;
  location_state : option string;
  location_zip : option string;
  latitude : pyval;
  longitude : pyval;
  created_at : Z;
  updated_at : Z;
  scraped_at : Z
}.

(** [Pet()] at instant [now]: every field at its declared default. *)
Definition new (now : Z) : t := {|
  name := "Unknown Pet";
  profile_url := None;
  photo_url := None;
  primary_breed := None;
  secondary_breed := None;
  is_mixed_breed := PyBool false;
  primary_color := None;
  age := None;
  sex := None;
  size := None;
  coat_length := None;
  public_adoption_fee := None;
  adoption_fee_waived := PyBool false;
  location_city := None;
  location_state := None;
  location_zip := None;
  latitude := PyNone;
  longitude := PyNone;
  created_at := now;
  updated_at := now;
  scraped_at := now
|}.

Definition with_coordinates (lat lon : pyval) (p : t) : t :=
  mk (name p) (profile_url p) (photo_url p) (primary_breed p)
     (secondary_breed p) (is_mixed_breed p) (primary_color p) (age p) (sex p)
     (size p) (coat_length p) (public_adoption_fee p) (adoption_fee_waived p)
     (location_city p) (location_state p) (location_zip p)
     lat lon (created_at p) (updated_at p) (scraped_at p).

(** The haversine formula of models.py:218-231: from the point
    [(lat1, lon1)] to the point [(lat2, lon2)], in degrees; miles. *)
Definition haversine (lat1 lon1 lat2 lon2 : R) : R :=
  let R_earth := 3959%R in
  let lat1_rad := radians lat1 in
  let lat2_rad := radians lat2 in
  let delta_lat := radians (lat2 - lat1) in
  let delta_lon := radians (lon2 - lon1) in
  let a := (sin (delta_lat / 2) ^ 2 +
            cos lat1_rad * cos lat2_rad * sin (delta_lon / 2) ^ 2)%R in
  let c := (2 * atan2 (sqrt a) (sqrt (1 - a)))%R in
  (R_earth * c)%R.

(** [Pet.calculate_distance] (models.py:204-231).  Returning [None] is
    [Ok None]; [math.radians] and the subtractions raise [TypeError] on a
    value that is not a number. *)
Definition calculate_distance (self : t) (target_lat target_lon : pyval)
  : result (option R) :=
  if negb (forallb truthy [latitude self; longitude self; target_lat; target_lon])
  then Ok None
  else
    self_latitude ← number (latitude self);
    target_latitude ← number target_lat;
    target_longitude ← number target_lon;
    self_longitude ← number (longitude self);
    Ok (Some (haversine (Q2R self_latitude) (Q2R self_longitude)
                        (Q2R target_latitude) (Q2R target_longitude))).

End Pet.

(* ===================================================================== *)
(** * The world the code runs in                                           *)
(* ===================================================================== *)

Module World.

(** What one HTTP GET comes to: the transport raises, or a response
    arrives with its status and, when the body is valid JSON, the parsed
    body ([response.json()]). *)
Inductive http_outcome :=
  | TransportError (f : request_failure)
  | Response (status_code : Z) (json : option pyval).

(** What writing a row comes to ([Model.save], models.py:43-171 as Django
    and the database engine apply them): the row is stored; or a value
    cannot be prepared for its column and the field raises before any
    statement is sent; or the database refuses the statement. *)
Inductive db_outcome :=
  | Stored
  | PrepareError (e : exn)
  | DatabaseError (e : exn).

(** What lies outside the program: the search API behind [session.get],
    the geocoding provider behind [requests.get] (indexed by the query
    string [q]), Python's [float(s)] on a string, the database with the
    columns of the [Pet] table, which decides by the row it is asked to
    write, and the floating-point arithmetic of the interpreter:
    [float_error] is the exception, if any, that evaluating the formula of
    [calculate_distance] raises at the coordinates of the pet and of the
    target (the [ValueError] of [math.sqrt] when rounding takes its
    argument below zero, the [OverflowError] of an integer that has no
    float). *)
Record externals := {
  session_get : string → http_outcome;
  requests_get : string → http_outcome;
  float_of_str : string → option Q;
  db_write : Pet.t → db_outcome;
  float_error : pyval → pyval → pyval → pyval → option exn
}.

Inductive level := DEBUG | INFO | WARNING | ERROR.

(** One constructor per [logger] call of the repository. *)
Inductive message :=
  (* geocoding.py *)
  | Geocoding (query : string)
  | FoundCoordinates (lat lon : Q)
  | NoCoordinatesFound (query : string)
  | GeocodingFailed (city state : string) (e : exn)
  | UsingCachedCoordinates (city state : string)
  (* services.py *)
  | BuiltSearchUrl (distance : Z) (city state : string)
  | FetchingDataFrom (url : string)
  | RequestFailed (f : request_failure)
  | InvalidJSON
  | CouldNotGetCoordinates (city state : string)
  | FilteredOutPet (name : string) (distance : option R)
  | PetHasNoCoordinates (name : string)
  | UpdatedExistingPet (name breed : string)
  | CreatedNewPet (name breed : string)
  | FailedToSavePet (name : string) (e : exn)
  | DatabaseUpdateComplete (saved updated filtered : Z)
  | FoundPages (total_pages : pyval) (animal city state : string)
  | ExtractedPets (count : Z) (page_num : Z)
  | FailedToScrapePage (page_num : Z) (e : exn)
  | SuccessfullySaved (pets_saved : Z) (pages : pyval)
  | ScrapingFailedWith (e : exn)
  | DeletedPets (count : Z)
  | RemovedDuplicateByProfileUrl (name : string)
  | RemovedDuplicateByNameBreed (name : string) (breed : option string)
  | RemovedDuplicates (count : Z).

(** Observable effects, in the order they happen. *)
Inductive event :=
  | Log (l : level) (m : message)
  | Get (url : string)
  | GeocodeGet (query : string)
  | Sleep (seconds : Z).

(** The [Pet] table (primary key to row), the clock and the effects so far. *)
Record world := mkWorld {
  pets : gmap positive Pet.t;
  clock : Z;
  trace : list event
}.

(** A computation may change the world and may raise. *)
Definition M (A : Type) : Type := world → result A * world.

Definition ret {A} (a : A) : M A := λ w, (Ok a, w).

Definition bind {A B} (m : M A) (k : A → M B) : M B := λ w,
  match m w with
  | (Ok a, w') => k a w'
  | (Raise e, w') => (Raise e, w')
  end.

#[global] Instance M_ret : MRet M := @ret.
#[global] Instance M_bind : MBind M := λ A B k m, bind m k.

Definition raise {A} (e : exn) : M A := λ w, (Raise e, w).

(** [try: body  except Exception as e: handler e] *)
Definition try_except {A} (body : M A) (handler : exn → M A) : M A := λ w,
  match body w with
  | (Ok a, w') => (Ok a, w')
  | (Raise e, w') => handler e w'
  end.

Definition lift {A} (r : result A) : M A := λ w, (r, w).

Definition emit (e : event) : M unit := λ w,
  (Ok (), mkWorld (pets w) (clock w) (trace w ++ [e])).

Definition log (l : level) (m : message) : M unit := emit (Log l m).

(** [timezone.now()] *)
Definition timezone_now : M Z := λ w, (Ok (clock w), w).

(** [time.sleep(seconds)] *)
Definition time_sleep (seconds : Z) : M unit := λ w,
  (Ok (), mkWorld (pets w) (clock w + seconds) (trace w ++ [Sleep seconds])).

Definition get_pets : M (gmap positive Pet.t) := λ w, (Ok (pets w), w).

Definition put_pets (db : gmap positive Pet.t) : M unit := λ w,
  (Ok (), mkWorld db (clock w) (trace w)).

(** A [for] loop whose body updates the loop's local variables [S]. *)
Fixpoint for_each {A S} (l : list A) (body : A → S → M S) (s : S) : M S :=
  match l with
  | [] => ret s
  | x :: l' => bind (body x s) (for_each l' body)
  end.

(** A [for] loop inside a [try]: when an iteration raises, the locals are
    as the completed iterations left them, and the exception is reported. *)
Fixpoint for_each_until_raise {A S} (l : list A) (body : A → S → M S) (s : S)
  : M (S * option exn) := λ w,
  match l with
  | [] => (Ok (s, None), w)
  | x :: l' =>
      match body x s w with
      | (Ok s', w') => for_each_until_raise l' body s' w'
      | (Raise e, w') => (Ok (s, Some e), w')
      end
  end.

(** Run [body]; hand its exception, if any, to the caller as a value. *)
Definition attempt {A} (body : M A) : M (A + exn) := λ w,
  match body w with
  | (Ok a, w') => (Ok (inl a), w')
  | (Raise e, w') => (Ok (inr e), w')
  end.

End World.

Import World.


(** [float(v)]; the text of a string is read by [float_of_str]. *)
Definition float (ext : externals) (v : pyval) : result Q :=
  match v with
  | PyStr s =>
      match float_of_str ext s with
      | Some q => Ok q
      | None => Raise ValueError
      end
  | _ => number v
  end.

(** [response.raise_for_status()]: an [HTTPError] for a 4xx or 5xx status. *)
Definition raise_for_status (status_code : Z) : M unit :=
  if (400 <=? status_code) && (status_code <? 600)
  then raise (RequestException (HTTPError status_code))
  else ret ().

(** [response.json()]: a [ValueError] when the body is not JSON (the code
    handles it in its [except ValueError] clause). *)
Definition response_json (json : option pyval) : M pyval :=
  match json with
  | Some data => ret data
  | None => raise ValueError
  end.

(* ===================================================================== *)
(** * website/geocoding.py                                                 *)
(* ===================================================================== *)

Module Geocoding.

(** geocoding.py:74-95 *)
Definition CITY_COORDINATES_CACHE : gmap (string * string) (Q * Q) :=
  list_to_map [
    (("Seattle", "WA"), (47.6062, -122.3321));
    (("Atlanta", "GA"), (33.7490, -84.3880));
    (("New York", "NY"), (40.7128, -74.0060));
    (("Los Angeles", "CA"), (34.0522, -118.2437));
    (("Chicago", "IL"), (41.8781, -87.6298));
    (("Houston", "TX"), (29.7604, -95.3698));
    (("Phoenix", "AZ"), (33.4484, -112.0740));
    (("Philadelphia", "PA"), (39.9526, -75.1652));
    (("San Antonio", "TX"), (29.4241, -98.4936));
    (("San Diego", "CA"), (32.7157, -117.1611));
    (("Dallas", "TX"), (32.7767, -96.7970));
    (("San Jose", "CA"), (37.3382, -121.8863));
    (("Austin", "TX"), (30.2672, -97.7431));
    (("Jacksonville", "FL"), (30.3322, -81.6557));
    (("Fort Worth", "TX"), (32.7555, -97.3308));
    (("Columbus", "OH"), (39.9612, -82.9988));
    (("Charlotte", "NC"), (35.2271, -80.8431));
    (("San Francisco", "CA"), (37.7749, -122.4194));
    (("Indianapolis", "IN"), (39.7684, -86.1581));
    (("Washington", "DC"), (38.9072, -77.0369))
  ]%Q.

Section with_externals.
Context (ext : externals).

(** [GeocodingService.get_coordinates] (geocoding.py:22-70): every
    exception ends in [(None, None)]. *)
Definition get_coordinates (city state : string) : M (pyval * pyval) :=
  try_except
    (let query := city +:+ ", " +:+ state +:+ ", USA" in
     log INFO (Geocoding query);;
     emit (GeocodeGet query);;
     match requests_get ext query with
     | TransportError f => raise (RequestException f)
     | Response status_code json =>
         raise_for_status status_code;;
         data ← response_json json;
         found ← lift (if truthy data then n ← len data; Ok (0 <? n) else Ok false);
         if found : bool then
           lat ← lift (item ← first_item data; v ← getitem item "lat"; float ext v);
           lon ← lift (item ← first_item data; v ← getitem item "lon"; float ext v);
           log INFO (FoundCoordinates lat lon);;
           mret (PyFloat lat, PyFloat lon)
         else
           log WARNING (NoCoordinatesFound query);;
           mret (PyNone, PyNone)
     end)
    (λ e,
     log ERROR (GeocodingFailed city state e);;
     mret (PyNone, PyNone)).

(** geocoding.py:98-116 *)
Definition get_coordinates_cached (city state : string) : M (pyval * pyval) :=
  let cache_key := (title city, upper state) in
  match CITY_COORDINATES_CACHE !! cache_key with
  | Some (lat, lon) =>
      log INFO (UsingCachedCoordinates city state);;
      mret (PyFloat lat, PyFloat lon)
  | None => get_coordinates city state
  end.

End with_externals.
End Geocoding.

(* ===================================================================== *)
(** * The persistence collaborator: [Pet.objects]                          *)
(* ===================================================================== *)

Module Objects.

(** [Meta.ordering = ['-created_at']] (models.py:174) and
    [order_by('-created_at')]: most recently created first; rows created
    at the same instant keep the order of the table scan. *)
Definition newer (a b : positive * Pet.t) : Prop :=
  Pet.created_at b.2 ≤ Pet.created_at a.2.

#[global] Instance newer_dec a b : Decision (newer a b).
Proof. unfold newer. apply _. Defined.

Definition order_by_created_desc (rows : list (positive * Pet.t))
  : list (positive * Pet.t) :=
  merge_sort newer rows.

(** [Pet.objects.filter(profile_url=u)] *)
Definition filter_profile_url (u : string) (db : gmap positive Pet.t)
  : list (positive * Pet.t) :=
  order_by_created_desc
    (filter (λ kv, Pet.profile_url kv.2 = Some u) (map_to_list db)).

(** [Pet.objects.filter(name=n, primary_breed=b)] *)
Definition filter_name_breed (n : string) (b : option string)
    (db : gmap positive Pet.t) : list (positive * Pet.t) :=
  order_by_created_desc
    (filter (λ kv, Pet.name kv.2 = n ∧ Pet.primary_breed kv.2 = b)
            (map_to_list db)).

(** [queryset.first()] *)
Definition first (rows : list (positive * Pet.t)) : option (positive * Pet.t) :=
  head rows.

(** [auto_now=True] on [updated_at] (models.py:164) *)
Definition touch (now : Z) (p : Pet.t) : Pet.t :=
  Pet.mk (Pet.name p) (Pet.profile_url p) (Pet.photo_url p)
    (Pet.primary_breed p) (Pet.secondary_breed p) (Pet.is_mixed_breed p)
    (Pet.primary_color p) (Pet.age p) (Pet.sex p) (Pet.size p)
    (Pet.coat_length p) (Pet.public_adoption_fee p)
    (Pet.adoption_fee_waived p) (Pet.location_city p) (Pet.location_state p)
    (Pet.location_zip p) (Pet.latitude p) (Pet.longitude p)
    (Pet.created_at p) now (Pet.scraped_at p).

(** [instance.delete()] *)
Definition delete (pk : positive) : M unit :=
  db ← get_pets;
  put_pets (base.delete pk db).

(** Inside [transaction.atomic()].  [broken] is the connection's
    [needs_rollback]: an exception has left [Model.save] earlier in the
    block ([mark_for_rollback_on_error]), so the connection refuses every
    statement until the block ends. *)
Section with_externals.
Context (ext : externals).

(** The exception a write of the row raises, if any.  The fields prepare
    their values before the statement is sent, so their error comes first;
    a statement sent on a broken connection raises
    [TransactionManagementError] whatever the row. *)
Definition write_failure (broken : bool) (row : Pet.t) : option exn :=
  match db_write ext row with
  | PrepareError e => Some e
  | DatabaseError e => Some (if broken then TransactionManagementError else e)
  | Stored => if broken then Some TransactionManagementError else None
  end.

(** A query of the table: it raises on a broken connection, and returns
    what the table holds otherwise. *)
Definition select {A} (broken : bool) (query : gmap positive Pet.t → A) : M A :=
  if broken then raise TransactionManagementError
  else db ← get_pets; mret (query db).

(** [instance.save()] of a new instance: INSERT under a fresh primary key. *)
Definition insert (broken : bool) (p : Pet.t) : M positive :=
  now ← timezone_now;
  match write_failure broken (touch now p) with
  | Some e => raise e
  | None =>
      db ← get_pets;
      let pk := fresh (dom db) in
      put_pets (<[pk := touch now p]> db);;
      mret pk
  end.

(** [instance.save()] of a stored instance: UPDATE of the row [pk]. *)
Definition save (broken : bool) (pk : positive) (p : Pet.t) : M unit :=
  now ← timezone_now;
  match write_failure broken (touch now p) with
  | Some e => raise e
  | None =>
      db ← get_pets;
      put_pets (<[pk := touch now p]> db)
  end.

End with_externals.
End Objects.

(* ===================================================================== *)
(** * website/services.py                                                  *)
(* ===================================================================== *)

(** The dictionary [extract_pet_data] builds: the keys it may set, each
    absent ([None]) or present with the value it was given. *)
Module PetData.

Record t := mk {
  name : option string;
  primary_breed : option string;
  is_mixed_breed : option pyval;
  primary_color : option string;
  age : option string;
  sex : option string;
  size : option string;
  coat_length : option string;
  adoption_fee_waived : option pyval;
  scraped_at : option Z;
  location_city : option string;
  location_state : option string;
  location_zip : option string;
  latitude : option pyval;
  longitude : option pyval;
  secondary_breed : option string;
  profile_url : option string;
  photo_url : option string;
  public_adoption_fee : option (option Q)
}.

(** [for key, value in pet_data.items(): setattr(pet, key, value)], which
    is also what the keyword arguments of [create] do to a fresh instance.  No key is
    ['id'], so the guard of services.py:265 never skips one. *)
Definition set_on (d : t) (p : Pet.t) : Pet.t :=
  let keep {A} (new : option A) (old : option A) : option A :=
    match new with Some x => Some x | None => old end in
  Pet.mk
    (default (Pet.name p) (name d))
    (keep (profile_url d) (Pet.profile_url p))
    (keep (photo_url d) (Pet.photo_url p))
    (keep (primary_breed d) (Pet.primary_breed p))
    (keep (secondary_breed d) (Pet.secondary_breed p))
    (default (Pet.is_mixed_breed p) (is_mixed_breed d))
    (keep (primary_color d) (Pet.primary_color p))
    (keep (age d) (Pet.age p))
    (keep (sex d) (Pet.sex p))
    (keep (size d) (Pet.size p))
    (keep (coat_length d) (Pet.coat_length p))
    (default (Pet.public_adoption_fee p) (public_adoption_fee d))
    (default (Pet.adoption_fee_waived p) (adoption_fee_waived d))
    (keep (location_city d) (Pet.location_city p))
    (keep (location_state d) (Pet.location_state p))
    (keep (location_zip d) (Pet.location_zip p))
    (default (Pet.latitude p) (latitude d))
    (default (Pet.longitude p) (longitude d))
    (Pet.created_at p)
    (Pet.updated_at p)
    (default (Pet.scraped_at p) (scraped_at d)).

End PetData.

Module Services.

(** services.py:33 *)
Definition BASE_URL : string := "https://www.petfinder.com/search/".

(** [PetFinderScraper.build_search_url] (services.py:51-97).  [page] and
    [limit] are integers and [animal] a string, so no parameter value is
    [None] and every one yields a query part. *)
Definition build_search_url (city state animal : string) (page limit : Z)
    (distance : pyval) : M string :=
  let distance := match distance with PyNone => PyInt 100 | _ => distance end in
  distance ← lift (int distance);
  let distance :=
    if distance <? 1 then 1 else if 500 <? distance then 500 else distance in
  let params := [
    ("page", str_of_int page);
    ("limit[]", str_of_int limit);
    ("status", "adoptable");
    ("distance[]", str_of_int distance);
    ("type[]", animal);
    ("sort[]", "nearest");
    ("location_slug[]", "us%2F" +:+ state +:+ "%2F" +:+ city);
    ("include_transportable", "true")
  ] in
  let query_parts := (λ kv : string * string, kv.1 +:+ "=" +:+ kv.2) <$> params in
  let url := BASE_URL +:+ "?" +:+ join "&" query_parts in
  log INFO (BuiltSearchUrl distance city state);;
  mret url.

(** The local variables of the loop of [save_pets_to_database]. *)
Record counters := mkCounters {
  saved_count : Z;
  updated_count : Z;
  filtered_count : Z
}.

(** Truthiness of an optional argument ([None] when it is left out). *)
Definition given_str (s : option string) : bool :=
  truthy (from_option PyStr PyNone s).
Definition given_int (z : option Z) : bool :=
  truthy (from_option PyInt PyNone z).

(** [distance > max_distance] for a float and the integer bound; the code
    only compares when [max_distance] is truthy. *)
Definition exceeds (distance : R) (max_distance : option Z) : bool :=
  match max_distance with
  | Some m => if Rgt_dec distance (IZR m) then true else false
  | None => false
  end.

(** [range(1, n + 1)] *)
Definition range_1_to (n : pyval) : result (list Z) :=
  match n with
  | PyInt n => Ok (seqZ 1 n)
  | PyBool b => Ok (seqZ 1 (Z.b2z b))
  | _ => Raise TypeError
  end.

(** [min(a, b)] for an integer [a]: [b] when [b < a], else [a]. *)
Definition min_with (a : Z) (b : pyval) : result pyval :=
  match b with
  | PyInt n => Ok (if n <? a then PyInt n else PyInt a)
  | PyBool t => Ok (if Z.b2z t <? a then PyBool t else PyInt a)
  | PyFloat q => Ok (if Qlt_le_dec q (inject_Z a) then PyFloat q else PyInt a)
  | PyNone | PyStr _ | PyList _ | PyDict _ => Raise TypeError
  end.

(** The groups of [values('profile_url').annotate(count=Count('id'))
    .filter(count__gt=1, profile_url__isnull=False).exclude(profile_url='')]
    (services.py:418-420). *)
Definition profile_duplicates (db : gmap positive Pet.t) : list string :=
  let rows := map_to_list db in
  filter
    (λ u, u ≠ EmptyString ∧
          (1 < length (filter (λ kv, Pet.profile_url kv.2 = Some u) rows))%nat)
    (remove_dups (omap (λ kv, Pet.profile_url kv.2) rows)).

(** The groups of [values('name', 'primary_breed')
    .annotate(count=Count('id')).filter(count__gt=1)] (services.py:431-433). *)
Definition name_breed_duplicates (db : gmap positive Pet.t)
  : list (string * option string) :=
  let rows := map_to_list db in
  filter
    (λ nb, (1 < length (filter (λ kv, Pet.name kv.2 = nb.1 ∧
                                      Pet.primary_breed kv.2 = nb.2) rows))%nat)
    (remove_dups ((λ kv, (Pet.name kv.2, Pet.primary_breed kv.2)) <$> rows)).

Section with_externals.
Context (ext : externals).

(** [PetFinderScraper.fetch_page_data] (services.py:99-130).  The two
    [except] clauses catch [RequestException] and [ValueError]; any other
    exception of the [try] block leaves the function as it is. *)
Definition fetch_page_data (url : string) : M pyval :=
  try_except
    (log INFO (FetchingDataFrom url);;
     emit (Get url);;
     match session_get ext url with
     | TransportError f => raise (RequestException f)
     | Response status_code json =>
         raise_for_status status_code;;
         data ← response_json json;
         has_result ← lift (contained_in "result" data);
         if has_result : bool
         then mret data
         else raise (PetFinderAPIError MissingResultKey)
     end)
    (λ e,
     match e with
     | RequestException f =>
         log ERROR (RequestFailed f);;
         raise (PetFinderAPIError (FailedToFetch f))
     | ValueError =>
         log ERROR InvalidJSON;;
         raise (PetFinderAPIError InvalidJSONResponse)
     | _ => raise e
     end).

(** [d.get(k, '').strip()] *)
Definition stripped (d : pyval) (k : string) : result string :=
  v ← get d k (PyStr EmptyString); str_strip v.

(** [PetFinderScraper.extract_pet_data] (services.py:132-199); [now] is
    what [timezone.now()] returns. *)
Definition extract_pet_data (now : Z) (pet_data : pyval) : result PetData.t :=
  animal ← get pet_data "animal" (PyDict []);
  location ← get pet_data "location" (PyDict []);
  name ← stripped animal "name";
  has_breed ← get animal "primary_breed" PyNone;
  primary_breed ←
    (if truthy has_breed
     then b ← get animal "primary_breed" (PyDict []); stripped b "name"
     else Ok EmptyString);
  is_mixed_breed ← get animal "is_mixed_breed" (PyBool false);
  primary_color ← stripped animal "primary_color";
  age ← stripped animal "age";
  sex ← lower <$> stripped animal "sex";
  size ← lower <$> stripped animal "size";
  coat_length ← lower <$> stripped animal "coat_length";
  adoption_fee_waived ← get animal "adoption_fee_waived" (PyBool false);
  '(address_keys, geo_keys) ←
    (if truthy location then
       address ← get location "address" (PyDict []);
       city ← stripped address "city";
       state ← stripped address "state";
       zip ← stripped address "postal_code";
       geo ← get location "geo" (PyDict []);
       geo_keys ←
         (if truthy geo then
            latitude ← get geo "latitude" PyNone;
            longitude ← get geo "longitude" PyNone;
            Ok (Some (latitude, longitude))
          else Ok None);
       Ok (Some (city, state, zip), geo_keys)
     else Ok (None, None));
  has_secondary ← get animal "secondary_breed" PyNone;
  secondary_breed ←
    (if truthy has_secondary
     then b ← getitem animal "secondary_breed"; Some <$> stripped b "name"
     else Ok None);
  social_sharing ← get animal "social_sharing" (PyDict []);
  has_email_url ←
    (if truthy social_sharing then contained_in "email_url" social_sharing
     else Ok false);
  profile_url ←
    (if has_email_url : bool
     then v ← getitem social_sharing "email_url"; str_strip v
     else Ok EmptyString);
  has_photo ← contained_in "primary_photo_cropped_url" animal;
  photo_url ←
    (if has_photo : bool
     then v ← getitem animal "primary_photo_cropped_url"; str_strip v
     else Ok EmptyString);
  adoption_fee ← get animal "public_adoption_fee" PyNone;
  let public_adoption_fee :=
    match adoption_fee with
    | PyNone => None
    | _ => match float ext adoption_fee with
           | Ok q => Some q
           | Raise _ => None
           end
    end in
  Ok {|
    PetData.name := Some name;
    PetData.primary_breed := Some primary_breed;
    PetData.is_mixed_breed := Some is_mixed_breed;
    PetData.primary_color := Some primary_color;
    PetData.age := Some age;
    PetData.sex := Some sex;
    PetData.size := Some size;
    PetData.coat_length := Some coat_length;
    PetData.adoption_fee_waived := Some adoption_fee_waived;
    PetData.scraped_at := Some now;
    PetData.location_city := (λ a : string * string * string, a.1.1) <$> address_keys;
    PetData.location_state := (λ a : string * string * string, a.1.2) <$> address_keys;
    PetData.location_zip := (λ a : string * string * string, a.2) <$> address_keys;
    PetData.latitude := fst <$> geo_keys;
    PetData.longitude := snd <$> geo_keys;
    PetData.secondary_breed := secondary_breed;
    PetData.profile_url := Some profile_url;
    PetData.photo_url := Some photo_url;
    PetData.public_adoption_fee := Some public_adoption_fee
  |}.

(** [pet.calculate_distance(target_lat, target_lon)] as the interpreter
    evaluates it: once the four coordinates are found truthy, the value of
    [Pet.calculate_distance], unless the floating-point evaluation
    raises. *)
Definition calculate_distance_in_floats (self : Pet.t) (target_lat target_lon : pyval)
  : result (option R) :=
  match Pet.calculate_distance self target_lat target_lon with
  | Ok None => Ok None
  | r =>
      match float_error ext (Pet.latitude self) (Pet.longitude self)
              target_lat target_lon with
      | Some e => Raise e
      | None => r
      end
  end.

(** The body of the loop of [save_pets_to_database] (services.py:228-278),
    whose [try] block is run in two parts with the same handler.  First
    the distance check (services.py:229-248), which touches no table:
    [false] when the record is filtered out. *)
Definition distance_check (search_lat search_lon : pyval) (max_distance : option Z)
    (pet_data : PetData.t) : M bool :=
  let unknown := default "Unknown" (PetData.name pet_data) in
  if truthy search_lat && truthy search_lon && given_int max_distance then
    let pet_lat := default PyNone (PetData.latitude pet_data) in
    let pet_lon := default PyNone (PetData.longitude pet_data) in
    if truthy pet_lat && truthy pet_lon then
      now ← timezone_now;
      let temp_pet := Pet.with_coordinates pet_lat pet_lon (Pet.new now) in
      distance ← lift (calculate_distance_in_floats temp_pet search_lat search_lon);
      if match distance with
         | None => true
         | Some d => exceeds d max_distance
         end
      then log DEBUG (FilteredOutPet unknown distance);; mret false
      else mret true
    else
      log DEBUG (PetHasNoCoordinates unknown);; mret true
  else mret true.

(** Then the lookup-then-write (services.py:250-274), whose every
    exception comes from the database layer. *)
Definition lookup_then_write (broken : bool) (pet_data : PetData.t) (c : counters)
  : M counters :=
  let profile_url := strip (default EmptyString (PetData.profile_url pet_data)) in
  existing_pet ←
    (if truthy (PyStr profile_url)
     then Objects.select broken
            (λ db, Objects.first (Objects.filter_profile_url profile_url db))
     else mret None);
  let name := default "Unknown" (PetData.name pet_data) in
  let breed := default "Unknown" (PetData.primary_breed pet_data) in
  match existing_pet with
  | Some (pk, pet) =>
      Objects.save ext broken pk (PetData.set_on pet_data pet);;
      log DEBUG (UpdatedExistingPet name breed);;
      mret (mkCounters (saved_count c) (updated_count c + 1) (filtered_count c))
  | None =>
      now ← timezone_now;
      Objects.insert ext broken (PetData.set_on pet_data (Pet.new now));;
      log DEBUG (CreatedNewPet name breed);;
      mret (mkCounters (saved_count c + 1) (updated_count c) (filtered_count c))
  end.

(** One record: the counters and the state of the transaction before it,
    and after it.  An exception of the distance check leaves the
    transaction as it was; an exception of the lookup-then-write leaves it
    marked for rollback ([broken]). *)
Definition save_pet (search_lat search_lon : pyval) (max_distance : option Z)
    (pet_data : PetData.t) (s : counters * bool) : M (counters * bool) :=
  let unknown := default "Unknown" (PetData.name pet_data) in
  checked ← attempt (distance_check search_lat search_lon max_distance pet_data);
  match checked with
  | inr e => log ERROR (FailedToSavePet unknown e);; mret s
  | inl false =>
      mret (mkCounters (saved_count s.1) (updated_count s.1) (filtered_count s.1 + 1),
            s.2)
  | inl true =>
      written ← attempt (lookup_then_write s.2 pet_data s.1);
      match written with
      | inr e => log ERROR (FailedToSavePet unknown e);; mret (s.1, true)
      | inl c => mret (c, s.2)
      end
  end.

(** [PetFinderScraper.save_pets_to_database] (services.py:201-281).  No
    exception leaves the loop, so [transaction.atomic()] ends normally:
    it commits, unless a write failed in the block, in which case it rolls
    the table back to what it was when the block started. *)
Definition save_pets_to_database (pets_data : list PetData.t)
    (search_city search_state : option string) (max_distance : option Z) : M Z :=
  '(search_lat, search_lon) ←
    (match search_city, search_state with
     | Some city, Some state =>
         if given_str search_city && given_str search_state && given_int max_distance
         then
           '(lat, lon) ← Geocoding.get_coordinates_cached ext city state;
           (if negb (truthy lat) || negb (truthy lon)
            then log WARNING (CouldNotGetCoordinates city state)
            else mret ());;
           mret (lat, lon)
         else mret (PyNone, PyNone)
     | _, _ => mret (PyNone, PyNone)
     end);
  snapshot ← get_pets;
  '(c, broken) ← for_each pets_data (save_pet search_lat search_lon max_distance)
                   (mkCounters 0 0 0, false);
  (if broken : bool then put_pets snapshot else mret ());;
  log INFO (DatabaseUpdateComplete (saved_count c) (updated_count c) (filtered_count c));;
  mret (saved_count c).

(** One page of the loop of [scrape_pets] (services.py:319-340).  The
    [try] block is run in two parts with the same handler: getting the
    page and its animals, where nothing has been appended yet, and the
    extraction loop, whose appends made before an exception stay. *)
Definition scrape_page (city state animal : string) (distance : option Z)
    (first_page_data : pyval) (page_num : Z) (all_pets_data : list PetData.t)
  : M (list PetData.t) :=
  let handler e acc :=
    log ERROR (FailedToScrapePage page_num e);; mret acc in
  got ← attempt
    (page_data ←
       (if page_num =? 1 then mret first_page_data
        else
          page_url ← build_search_url city state animal page_num 100
                       (from_option PyInt PyNone distance);
          page_data ← fetch_page_data page_url;
          time_sleep 2;;
          mret page_data);
     animals ← lift (r ← get page_data "result" (PyDict []);
                     get r "animals" (PyList []));
     items ← lift (iterate animals);
     mret (animals, items));
  match got with
  | inr e => handler e all_pets_data
  | inl (animals, items) =>
      '(all_pets_data, raised) ←
        for_each_until_raise items
          (λ animal_data acc,
             now ← timezone_now;
             pet_data ← lift (extract_pet_data now animal_data);
             mret (acc ++ [pet_data]))
          all_pets_data;
      match raised with
      | Some e => handler e all_pets_data
      | None =>
          got ← attempt (n ← lift (len animals);
                         log INFO (ExtractedPets n page_num));
          match got with
          | inr e => handler e all_pets_data
          | inl _ => mret all_pets_data
          end
      end
  end.

(** [PetFinderScraper.scrape_pets] (services.py:283-356) *)
Definition scrape_pets (city state animal : string) (max_pages : Z)
    (distance : option Z) : M (pyval * Z) :=
  try_except
    (first_page_url ← build_search_url city state animal 1 100
                        (from_option PyInt PyNone distance);
     first_page_data ← fetch_page_data first_page_url;
     pagination ← lift (r ← get first_page_data "result" (PyDict []);
                        get r "pagination" (PyDict []));
     total_pages ← lift (get pagination "total_pages" (PyInt 1));
     log INFO (FoundPages total_pages animal city state);;
     pages_to_scrape ← lift (min_with max_pages total_pages);
     page_nums ← lift (range_1_to pages_to_scrape);
     all_pets_data ←
       for_each page_nums
         (scrape_page city state animal distance first_page_data) [];
     pets_saved ← save_pets_to_database all_pets_data (Some city) (Some state)
                    distance;
     log INFO (SuccessfullySaved pets_saved pages_to_scrape);;
     mret (total_pages, pets_saved))
    (λ e,
     log ERROR (ScrapingFailedWith e);;
     raise (PetFinderAPIError (ScrapingFailed e))).

End with_externals.

(** [clear_all_pets] (services.py:359-369) *)
Definition clear_all_pets : M Z :=
  db ← get_pets;
  let count := Z.of_nat (size db) in
  put_pets ∅;;
  log INFO (DeletedPets count);;
  mret count.

(** [for pet in pets[1:]: pet.delete(); removed_count += 1] *)
Definition delete_all_but_first (pets : list (positive * Pet.t))
    (msg : Pet.t → message) (removed_count : Z) : M Z :=
  for_each (tail pets)
    (λ '(pk, pet) removed_count,
       Objects.delete pk;;
       log INFO (msg pet);;
       mret (removed_count + 1))
    removed_count.

(** [remove_duplicate_pets] (services.py:403-447).  Each of the two group
    queries is evaluated when its loop starts; the rows of a group are
    read when the group is reached. *)
Definition remove_duplicate_pets : M Z :=
  db ← get_pets;
  removed_count ←
    for_each (profile_duplicates db)
      (λ duplicate removed_count,
         db ← get_pets;
         let pets := Objects.filter_profile_url duplicate db in
         delete_all_but_first pets
           (λ pet, RemovedDuplicateByProfileUrl (Pet.name pet)) removed_count)
      0;
  db ← get_pets;
  removed_count ←
    for_each (name_breed_duplicates db)
      (λ duplicate removed_count,
         db ← get_pets;
         let pets := Objects.filter_name_breed duplicate.1 duplicate.2 db in
         delete_all_but_first pets
           (λ pet, RemovedDuplicateByNameBreed (Pet.name pet) (Pet.primary_breed pet))
           removed_count)
      removed_count;
  log INFO (RemovedDuplicates removed_count);;
  mret removed_count.

End Services.

Import Services.

(* ===================================================================== *)
(** * website/views.py                                                     *)
(* ===================================================================== *)

Module Views.

(** [messages.info], [messages.success], [messages.error] *)
Inductive level := info | success | error.

(** One constructor per text that [HomePageView.post] hands to the
    messages framework or to the logger (views.py:92-123). *)
Inductive text :=
  | ClearedExistingPets (deleted_count : Z)
  | FreshSearchCompleted (pets_saved : Z) (city state : string) (total_pages : pyval)
  | ScrapingError (e : exn)
  | FailedToScrapePets (e : exn)
  | UnexpectedError (e : exn)
  | UnexpectedErrorOccurred
  | FieldError (field error : string).

(** What a view leaves behind besides the world of the services: the
    messages for the next page and the lines of its own logger, in order. *)
Inductive output :=
  | Message (l : level) (t : text)
  | LoggerError (t : text).

(** What [PetSearchForm(request.POST)] comes to: [form.errors] when
    [form.is_valid()] is false, [form.cleaned_data] when it is true. *)
Inductive form :=
  | Invalid (errors : list (string * list string))
  | Valid (city state animal : string) (distance : pyval).

(** views.py:81-84: [100] for [None] and for the empty text, else
    [int(distance)]. *)
Definition search_distance (distance : pyval) : result Z :=
  match distance with
  | PyNone | PyStr EmptyString => Ok 100
  | _ => int distance
  end.

Module HomePageView.

(** [HomePageView.post] (views.py:68-126).  The response is the redirect
    to the home page on every path; what differs is the output and the
    world. *)
Definition post (ext : externals) (f : form) : world → list output * world := λ w,
  match f with
  | Invalid errors =>
      (flat_map
         (λ '(field, errors),
            (λ error, Message Views.error (FieldError (title field) error)) <$> errors)
         errors,
       w)
  | Valid city state animal distance =>
      let unexpected e :=
        [LoggerError (UnexpectedError e); Message error UnexpectedErrorOccurred] in
      match search_distance distance with
      | Raise e => (unexpected e, w)
      | Ok distance =>
          match clear_all_pets w with
          | (Raise e, w) => (unexpected e, w)
          | (Ok deleted_count, w) =>
              let cleared :=
                if 0 <? deleted_count
                then [Message info (ClearedExistingPets deleted_count)]
                else [] in
              match scrape_pets ext city state animal 1 (Some distance) w with
              | (Ok (total_pages, pets_saved), w) =>
                  (cleared ++
                   [Message success
                      (FreshSearchCompleted pets_saved city state total_pages)],
                   w)
              | (Raise (PetFinderAPIError cause), w) =>
                  (cleared ++
                   [LoggerError (ScrapingError (PetFinderAPIError cause));
                    Message error (FailedToScrapePets (PetFinderAPIError cause))],
                   w)
              | (Raise e, w) => (cleared ++ unexpected e, w)
              end
          end
      end
  end.

End HomePageView.
End Views.

(* ===================================================================== *)
(** * Specification vocabulary                                             *)
(* ===================================================================== *)

(** ** Worlds and points *)

(** The world before anything happened: an empty table, the clock at 0. *)
Definition w_init : world := mkWorld ∅ 0 [].

(** A pet that only has coordinates. *)
Definition at_point (lat lon : pyval) : Pet.t :=
  Pet.with_coordinates lat lon (Pet.new 0).


(** [v] is the number [q], and [q] is not zero. *)
Definition coordinate (v : pyval) (q : Q) : Prop :=
  number v = Ok q ∧ truthy v = true.

(** ** The upsert engine, record by record *)

(** What the distance check of [save_pet] decides for a record: it
    passes, it is filtered out (at distance [d], or with no distance), or
    the check raised. *)
Inductive verdict := Kept | Filtered (d : option R) | Failed (e : exn).

(** The distance check of services.py:229-248 as a function of the
    resolved origin and the record; [None] when the record has no
    coordinates and the check is skipped. *)
Definition distance_verdict (ext : externals) (search_lat search_lon : pyval)
    (max_distance : option Z) (pet_data : PetData.t) : option verdict :=
  if truthy search_lat && truthy search_lon && given_int max_distance then
    let pet_lat := default PyNone (PetData.latitude pet_data) in
    let pet_lon := default PyNone (PetData.longitude pet_data) in
    if truthy pet_lat && truthy pet_lon then
      match calculate_distance_in_floats ext
              (Pet.with_coordinates pet_lat pet_lon (Pet.new 0))
              search_lat search_lon with
      | Raise e => Some (Failed e)
      | Ok None => Some (Filtered None)
      | Ok (Some d) => if exceeds d max_distance then Some (Filtered (Some d)) else Some Kept
      end
    else None
  else Some Kept.

(** The lookup-then-write of services.py:250-274 on the table alone: the
    new table, and whether a row was created. *)
Definition upsert (now : Z) (pet_data : PetData.t) (db : gmap positive Pet.t)
  : gmap positive Pet.t * bool :=
  let profile_url := strip (default EmptyString (PetData.profile_url pet_data)) in
  match (if truthy (PyStr profile_url)
         then Objects.first (Objects.filter_profile_url profile_url db)
         else None) with
  | Some (pk, pet) => (<[pk := Objects.touch now (PetData.set_on pet_data pet)]> db, false)
  | None =>
      (<[fresh (dom db) := Objects.touch now (PetData.set_on pet_data (Pet.new now))]> db, true)
  end.

(** The counters and the table after one record. *)
Definition after (v : option verdict) (now : Z) (pet_data : PetData.t)
    (c : counters) (db : gmap positive Pet.t) : counters * gmap positive Pet.t :=
  match v with
  | Some (Filtered _) =>
      (mkCounters (saved_count c) (updated_count c) (filtered_count c + 1), db)
  | Some (Failed _) => (c, db)
  | Some Kept | None =>
      let '(db', created) := upsert now pet_data db in
      (if created : bool
       then mkCounters (saved_count c + 1) (updated_count c) (filtered_count c)
       else mkCounters (saved_count c) (updated_count c + 1) (filtered_count c),
       db')
  end.

(** The coordinates the geocoder resolves a city to. *)
Definition origin (ext : externals) (city state : string) : pyval * pyval :=
  match (Geocoding.get_coordinates_cached ext city state w_init).1 with
  | Ok p => p
  | Raise _ => (PyNone, PyNone)
  end.

(** A computation that never raises, leaves the table and the clock alone
    and logs the same events in every world. *)
Definition silent {A} (m : M A) : Prop :=
  ∃ a t, ∀ w, m w = (Ok a, mkWorld (pets w) (clock w) (trace w ++ t)).

(** The origin [save_pets_to_database] filters against (services.py:219-226). *)
Definition resolved_origin (ext : externals) (search_city search_state : option string)
    (max_distance : option Z) : pyval * pyval :=
  match search_city, search_state with
  | Some city, Some state =>
      if given_str search_city && given_str search_state && given_int max_distance
      then origin ext city state
      else (PyNone, PyNone)
  | _, _ => (PyNone, PyNone)
  end.

(** The counters and the table after a batch. *)
Definition run (ext : externals) (search : pyval * pyval)
    (max_distance : option Z) (now : Z)
    (pets_data : list PetData.t) (start : counters * gmap positive Pet.t)
  : counters * gmap positive Pet.t :=
  foldl (λ acc pet_data,
           after (distance_verdict ext search.1 search.2 max_distance pet_data)
                 now pet_data acc.1 acc.2)
        start pets_data.

(** The record reaches the lookup-then-write step. *)
Definition keeps (v : option verdict) : Prop :=
  match v with
  | Some Kept | None => True
  | Some (Filtered _) | Some (Failed _) => False
  end.

Definition reaches_write (v : option verdict) : bool :=
  match v with
  | Some Kept | None => true
  | Some (Filtered _) | Some (Failed _) => false
  end.

(** ** The transaction of a batch *)

(** The key under which the lookup-then-write step writes, the row it
    writes and whether the row is new (services.py:250-274). *)
Definition upsert_target (now : Z) (pet_data : PetData.t) (db : gmap positive Pet.t)
  : positive * Pet.t * bool :=
  let profile_url := strip (default EmptyString (PetData.profile_url pet_data)) in
  match (if truthy (PyStr profile_url)
         then Objects.first (Objects.filter_profile_url profile_url db)
         else None) with
  | Some (pk, pet) => (pk, Objects.touch now (PetData.set_on pet_data pet), false)
  | None =>
      (fresh (dom db), Objects.touch now (PetData.set_on pet_data (Pet.new now)), true)
  end.

(** The database takes the row. *)
Definition accepts (ext : externals) (row : Pet.t) : bool :=
  match db_write ext row with
  | Stored => true
  | PrepareError _ | DatabaseError _ => false
  end.

(** The counters, the table and the state of the transaction after one
    record: a record that reaches the write step in a broken transaction,
    or whose row the database refuses, changes nothing and leaves the
    transaction broken; any other record does what [after] says. *)
Definition after_atomic (ext : externals) (v : option verdict) (now : Z)
    (pet_data : PetData.t) (s : counters * gmap positive Pet.t * bool)
  : counters * gmap positive Pet.t * bool :=
  if reaches_write v &&
     (s.2 || negb (accepts ext (upsert_target now pet_data s.1.2).1.2))
  then (s.1, true)
  else (after v now pet_data s.1.1 s.1.2, s.2).

(** The counters, the table and the state of the transaction after a
    batch, before the transaction ends. *)
Definition run_atomic (ext : externals) (search : pyval * pyval)
    (max_distance : option Z) (now : Z) (pets_data : list PetData.t)
    (start : counters * gmap positive Pet.t * bool)
  : counters * gmap positive Pet.t * bool :=
  foldl (λ acc pet_data,
           after_atomic ext
             (distance_verdict ext search.1 search.2 max_distance pet_data)
             now pet_data acc)
        start pets_data.

(** The transaction of a call of [save_pets_to_database] in the world [w]. *)
Definition transaction (ext : externals) (pets_data : list PetData.t)
    (search_city search_state : option string) (max_distance : option Z)
    (w : world) : counters * gmap positive Pet.t * bool :=
  run_atomic ext (resolved_origin ext search_city search_state max_distance)
    max_distance (clock w) pets_data (mkCounters 0 0 0, pets w, false).

(** The database refuses no write of the call, so its transaction commits. *)
Definition commits (ext : externals) (pets_data : list PetData.t)
    (search_city search_state : option string) (max_distance : option Z)
    (w : world) : Prop :=
  (transaction ext pets_data search_city search_state max_distance w).2 = false.

(** The row has the value of the record under every key of the record
    ([setattr(pet, key, value)], and the keyword arguments of [create]). *)
Definition carries (pet_data : PetData.t) (row : Pet.t) : Prop :=
  (∀ v, PetData.name pet_data = Some v → Pet.name row = v) ∧
  (∀ v, PetData.primary_breed pet_data = Some v → Pet.primary_breed row = Some v) ∧
  (∀ v, PetData.is_mixed_breed pet_data = Some v → Pet.is_mixed_breed row = v) ∧
  (∀ v, PetData.primary_color pet_data = Some v → Pet.primary_color row = Some v) ∧
  (∀ v, PetData.age pet_data = Some v → Pet.age row = Some v) ∧
  (∀ v, PetData.sex pet_data = Some v → Pet.sex row = Some v) ∧
  (∀ v, PetData.size pet_data = Some v → Pet.size row = Some v) ∧
  (∀ v, PetData.coat_length pet_data = Some v → Pet.coat_length row = Some v) ∧
  (∀ v, PetData.adoption_fee_waived pet_data = Some v →
        Pet.adoption_fee_waived row = v) ∧
  (∀ v, PetData.scraped_at pet_data = Some v → Pet.scraped_at row = v) ∧
  (∀ v, PetData.location_city pet_data = Some v → Pet.location_city row = Some v) ∧
  (∀ v, PetData.location_state pet_data = Some v →
        Pet.location_state row = Some v) ∧
  (∀ v, PetData.location_zip pet_data = Some v → Pet.location_zip row = Some v) ∧
  (∀ v, PetData.latitude pet_data = Some v → Pet.latitude row = v) ∧
  (∀ v, PetData.longitude pet_data = Some v → Pet.longitude row = v) ∧
  (∀ v, PetData.secondary_breed pet_data = Some v →
        Pet.secondary_breed row = Some v) ∧
  (∀ v, PetData.profile_url pet_data = Some v → Pet.profile_url row = Some v) ∧
  (∀ v, PetData.photo_url pet_data = Some v → Pet.photo_url row = Some v) ∧
  (∀ v, PetData.public_adoption_fee pet_data = Some v →
        Pet.public_adoption_fee row = v).

(** A text that is empty, or that starts and ends with a printable ASCII
    character other than the space: [str.strip()] leaves it as it is,
    whatever stands between the two. *)
Definition printable (a : ascii) : bool := (33 <=? code a) && (code a <=? 126).

Fixpoint last_char (a : ascii) (s : string) : ascii :=
  match s with
  | EmptyString => a
  | String b s' => last_char b s'
  end.

Definition trimmed (s : string) : Prop :=
  match s with
  | EmptyString => True
  | String a s' => printable a = true ∧ printable (last_char a s') = true
  end.

(** A record whose profile identifier, if it has one, is trimmed. *)
Definition plainly_identified (pet_data : PetData.t) : Prop :=
  ∀ u, PetData.profile_url pet_data = Some u → trimmed u.

(** ** Properties of the table and of a batch *)

(** At most one row has a given non-empty profile identifier. *)
Definition unique_profile_urls (db : gmap positive Pet.t) : Prop :=
  ∀ k1 k2 p1 p2 u,
    db !! k1 = Some p1 → db !! k2 = Some p2 →
    Pet.profile_url p1 = Some u → Pet.profile_url p2 = Some u →
    u ≠ EmptyString → k1 = k2.

(** A record whose profile identifier carries no surrounding whitespace,
    as [extract_pet_data] produces it. *)
Definition normalized (pet_data : PetData.t) : Prop :=
  ∀ u, PetData.profile_url pet_data = Some u → strip u = u.

(** Some row has the profile identifier [u]. *)
Definition stored (u : string) (db : gmap positive Pet.t) : Prop :=
  ∃ pk pet, db !! pk = Some pet ∧ Pet.profile_url pet = Some u.

(** Exactly one row has the profile identifier [u]. *)
Definition exactly_one (u : string) (db : gmap positive Pet.t) : Prop :=
  ∃ pk pet, db !! pk = Some pet ∧ Pet.profile_url pet = Some u ∧
    ∀ pk' pet', db !! pk' = Some pet' → Pet.profile_url pet' = Some u → pk' = pk.

(** The call [r] of [save_pets_to_database] returned the saved count of
    the counters [c], and its last log line reports the three of them. *)
Definition reports (r : result Z * world) (c : counters) : Prop :=
  r.1 = Ok (saved_count c) ∧
  last (trace r.2) =
    Some (Log INFO (DatabaseUpdateComplete (saved_count c) (updated_count c)
                      (filtered_count c))).

(** The call [r] wrote the last record [pet_data] of its batch, where [c]
    and [db] are the counters and the table of the batch without that
    record: the table is [db] with one row written, which has the value
    of the record under every key of the record and was updated at [now];
    either the row is new, created at [now] under a key that [db] does
    not have, and the record is counted as saved, or it replaces a row of
    [db], whose creation instant it keeps, and the record is counted as
    updated; it is not counted as filtered. *)
Definition retained (pet_data : PetData.t) (now : Z) (c : counters)
    (db : gmap positive Pet.t) (r : result Z * world) : Prop :=
  ∃ pk row,
    pets r.2 = <[pk := row]> db ∧
    carries pet_data row ∧
    Pet.updated_at row = now ∧
    ((db !! pk = None ∧ Pet.created_at row = now ∧
      reports r (mkCounters (saved_count c + 1) (updated_count c) (filtered_count c))) ∨
     (∃ old, db !! pk = Some old ∧ Pet.created_at row = Pet.created_at old ∧
        reports r (mkCounters (saved_count c) (updated_count c + 1)
                     (filtered_count c)))).

(** The call [r] skipped the last record of its batch and counted it as
    filtered: the table is the table [db] of the batch without it. *)
Definition filtered_out (c : counters) (db : gmap positive Pet.t)
    (r : result Z * world) : Prop :=
  pets r.2 = db ∧
  reports r (mkCounters (saved_count c) (updated_count c) (filtered_count c + 1)).

(** The call [r] passed over the last record of its batch without
    counting it: the table and the three counts are those of the batch
    without it. *)
Definition passed_over (c : counters) (db : gmap positive Pet.t)
    (r : result Z * world) : Prop :=
  pets r.2 = db ∧ reports r c.

(** The call [r] took the last record [pet_data] of its batch to the
    write step and the write step raised: the failure is logged, the
    record is not counted, and the transaction is rolled back to the
    table [db] the call started from. *)
Definition refused (pet_data : PetData.t) (c : counters)
    (db : gmap positive Pet.t) (r : result Z * world) : Prop :=
  pets r.2 = db ∧
  r.1 = Ok (saved_count c) ∧
  ∃ t e,
    trace r.2 =
      t ++ [Log ERROR (FailedToSavePet (default "Unknown" (PetData.name pet_data)) e);
            Log INFO (DatabaseUpdateComplete (saved_count c) (updated_count c)
                        (filtered_count c))].



(** ** The query builder and the page fetcher *)

(** A text of ASCII characters. *)
Fixpoint is_ascii (s : string) : bool :=
  match s with
  | EmptyString => true
  | String a s' => (code a <? 128) && is_ascii s'
  end.

(** The URL [build_search_url] returns for a clamped distance. *)
Definition query_url (city state animal : string) (page limit distance : Z) : string :=
  BASE_URL +:+ "?" +:+
  join "&" [
    "page=" +:+ str_of_int page;
    "limit[]=" +:+ str_of_int limit;
    "status=adoptable";
    "distance[]=" +:+ str_of_int distance;
    "type[]=" +:+ animal;
    "sort[]=nearest";
    "location_slug[]=us%2F" +:+ state +:+ "%2F" +:+ city;
    "include_transportable=true"
  ].

(** The URL of a page of a scrape (limit 100, the distance clamped). *)
Definition page_url (city state animal : string) (distance : option Z)
    (page_num : Z) : string :=
  query_url city state animal page_num 100 (Z.max 1 (Z.min 500 (default 100 distance))).

(** What [fetch_page_data] returns or raises, by what the server answers. *)
Definition fetch_result (ext : externals) (url : string) : result pyval :=
  match session_get ext url with
  | TransportError f => Raise (PetFinderAPIError (FailedToFetch f))
  | Response status_code json =>
      if (400 <=? status_code) && (status_code <? 600)
      then Raise (PetFinderAPIError (FailedToFetch (HTTPError status_code)))
      else match json with
           | None => Raise (PetFinderAPIError InvalidJSONResponse)
           | Some data =>
               match contained_in "result" data with
               | Ok true => Ok data
               | Ok false => Raise (PetFinderAPIError MissingResultKey)
               | Raise e => Raise e
               end
           end
  end.

(** ** Pagination *)

Definition is_request_or_pause (e : event) : bool :=
  match e with
  | Get _ | Sleep _ => true
  | _ => false
  end.

(** The requests to the search API and the pauses, in order. *)
Definition network_events (t : list event) : list event :=
  List.filter is_request_or_pause t.

(** The page was requested. *)
Definition page_attempted (city state animal : string) (distance : option Z)
    (page_num : Z) (w : world) : Prop :=
  Get (page_url city state animal distance page_num) ∈ trace w.

(** [save_pets_to_database] ran to its end (it logs its counters there). *)
Definition batch_handed_over (w : world) : Prop :=
  ∃ saved updated filtered,
    Log INFO (DatabaseUpdateComplete saved updated filtered) ∈ trace w.

(** The records the extraction loop of one page appends before it ends or
    raises, and the exception that ended it. *)
Fixpoint extract_until_raise (ext : externals) (now : Z) (items : list pyval)
  : list PetData.t * option exn :=
  match items with
  | [] => ([], None)
  | animal_data :: rest =>
      match extract_pet_data ext now animal_data with
      | Ok pet_data =>
          let '(records, raised) := extract_until_raise ext now rest in
          (pet_data :: records, raised)
      | Raise e => ([], Some e)
      end
  end.

(** The page a page number stands for: the first page is the one already
    fetched, any other page is fetched. *)
Definition page_data_of (ext : externals) (city state animal : string)
    (distance : option Z) (first_page_data : pyval) (page_num : Z) : result pyval :=
  if page_num =? 1 then Ok first_page_data
  else fetch_result ext (page_url city state animal distance page_num).

Definition page_items (page_data : pyval) : result (list pyval) :=
  r ← get page_data "result" (PyDict []);
  animals ← get r "animals" (PyList []);
  iterate animals.

(** What one page adds to the batch, and the clock after it. *)
Definition page_yield (ext : externals) (city state animal : string)
    (distance : option Z) (first_page_data : pyval) (page_num now : Z)
  : list PetData.t * Z :=
  match page_data_of ext city state animal distance first_page_data page_num with
  | Ok page_data =>
      let now := if page_num =? 1 then now else now + 2 in
      (match page_items page_data with
       | Ok items => (extract_until_raise ext now items).1
       | Raise _ => []
       end, now)
  | Raise _ => ([], now)
  end.

(** The batch after the pages [page_nums], and the clock. *)
Definition scraped (ext : externals) (city state animal : string)
    (distance : option Z) (first_page_data : pyval) (page_nums : list Z)
    (start : list PetData.t * Z) : list PetData.t * Z :=
  foldl (λ acc page_num,
           let '(records, now) :=
             page_yield ext city state animal distance first_page_data page_num acc.2 in
           (acc.1 ++ records, now))
        start page_nums.

(** ** The duplicate sweep *)

(** The table after the rows [rows] are deleted one by one. *)
Definition delete_rows (rows : list (positive * Pet.t)) (db : gmap positive Pet.t)
  : gmap positive Pet.t :=
  foldl (λ db kv, delete kv.1 db) db rows.

(** Every row has the profile identifier [u]. *)
Definition shares_profile_url (u : string) (db : gmap positive Pet.t) : Prop :=
  map_Forall (λ _ pet, Pet.profile_url pet = Some u) db.

(** No two rows were created at the same instant. *)
Definition distinct_created_at (db : gmap positive Pet.t) : Prop :=
  NoDup ((λ kv, Pet.created_at kv.2) <$> map_to_list db).

(** ** What a scrape requests *)

(** The requests and pauses a page of a scrape causes. *)
Definition page_requests (ext : externals) (city state animal : string)
    (distance : option Z) (page_num : Z) : list event :=
  if page_num =? 1 then []
  else
    Get (page_url city state animal distance page_num) ::
    match fetch_result ext (page_url city state animal distance page_num) with
    | Ok _ => [Sleep 2]
    | Raise _ => []
    end.

(** What [scrape_pets] learns from the first page: the page, the page
    count, the number of pages to scrape and their numbers. *)
Definition scrape_plan (ext : externals) (city state animal : string)
    (max_pages : Z) (distance : option Z)
  : result (pyval * pyval * pyval * list Z) :=
  first_page_data ← fetch_result ext (page_url city state animal distance 1);
  pagination ← (r ← get first_page_data "result" (PyDict []);
                get r "pagination" (PyDict []));
  total_pages ← get pagination "total_pages" (PyInt 1);
  pages_to_scrape ← min_with max_pages total_pages;
  page_nums ← range_1_to pages_to_scrape;
  Ok (first_page_data, total_pages, pages_to_scrape, page_nums).

(** The requests and pauses so far. *)
Definition requests (w : world) : list event := network_events (trace w).

(** The requests among some events. *)
Definition gets (t : list event) : list string :=
  omap (λ e, match e with Get url => Some url | _ => None end) t.

(** The requests to the geocoding provider so far. *)
Definition geocoding_requests (w : world) : list event :=
  List.filter (λ e, match e with GeocodeGet _ => true | _ => false end) (trace w).

(** The query [get_coordinates] sends for a city and a state. *)
Definition geocoding_query (city state : string) : string :=
  city +:+ ", " +:+ state +:+ ", USA".

(** ** What a computation leaves alone *)

(** An observation of the world that a computation leaves as it was,
    whether it returns or raises. *)
Definition preserves {X A} (f : world → X) (m : M A) : Prop :=
  ∀ w, f (m w).2 = f w.

(** Observations that do not see the trace, only its requests and pauses,
    or not the table. *)
Definition trace_blind {X} (f : world → X) : Prop :=
  ∀ w t, f (mkWorld (pets w) (clock w) t) = f w.

Definition log_blind {X} (f : world → X) : Prop :=
  ∀ w e, is_request_or_pause e = false →
    f (mkWorld (pets w) (clock w) (trace w ++ [e])) = f w.

Definition pets_blind {X} (f : world → X) : Prop :=
  ∀ w db, f (mkWorld db (clock w) (trace w)) = f w.

(** ** Rows and records *)

(** Every row of [db] is still in [db'], under its primary key and with
    its creation instant. *)
Definition rows_persist (db db' : gmap positive Pet.t) : Prop :=
  ∀ pk pet, db !! pk = Some pet →
    ∃ pet', db' !! pk = Some pet' ∧ Pet.created_at pet' = Pet.created_at pet.

(** A record that carries no profile identifier: the key is absent, or its
    text is empty or blank. *)
Definition anonymous (pet_data : PetData.t) : Prop :=
  strip (default EmptyString (PetData.profile_url pet_data)) = EmptyString.

(** A record whose coordinates are non-empty texts, not numbers. *)
Definition text_coordinates (pet_data : PetData.t) : Prop :=
  ∃ s t, PetData.latitude pet_data = Some (PyStr s) ∧
         PetData.longitude pet_data = Some (PyStr t) ∧
         s ≠ EmptyString ∧ t ≠ EmptyString.

(** A text that is present, and that [strip] leaves as it is. *)
Definition stripped_text (v : option string) : Prop :=
  ∃ s, v = Some s ∧ strip s = s.

(** A text that is present, and that [strip] and [lower] leave as it is. *)
Definition lowered_text (v : option string) : Prop :=
  ∃ s, v = Some s ∧ lower s = s ∧ strip s = s.

(** ** The duplicate sweep, group by group *)

(** At most one row of the table satisfies [Q]. *)
Definition at_most_one (Q : positive * Pet.t → Prop) (db : gmap positive Pet.t)
  : Prop :=
  ∀ k1 p1 k2 p2,
    db !! k1 = Some p1 → db !! k2 = Some p2 → Q (k1, p1) → Q (k2, p2) → k1 = k2.

(** No two rows have the same name and the same primary breed. *)
Definition unique_name_breed (db : gmap positive Pet.t) : Prop :=
  ∀ k1 k2 p1 p2,
    db !! k1 = Some p1 → db !! k2 = Some p2 →
    Pet.name p1 = Pet.name p2 → Pet.primary_breed p1 = Pet.primary_breed p2 →
    k1 = k2.

(** The rows [Q] selects, most recent first. *)
Definition selected (Q : positive * Pet.t → Prop) `{∀ kv, Decision (Q kv)}
    (db : gmap positive Pet.t) : list (positive * Pet.t) :=
  Objects.order_by_created_desc (filter Q (map_to_list db)).

(** One group of a pass of the sweep, on the counter and the table: the
    selected rows lose all but the first. *)
Definition sweep_group (Q : positive * Pet.t → Prop) `{∀ kv, Decision (Q kv)}
    (s : Z * gmap positive Pet.t) : Z * gmap positive Pet.t :=
  let doomed := tail (selected Q s.2) in
  (s.1 + Z.of_nat (length doomed), delete_rows doomed s.2).

(** A pass of the sweep over its groups. *)
Definition sweep_pass {K} (Q : K → positive * Pet.t → Prop)
    `{∀ k kv, Decision (Q k kv)} (groups : list K)
    (s : Z * gmap positive Pet.t) : Z * gmap positive Pet.t :=
  foldl (λ s k, sweep_group (Q k) s) s groups.

(** The groups of the two passes. *)
Definition has_profile_url (u : string) (kv : positive * Pet.t) : Prop :=
  Pet.profile_url kv.2 = Some u.

Definition has_name_breed (nb : string * option string) (kv : positive * Pet.t)
  : Prop :=
  Pet.name kv.2 = nb.1 ∧ Pet.primary_breed kv.2 = nb.2.

#[global] Typeclasses Opaque has_profile_url has_name_breed.

#[global] Instance has_profile_url_dec u kv : Decision (has_profile_url u kv).
Proof. unfold has_profile_url. apply _. Defined.

#[global] Instance has_name_breed_dec nb kv : Decision (has_name_breed nb kv).
Proof. unfold has_name_breed. apply _. Defined.

(** The sweep on the table alone: the count and the table after both
    passes. *)
Definition swept (db : gmap positive Pet.t) : Z * gmap positive Pet.t :=
  let s1 := sweep_pass has_profile_url (profile_duplicates db) (0, db) in
  sweep_pass has_name_breed (name_breed_duplicates s1.2) s1.

(** Every row of [db] has in [db'] a row that is at least as recent. *)
Definition covered (db db' : gmap positive Pet.t) : Prop :=
  ∀ k p, db !! k = Some p →
    ∃ k' p', db' !! k' = Some p' ∧ Pet.created_at p ≤ Pet.created_at p'.

(** The row [pet] under [pk] has no duplicate in [db]: no other row has
    its non-empty profile identifier, and no other row has its name and
    its primary breed. *)
Definition unmatched (db : gmap positive Pet.t) (pk : positive) (pet : Pet.t)
  : Prop :=
  ∀ pk' pet', db !! pk' = Some pet' → pk' ≠ pk →
    (∀ u, u ≠ EmptyString → Pet.profile_url pet = Some u →
          Pet.profile_url pet' ≠ Some u) ∧
    ¬ (Pet.name pet' = Pet.name pet ∧
       Pet.primary_breed pet' = Pet.primary_breed pet).

(** The row [pet] under [pk] has the profile identifier [u], and every
    other row with that identifier was created strictly before it. *)
Definition newest_with (u : string) (db : gmap positive Pet.t) (pk : positive)
    (pet : Pet.t) : Prop :=
  db !! pk = Some pet ∧
  Pet.profile_url pet = Some u ∧
  ∀ pk' pet', db !! pk' = Some pet' → Pet.profile_url pet' = Some u → pk' ≠ pk →
    Pet.created_at pet' < Pet.created_at pet.

(** No row with another profile identifier, or with none, has both the
    name and the primary breed of [pet]. *)
Definition unrivalled (u : string) (db : gmap positive Pet.t) (pet : Pet.t) : Prop :=
  ∀ pk' pet', db !! pk' = Some pet' → Pet.profile_url pet' ≠ Some u →
    ¬ (Pet.name pet' = Pet.name pet ∧
       Pet.primary_breed pet' = Pet.primary_breed pet).

(** ** The home page *)

(** The message about the rows a search cleared first, if any. *)
Definition cleared_message (db : gmap positive Pet.t) : list Views.output :=
  if 0 <? Z.of_nat (size db)
  then [Views.Message Views.info (Views.ClearedExistingPets (Z.of_nat (size db)))]
  else [].

(** ** Example inputs *)

(** A database that enforces the two NOT NULL columns a record can set,
    [is_mixed_breed] and [adoption_fee_waived] (models.py:75-78, 121-124),
    and takes every other row. *)
Definition not_null_columns (row : Pet.t) : db_outcome :=
  match Pet.is_mixed_breed row, Pet.adoption_fee_waived row with
  | PyNone, _ | _, PyNone => DatabaseError IntegrityError
  | _, _ => Stored
  end.

(** No network: every request fails. *)
Definition offline : externals := {|
  session_get := λ _, TransportError ConnectionError;
  requests_get := λ _, TransportError ConnectionError;
  float_of_str := λ _, None;
  db_write := not_null_columns;
  float_error := λ _ _ _ _, None
|}.

(** A server that answers every search request with status 200 and the
    JSON body [null]. *)
Definition null_body : externals := {|
  session_get := λ _, Response 200 (Some PyNone);
  requests_get := λ _, TransportError ConnectionError;
  float_of_str := λ _, None;
  db_write := not_null_columns;
  float_error := λ _ _ _ _, None
|}.

(** A page without animals. *)
Definition empty_page (total_pages : Z) : pyval :=
  PyDict [("result", PyDict [
    ("pagination", PyDict [("total_pages", PyInt total_pages)]);
    ("animals", PyList [])])].

(** A server with two empty pages. *)
Definition two_pages : externals := {|
  session_get := λ _, Response 200 (Some (empty_page 2));
  requests_get := λ _, TransportError ConnectionError;
  float_of_str := λ _, None;
  db_write := not_null_columns;
  float_error := λ _ _ _ _, None
|}.

(** A server whose first page times out. *)
Definition first_page_down : externals := {|
  session_get := λ url,
    if String.eqb url (page_url "Seattle" "WA" "dog" (Some 100) 1)
    then TransportError Timeout
    else Response 200 (Some (empty_page 2));
  requests_get := λ _, TransportError ConnectionError;
  float_of_str := λ _, None;
  db_write := not_null_columns;
  float_error := λ _ _ _ _, None
|}.

(** A page with one animal. *)
Definition one_pet_page (total_pages : Z) (name url : string) : pyval :=
  PyDict [("result", PyDict [
    ("pagination", PyDict [("total_pages", PyInt total_pages)]);
    ("animals", PyList [
       PyDict [("animal", PyDict [
         ("name", PyStr name);
         ("social_sharing", PyDict [("email_url", PyStr url)])])]])])].

(** A server with three pages, the second of which times out. *)
Definition second_page_down : externals := {|
  session_get := λ url,
    if String.eqb url (page_url "Seattle" "WA" "dog" (Some 100) 2)
    then TransportError Timeout
    else Response 200
           (Some (one_pet_page 3 "Rex" "https://www.petfinder.com/dog/rex-1"));
  requests_get := λ _, TransportError ConnectionError;
  float_of_str := λ _, None;
  db_write := not_null_columns;
  float_error := λ _ _ _ _, None
|}.

(** A record whose profile identifier starts with a space. *)
Definition spaced_record : PetData.t := {|
  PetData.name := Some "Rex";
  PetData.primary_breed := Some "Beagle";
  PetData.is_mixed_breed := None;
  PetData.primary_color := None;
  PetData.age := None;
  PetData.sex := None;
  PetData.size := None;
  PetData.coat_length := None;
  PetData.adoption_fee_waived := None;
  PetData.scraped_at := None;
  PetData.location_city := None;
  PetData.location_state := None;
  PetData.location_zip := None;
  PetData.latitude := None;
  PetData.longitude := None;
  PetData.secondary_breed := None;
  PetData.profile_url := Some " https://www.petfinder.com/dog/rex-1";
  PetData.photo_url := None;
  PetData.public_adoption_fee := None
|}.

(** A record as [extract_pet_data] builds it, at the given coordinates. *)
Definition record_at (name url : string) (lat lon : pyval) : PetData.t := {|
  PetData.name := Some name;
  PetData.primary_breed := Some "Beagle";
  PetData.is_mixed_breed := Some (PyBool false);
  PetData.primary_color := Some EmptyString;
  PetData.age := Some "adult";
  PetData.sex := Some "male";
  PetData.size := Some "medium";
  PetData.coat_length := Some "short";
  PetData.adoption_fee_waived := Some (PyBool false);
  PetData.scraped_at := Some 0;
  PetData.location_city := Some EmptyString;
  PetData.location_state := Some EmptyString;
  PetData.location_zip := Some EmptyString;
  PetData.latitude := Some lat;
  PetData.longitude := Some lon;
  PetData.secondary_breed := None;
  PetData.profile_url := Some url;
  PetData.photo_url := Some EmptyString;
  PetData.public_adoption_fee := Some None
|}.


Definition seattle_record : PetData.t :=
  record_at "Bo" "https://www.petfinder.com/dog/bo-2"
    (PyFloat 47.6062) (PyFloat (-122.3321)).

(** A stored row with the profile identifier [u]. *)
Definition copy_of (u : string) (created_at : Z) : Pet.t :=
  Pet.mk "Rex" (Some u) None (Some "Labrador") None (PyBool false) None None
    None None None None (PyBool false) None None None PyNone PyNone
    created_at created_at created_at.

(** Three rows with one profile identifier, created at 10, 30 and 20. *)
Definition three_copies : world :=
  mkWorld (list_to_map [
             (1%positive, copy_of "https://www.petfinder.com/dog/rex-1" 10);
             (2%positive, copy_of "https://www.petfinder.com/dog/rex-1" 30);
             (3%positive, copy_of "https://www.petfinder.com/dog/rex-1" 20)])
          40 [].

(** Two rows with one profile identifier, created at 10 and 30, and a
    more recent row of the same name and breed under another identifier. *)
Definition rival_table : world :=
  mkWorld (list_to_map [
             (1%positive, copy_of "https://www.petfinder.com/dog/rex-1" 10);
             (2%positive, copy_of "https://www.petfinder.com/dog/rex-1" 30);
             (3%positive, copy_of "https://www.petfinder.com/dog/rex-9" 50)])
          60 [].

(** A record whose [is_mixed_breed] is [None]. *)
Definition null_record : PetData.t := {|
  PetData.name := Some "Nil";
  PetData.primary_breed := Some "Beagle";
  PetData.is_mixed_breed := Some PyNone;
  PetData.primary_color := None;
  PetData.age := None;
  PetData.sex := None;
  PetData.size := None;
  PetData.coat_length := None;
  PetData.adoption_fee_waived := None;
  PetData.scraped_at := None;
  PetData.location_city := None;
  PetData.location_state := None;
  PetData.location_zip := None;
  PetData.latitude := None;
  PetData.longitude := None;
  PetData.secondary_breed := None;
  PetData.profile_url := Some "https://www.petfinder.com/dog/nil-3";
  PetData.photo_url := None;
  PetData.public_adoption_fee := None
|}.

(** A record without a profile identifier. *)
Definition stray_record : PetData.t :=
  record_at "Stray" EmptyString PyNone PyNone.

(** A record whose coordinates arrived as texts. *)
Definition text_record : PetData.t :=
  record_at "Rex" "https://www.petfinder.com/dog/rex-1"
    (PyStr "47.6062") (PyStr "-122.3321").

(** A table with one row. *)
Definition one_copy : world :=
  mkWorld {[1%positive := copy_of "https://www.petfinder.com/dog/rex-1" 10]} 40 [].

(** An animal of a page, with padded and capitalised texts. *)
Definition padded_animal : pyval :=
  PyDict [("animal", PyDict [
    ("name", PyStr " Rex ");
    ("sex", PyStr " Male");
    ("size", PyStr "Large ");
    ("social_sharing",
       PyDict [("email_url", PyStr " https://www.petfinder.com/dog/rex-1 ")])])].

(** Three copies of one pet and a fourth row of another. *)
Definition mixed_table : world :=
  mkWorld (<[4%positive :=
             Pet.mk "Bo" (Some "https://www.petfinder.com/dog/bo-2") None
               (Some "Beagle") None (PyBool false) None None None None None None
               (PyBool false) None None None PyNone PyNone 5 5 5]>
           (pets three_copies))
          40 [].

(* ===================================================================== *)
(** * Properties                                                           *)
(* ===================================================================== *)

(** ** The distance calculator *)

Lemma radians_0 : radians 0 = 0%R.
Proof. unfold radians. lra. Qed.

Lemma atan2_0_1 : atan2 0 1 = 0%R.
Proof.
  unfold atan2. destruct (Rlt_dec 0 1) as [_|H]; [|lra].
  replace (0 / 1)%R with 0%R by lra. apply atan_0.
Qed.

Lemma haversine_self lat lon : Pet.haversine lat lon lat lon = 0%R.
Proof.
  unfold Pet.haversine.
  replace (lat - lat)%R with 0%R by lra.
  replace (lon - lon)%R with 0%R by lra.
  rewrite radians_0. replace (0 / 2)%R with 0%R by lra. rewrite sin_0.
  replace (0 ^ 2 + cos (radians lat) * cos (radians lat) * 0 ^ 2)%R with 0%R by lra.
  rewrite sqrt_0. replace (1 - 0)%R with 1%R by lra. rewrite sqrt_1.
  rewrite atan2_0_1. lra.
Qed.

Lemma sin_half_radians_sq x y :
  (sin (radians (x - y) / 2) ^ 2 = sin (radians (y - x) / 2) ^ 2)%R.
Proof.
  replace (radians (x - y) / 2)%R with (- (radians (y - x) / 2))%R
    by (unfold radians; lra).
  rewrite sin_neg. lra.
Qed.

Lemma haversine_sym lat1 lon1 lat2 lon2 :
  Pet.haversine lat1 lon1 lat2 lon2 = Pet.haversine lat2 lon2 lat1 lon1.
Proof.
  unfold Pet.haversine.
  rewrite (sin_half_radians_sq lat2 lat1), (sin_half_radians_sq lon2 lon1).
  rewrite (Rmult_comm (cos (radians lat1)) (cos (radians lat2))).
  reflexivity.
Qed.

Lemma number_TypeError v e : number v = Raise e → e = TypeError.
Proof. destruct v; simpl; congruence. Qed.

Lemma calculate_distance_sym p1 p2 :
  Pet.calculate_distance p1 (Pet.latitude p2) (Pet.longitude p2) =
  Pet.calculate_distance p2 (Pet.latitude p1) (Pet.longitude p1).
Proof.
  unfold Pet.calculate_distance. simpl.
  destruct (truthy (Pet.latitude p1)), (truthy (Pet.longitude p1)),
    (truthy (Pet.latitude p2)), (truthy (Pet.longitude p2)); simpl; try reflexivity.
  destruct (number (Pet.latitude p1)) eqn:E1, (number (Pet.latitude p2)) eqn:E2,
    (number (Pet.longitude p2)) eqn:E3, (number (Pet.longitude p1)) eqn:E4; simpl;
    repeat match goal with
           | H : number _ = Raise _ |- _ => apply number_TypeError in H; subst
           end;
    try reflexivity.
  by rewrite haversine_sym.
Qed.

Lemma calculate_distance_self p q r :
  number (Pet.latitude p) = Ok q → number (Pet.longitude p) = Ok r →
  truthy (Pet.latitude p) = true → truthy (Pet.longitude p) = true →
  Pet.calculate_distance p (Pet.latitude p) (Pet.longitude p) = Ok (Some 0%R).
Proof.
  intros Hq Hr Ht1 Ht2. unfold Pet.calculate_distance. simpl.
  rewrite Ht1, Ht2. simpl. rewrite Hq, Hr. simpl. by rewrite haversine_self.
Qed.

Example zero_latitude_is_missing :
  Pet.calculate_distance (at_point (PyFloat 0) (PyFloat 10)) (PyFloat 0) (PyFloat 10)
  = Ok None.
Proof. reflexivity. Qed.




Lemma nonzero_float_coordinate q : ¬ (q == 0)%Q → coordinate (PyFloat q) q.
Proof.
  intros H. split; [done|]. simpl. unfold Qzero.
  destruct (Z.eqb_spec (Qnum q) 0) as [E|]; [|done].
  destruct H. unfold Qeq. simpl. lia.
Qed.


Lemma calculate_distance_coordinates self target_lat target_lon lat lon tlat tlon :
  coordinate (Pet.latitude self) lat → coordinate (Pet.longitude self) lon →
  coordinate target_lat tlat → coordinate target_lon tlon →
  Pet.calculate_distance self target_lat target_lon =
  Ok (Some (Pet.haversine (Q2R lat) (Q2R lon) (Q2R tlat) (Q2R tlon))).
Proof.
  intros [H1 T1] [H2 T2] [H3 T3] [H4 T4]. unfold Pet.calculate_distance. simpl.
  rewrite T1, T2, T3, T4, H1, H2, H3, H4. reflexivity.
Qed.

(** C9 (amended).  For every pet whose latitude and longitude are non-zero
    numbers, the distance calculator gives 0 from the pet to its own
    position; and for every two pets [a] and [b], the distance from [a] to
    the position of [b] is the distance from [b] to the position of [a]
    (the same number, the same absence, or the same exception). *)
Theorem C9_amended :
  (∀ (p : Pet.t) (lat lon : Q),
     coordinate (Pet.latitude p) lat → coordinate (Pet.longitude p) lon →
     Pet.calculate_distance p (Pet.latitude p) (Pet.longitude p) = Ok (Some 0%R)) ∧
  (∀ a b : Pet.t,
     Pet.calculate_distance a (Pet.latitude b) (Pet.longitude b) =
     Pet.calculate_distance b (Pet.latitude a) (Pet.longitude a)).
Proof.
  split; [|exact calculate_distance_sym].
  intros p lat lon [N1 T1] [N2 T2].
  exact (calculate_distance_self p lat lon N1 N2 T1 T2).
Qed.

(** C9 (amended), at Seattle. *)
Lemma C9_amended_witness :
  Pet.calculate_distance
    (at_point (PyFloat 47.6062) (PyFloat (-122.3321)))
    (PyFloat 47.6062) (PyFloat (-122.3321)) = Ok (Some 0%R).
Proof.
  apply (proj1 C9_amended (at_point (PyFloat 47.6062) (PyFloat (-122.3321)))
           47.6062%Q (-122.3321)%Q); split; reflexivity.
Defined.

(** C9 as stated fails at a point on the equator: the distance from
    (0, 10) to itself is absent, not 0. *)
Lemma C9_counterexample :
  Pet.calculate_distance (at_point (PyFloat 0) (PyFloat 10)) (PyFloat 0) (PyFloat 10)
    ≠ Ok (Some 0%R).
Proof. discriminate. Qed.

(** ** The upsert engine as a fold *)

Lemma calculate_distance_now lat lon now now' tlat tlon :
  Pet.calculate_distance (Pet.with_coordinates lat lon (Pet.new now)) tlat tlon =
  Pet.calculate_distance (Pet.with_coordinates lat lon (Pet.new now')) tlat tlon.
Proof. reflexivity. Qed.

Lemma calculate_distance_in_floats_now ext lat lon now now' tlat tlon :
  calculate_distance_in_floats ext (Pet.with_coordinates lat lon (Pet.new now))
    tlat tlon =
  calculate_distance_in_floats ext (Pet.with_coordinates lat lon (Pet.new now'))
    tlat tlon.
Proof. reflexivity. Qed.

Lemma upsert_target_upsert now pet_data db :
  upsert now pet_data db =
  (<[(upsert_target now pet_data db).1.1 := (upsert_target now pet_data db).1.2]> db,
   (upsert_target now pet_data db).2).
Proof.
  unfold upsert, upsert_target.
  by destruct (if truthy _ then _ else _) as [[pk pet]|].
Qed.

(** The distance check is [distance_verdict], plus log events. *)
Lemma distance_check_spec ext search_lat search_lon max_distance pet_data w :
  ∃ t,
    attempt (distance_check ext search_lat search_lon max_distance pet_data) w =
    (Ok match distance_verdict ext search_lat search_lon max_distance pet_data with
        | Some Kept | None => inl true
        | Some (Filtered _) => inl false
        | Some (Failed e) => inr e
        end,
     mkWorld (pets w) (clock w) (trace w ++ t)).
Proof.
  unfold distance_check, distance_verdict, attempt, mbind, M_bind, bind, mret,
    M_ret, ret, lift, log, emit, timezone_now.
  destruct (truthy search_lat && truthy search_lon && given_int max_distance).
  2:{ exists []. rewrite app_nil_r. by destruct w. }
  cbv zeta.
  destruct (truthy (default PyNone (PetData.latitude pet_data)) &&
            truthy (default PyNone (PetData.longitude pet_data))).
  2:{ eexists. reflexivity. }
  cbn [fst snd pets clock trace].
  rewrite (calculate_distance_in_floats_now _ _ _ (clock w) 0).
  destruct (calculate_distance_in_floats ext _ search_lat search_lon) as [[d|]|e];
    cbn [fst snd pets clock trace].
  - destruct (exceeds d max_distance); cbn [fst snd pets clock trace].
    + eexists. reflexivity.
    + exists []. rewrite app_nil_r. by destruct w.
  - eexists. reflexivity.
  - exists []. rewrite app_nil_r. by destruct w.
Qed.

(** The lookup-then-write writes the row of [upsert_target] under its
    key, unless the transaction is broken or the database refuses the
    row; then it raises and the table is as it was. *)
Lemma lookup_then_write_spec ext broken pet_data c w :
  let target := upsert_target (clock w) pet_data (pets w) in
  if broken || negb (accepts ext target.1.2) then
    ∃ e, attempt (lookup_then_write ext broken pet_data c) w = (Ok (inr e), w)
  else
    ∃ t,
      attempt (lookup_then_write ext broken pet_data c) w =
      (Ok (inl (if target.2
                then mkCounters (saved_count c + 1) (updated_count c) (filtered_count c)
                else mkCounters (saved_count c) (updated_count c + 1)
                       (filtered_count c))),
       mkWorld (<[target.1.1 := target.1.2]> (pets w)) (clock w) (trace w ++ t)).
Proof.
  unfold lookup_then_write, upsert_target, accepts, attempt, Objects.select,
    Objects.save, Objects.insert, Objects.write_failure, mbind, M_bind, bind,
    mret, M_ret, ret, log, emit, raise, timezone_now, get_pets, put_pets.
  cbv zeta. destruct broken; cbn [orb].
  - destruct (truthy (PyStr _)); [by eexists|].
    cbn [fst snd pets clock trace].
    destruct (db_write ext _); by eexists.
  - destruct (truthy (PyStr _)); cbn [fst snd pets clock trace].
    + destruct (Objects.first _) as [[pk pet]|]; cbn [fst snd pets clock trace];
        destruct (db_write ext _); cbn [negb fst snd pets clock trace];
        by eexists.
    + destruct (db_write ext _); cbn [negb fst snd pets clock trace]; by eexists.
Qed.

(** One iteration of the loop is [after_atomic] on the counters, the
    table and the state of the transaction, plus log events; when the
    write step fails, the last of them reports the failure. *)
Lemma save_pet_spec ext search_lat search_lon max_distance pet_data c broken w :
  ∃ t,
    save_pet ext search_lat search_lon max_distance pet_data (c, broken) w =
    (Ok ((after_atomic ext
            (distance_verdict ext search_lat search_lon max_distance pet_data)
            (clock w) pet_data (c, pets w, broken)).1.1,
         (after_atomic ext
            (distance_verdict ext search_lat search_lon max_distance pet_data)
            (clock w) pet_data (c, pets w, broken)).2),
     mkWorld (after_atomic ext
                (distance_verdict ext search_lat search_lon max_distance pet_data)
                (clock w) pet_data (c, pets w, broken)).1.2
             (clock w) (trace w ++ t)) ∧
    (reaches_write (distance_verdict ext search_lat search_lon max_distance pet_data) &&
     (broken || negb (accepts ext (upsert_target (clock w) pet_data (pets w)).1.2))
     = true →
     ∃ t' e,
       t = t' ++ [Log ERROR (FailedToSavePet (default "Unknown" (PetData.name pet_data))
                               e)]).
Proof.
  unfold save_pet.
  destruct (distance_check_spec ext search_lat search_lon max_distance pet_data w)
    as [t0 Hcheck].
  unfold mbind at 1. unfold M_bind, bind. rewrite Hcheck. clear Hcheck.
  unfold after_atomic. cbn [fst snd].
  set (w0 := mkWorld (pets w) (clock w) (trace w ++ t0)).
  assert (Hwrite := lookup_then_write_spec ext broken pet_data c w0).
  cbv zeta in Hwrite. cbn [pets clock w0] in Hwrite.
  assert (Hkept :
    ∃ t,
      (written ← attempt (lookup_then_write ext broken pet_data c);
       match written with
       | inr e =>
           log ERROR (FailedToSavePet (default "Unknown" (PetData.name pet_data)) e);;
           mret (c, true)
       | inl c0 => mret (c0, broken)
       end) w0 =
      (Ok ((if broken ||
               negb (accepts ext (upsert_target (clock w) pet_data (pets w)).1.2)
            then (c, pets w, true)
            else (let '(db', created) := upsert (clock w) pet_data (pets w) in
                  (if created : bool
                   then mkCounters (saved_count c + 1) (updated_count c)
                          (filtered_count c)
                   else mkCounters (saved_count c) (updated_count c + 1)
                          (filtered_count c), db'), broken)).1.1,
           (if broken ||
               negb (accepts ext (upsert_target (clock w) pet_data (pets w)).1.2)
            then (c, pets w, true)
            else (let '(db', created) := upsert (clock w) pet_data (pets w) in
                  (if created : bool
                   then mkCounters (saved_count c + 1) (updated_count c)
                          (filtered_count c)
                   else mkCounters (saved_count c) (updated_count c + 1)
                          (filtered_count c), db'), broken)).2),
       mkWorld
         (if broken ||
             negb (accepts ext (upsert_target (clock w) pet_data (pets w)).1.2)
          then (c, pets w, true)
          else (let '(db', created) := upsert (clock w) pet_data (pets w) in
                (if created : bool
                 then mkCounters (saved_count c + 1) (updated_count c)
                        (filtered_count c)
                 else mkCounters (saved_count c) (updated_count c + 1)
                        (filtered_count c), db'), broken)).1.2
         (clock w) (trace w ++ t)) ∧
      (broken || negb (accepts ext (upsert_target (clock w) pet_data (pets w)).1.2)
       = true →
       ∃ t' e,
         t = t' ++ [Log ERROR (FailedToSavePet
                                 (default "Unknown" (PetData.name pet_data)) e)])).
  { destruct (broken || negb (accepts ext _)).
    - destruct Hwrite as [e Hw]. unfold mbind, M_bind, bind, log, emit, mret,
        M_ret, ret. rewrite Hw. subst w0. cbn [fst snd pets clock trace].
      rewrite <- app_assoc. eexists. split; [reflexivity|]. intros _. by eexists _, _.
    - destruct Hwrite as [t Hw]. unfold mbind, M_bind, bind, mret, M_ret, ret.
      rewrite Hw. subst w0. cbn [fst snd pets clock trace].
      rewrite <- app_assoc, upsert_target_upsert. cbn [fst snd].
      destruct (upsert_target (clock w) pet_data (pets w)).2;
        (eexists; split; [reflexivity|done]). }
  destruct (distance_verdict ext search_lat search_lon max_distance pet_data)
    as [[|d|e]|]; cbn [reaches_write andb after fst snd].
  - exact Hkept.
  - subst w0. eexists. split; [reflexivity|done].
  - subst w0. unfold mbind, M_bind, bind, log, emit, mret, M_ret, ret.
    cbn [fst snd pets clock trace]. rewrite <- app_assoc.
    eexists. split; [reflexivity|done].
  - exact Hkept.
Qed.

Lemma get_coordinates_silent ext city state :
  silent (Geocoding.get_coordinates ext city state).
Proof.
  unfold silent, Geocoding.get_coordinates.
  unfold try_except, mbind, M_bind, bind, mret, M_ret, ret, lift, log, emit,
    raise, raise_for_status, response_json, mbind, M_bind, bind.
  set (query := city +:+ ", " +:+ state +:+ ", USA").
  destruct (requests_get ext query) as [f|status json].
  { do 2 eexists. intros w. simpl. rewrite <- !app_assoc. reflexivity. }
  destruct ((400 <=? status) && (status <? 600)).
  { do 2 eexists. intros w. simpl. rewrite <- !app_assoc. reflexivity. }
  destruct json as [data|].
  2:{ do 2 eexists. intros w. simpl. rewrite <- !app_assoc. reflexivity. }
  simpl.
  repeat match goal with
         | |- context [match ?x with _ => _ end] =>
             lazymatch type of x with
             | result _ => destruct x
             | bool => destruct x
             end; simpl
         end;
    do 2 eexists; intros w; simpl; rewrite <- ?app_assoc; reflexivity.
Qed.

Lemma get_coordinates_cached_silent ext city state :
  silent (Geocoding.get_coordinates_cached ext city state).
Proof.
  unfold Geocoding.get_coordinates_cached.
  destruct (Geocoding.CITY_COORDINATES_CACHE !! _) as [[lat lon]|].
  - do 2 eexists. intros w. reflexivity.
  - apply get_coordinates_silent.
Qed.

Lemma get_coordinates_cached_spec ext city state w :
  ∃ t, Geocoding.get_coordinates_cached ext city state w =
       (Ok (origin ext city state), mkWorld (pets w) (clock w) (trace w ++ t)).
Proof.
  destruct (get_coordinates_cached_silent ext city state) as (p & t & H).
  exists t. unfold origin. rewrite (H w_init), (H w). reflexivity.
Qed.

Lemma for_each_save_pet ext search_lat search_lon max_distance pets_data c broken w :
  ∃ t,
    for_each pets_data (save_pet ext search_lat search_lon max_distance) (c, broken) w =
    (Ok ((run_atomic ext (search_lat, search_lon) max_distance (clock w) pets_data
            (c, pets w, broken)).1.1,
         (run_atomic ext (search_lat, search_lon) max_distance (clock w) pets_data
            (c, pets w, broken)).2),
     mkWorld (run_atomic ext (search_lat, search_lon) max_distance (clock w) pets_data
                (c, pets w, broken)).1.2
             (clock w) (trace w ++ t)).
Proof.
  revert c broken w. induction pets_data as [|pet_data rest IH]; intros c broken w.
  - exists []. simpl. rewrite app_nil_r. by destruct w.
  - simpl. unfold bind.
    destruct (save_pet_spec ext search_lat search_lon max_distance pet_data c broken w)
      as (t & -> & _).
    destruct (after_atomic ext _ (clock w) pet_data (c, pets w, broken))
      as [[c' db'] broken'].
    cbn [fst snd].
    destruct (IH c' broken' (mkWorld db' (clock w) (trace w ++ t))) as [t' ->].
    cbn [fst snd pets clock trace]. exists (t ++ t'). by rewrite <- app_assoc.
Qed.

Lemma for_each_app {A S} (l1 l2 : list A) (body : A → S → M S) s w :
  for_each (l1 ++ l2) body s w =
  match for_each l1 body s w with
  | (Ok s', w') => for_each l2 body s' w'
  | (Raise e, w') => (Raise e, w')
  end.
Proof.
  revert s w. induction l1 as [|x l1 IH]; intros s w; [done|].
  cbn [app for_each]. unfold bind.
  destruct (body x s w) as [[s'|e] w']; [apply IH|done].
Qed.

Lemma run_atomic_snoc ext search max_distance now before pet_data s :
  run_atomic ext search max_distance now (before ++ [pet_data]) s =
  after_atomic ext (distance_verdict ext search.1 search.2 max_distance pet_data)
    now pet_data (run_atomic ext search max_distance now before s).
Proof. unfold run_atomic. by rewrite foldl_app. Qed.

(** The loop on a batch and one more record: when the write step of that
    record fails, the last event of the loop reports it. *)
Lemma for_each_save_pet_snoc ext search_lat search_lon max_distance before pet_data
    c broken w :
  ∃ t,
    for_each (before ++ [pet_data]) (save_pet ext search_lat search_lon max_distance)
      (c, broken) w =
    (Ok ((run_atomic ext (search_lat, search_lon) max_distance (clock w)
            (before ++ [pet_data]) (c, pets w, broken)).1.1,
         (run_atomic ext (search_lat, search_lon) max_distance (clock w)
            (before ++ [pet_data]) (c, pets w, broken)).2),
     mkWorld (run_atomic ext (search_lat, search_lon) max_distance (clock w)
                (before ++ [pet_data]) (c, pets w, broken)).1.2
             (clock w) (trace w ++ t)) ∧
    (reaches_write (distance_verdict ext search_lat search_lon max_distance pet_data) &&
     ((run_atomic ext (search_lat, search_lon) max_distance (clock w) before
         (c, pets w, broken)).2 ||
      negb (accepts ext
              (upsert_target (clock w) pet_data
                 (run_atomic ext (search_lat, search_lon) max_distance (clock w)
                    before (c, pets w, broken)).1.2).1.2))
     = true →
     ∃ t' e,
       t = t' ++ [Log ERROR (FailedToSavePet (default "Unknown" (PetData.name pet_data))
                               e)]).
Proof.
  rewrite for_each_app, run_atomic_snoc.
  destruct (for_each_save_pet ext search_lat search_lon max_distance before c broken w)
    as [t0 ->].
  destruct (run_atomic ext (search_lat, search_lon) max_distance (clock w) before
              (c, pets w, broken)) as [[c0 db0] b0].
  cbn [fst snd for_each]. unfold bind.
  destruct (save_pet_spec ext search_lat search_lon max_distance pet_data c0 b0
              (mkWorld db0 (clock w) (trace w ++ t0))) as (t1 & -> & Hfail).
  cbn [fst snd pets clock trace] in *. unfold ret.
  exists (t0 ++ t1). rewrite app_assoc. split; [done|].
  intros Hb. destruct (Hfail Hb) as (t' & e & ->).
  exists (t0 ++ t'), e. by rewrite app_assoc.
Qed.

(** What [save_pets_to_database] does before its loop does not depend
    on the batch: it resolves the origin, and logs. *)
Lemma save_pets_to_database_preamble ext search_city search_state max_distance w :
  ∃ t0, ∀ pets_data,
    save_pets_to_database ext pets_data search_city search_state max_distance w =
    (snapshot ← get_pets;
     '(c, broken) ← for_each pets_data
                      (save_pet ext
                         (resolved_origin ext search_city search_state max_distance).1
                         (resolved_origin ext search_city search_state max_distance).2
                         max_distance)
                      (mkCounters 0 0 0, false);
     (if broken : bool then put_pets snapshot else mret ());;
     log INFO (DatabaseUpdateComplete (saved_count c) (updated_count c)
                 (filtered_count c));;
     mret (saved_count c))
      (mkWorld (pets w) (clock w) (trace w ++ t0)).
Proof.
  unfold save_pets_to_database, resolved_origin.
  assert (Hnone : ∀ pets_data,
    ('(search_lat, search_lon) ← (mret (PyNone, PyNone) : M (pyval * pyval));
     snapshot ← get_pets;
     '(c, broken) ← for_each pets_data (save_pet ext search_lat search_lon max_distance)
                      (mkCounters 0 0 0, false);
     (if broken : bool then put_pets snapshot else mret ());;
     log INFO (DatabaseUpdateComplete (saved_count c) (updated_count c)
                 (filtered_count c));;
     mret (saved_count c)) w =
    (snapshot ← get_pets;
     '(c, broken) ← for_each pets_data (save_pet ext PyNone PyNone max_distance)
                      (mkCounters 0 0 0, false);
     (if broken : bool then put_pets snapshot else mret ());;
     log INFO (DatabaseUpdateComplete (saved_count c) (updated_count c)
                 (filtered_count c));;
     mret (saved_count c))
      (mkWorld (pets w) (clock w) (trace w ++ []))).
  { intros pets_data. rewrite app_nil_r. by destruct w. }
  destruct search_city as [city|], search_state as [state|];
    try (exists []; exact Hnone).
  destruct (given_str (Some city) && given_str (Some state) && given_int max_distance);
    [|exists []; exact Hnone].
  destruct (get_coordinates_cached_spec ext city state w) as [t1 H1].
  destruct (origin ext city state) as [lat lon] eqn:Eo.
  destruct (negb (truthy lat) || negb (truthy lon)) eqn:Ew.
  - exists (t1 ++ [Log WARNING (CouldNotGetCoordinates city state)]).
    intros pets_data. rewrite app_assoc.
    unfold mbind at 1. unfold M_bind at 1. unfold bind at 1.
    unfold mbind at 1. unfold M_bind at 1. unfold bind at 1.
    rewrite H1. cbn [fst snd]. rewrite Ew. reflexivity.
  - exists t1. intros pets_data.
    unfold mbind at 1. unfold M_bind at 1. unfold bind at 1.
    unfold mbind at 1. unfold M_bind at 1. unfold bind at 1.
    rewrite H1. cbn [fst snd]. rewrite Ew. reflexivity.
Qed.

(** The end of the block under [transaction.atomic()], after the loop. *)
Lemma atomic_block_end ext search_lat search_lon max_distance pets_data w
    (T : counters * gmap positive Pet.t * bool) t :
  for_each pets_data (save_pet ext search_lat search_lon max_distance)
    (mkCounters 0 0 0, false) w =
    (Ok (T.1.1, T.2), mkWorld T.1.2 (clock w) (trace w ++ t)) →
  (snapshot ← get_pets;
   '(c, broken) ← for_each pets_data (save_pet ext search_lat search_lon max_distance)
                    (mkCounters 0 0 0, false);
   (if broken : bool then put_pets snapshot else mret ());;
   log INFO (DatabaseUpdateComplete (saved_count c) (updated_count c)
               (filtered_count c));;
   mret (saved_count c)) w =
  (Ok (saved_count T.1.1),
   mkWorld (if T.2 then pets w else T.1.2) (clock w)
     (trace w ++ t ++ [Log INFO (DatabaseUpdateComplete (saved_count T.1.1)
                                   (updated_count T.1.1) (filtered_count T.1.1))])).
Proof.
  intros Hloop. unfold mbind, M_bind, bind, get_pets. cbn [fst snd]. rewrite Hloop.
  destruct T as [[c db] broken]. cbn [fst snd].
  destruct broken; unfold put_pets, log, emit, mret, M_ret, ret;
    cbn [fst snd pets clock trace]; by rewrite <- app_assoc.
Qed.

(** [save_pets_to_database] never raises: its counters are those of
    [transaction], which its last log line reports; its table is the
    table of [transaction] when the transaction commits and the table it
    started from when it is rolled back. *)
Lemma save_pets_to_database_report ext pets_data search_city search_state
    max_distance w :
  ∃ t,
    save_pets_to_database ext pets_data search_city search_state max_distance w =
    (Ok (saved_count
           (transaction ext pets_data search_city search_state max_distance w).1.1),
     mkWorld
       (if (transaction ext pets_data search_city search_state max_distance w).2
        then pets w
        else (transaction ext pets_data search_city search_state max_distance w).1.2)
       (clock w)
       (trace w ++ t ++
        [Log INFO
           (DatabaseUpdateComplete
              (saved_count
                 (transaction ext pets_data search_city search_state max_distance w).1.1)
              (updated_count
                 (transaction ext pets_data search_city search_state max_distance w).1.1)
              (filtered_count
                 (transaction ext pets_data search_city search_state max_distance
                    w).1.1))])).
Proof.
  destruct (save_pets_to_database_preamble ext search_city search_state max_distance w)
    as [t0 ->].
  unfold transaction.
  destruct (resolved_origin ext search_city search_state max_distance) as [slat slon].
  cbn [fst snd].
  destruct (for_each_save_pet ext slat slon max_distance pets_data (mkCounters 0 0 0)
              false (mkWorld (pets w) (clock w) (trace w ++ t0))) as [t1 Hloop].
  cbn [pets clock trace] in Hloop.
  rewrite (atomic_block_end ext slat slon max_distance pets_data _ _ t1 Hloop).
  cbn [pets clock trace]. exists (t0 ++ t1). by rewrite !app_assoc.
Qed.

(** The same for a batch and one more record: when the write step of
    that record fails, the failure is the last event before the report. *)
Lemma save_pets_to_database_snoc ext before pet_data search_city search_state
    max_distance w :
  ∃ t,
    save_pets_to_database ext (before ++ [pet_data]) search_city search_state
      max_distance w =
    (Ok (saved_count
           (transaction ext (before ++ [pet_data]) search_city search_state
              max_distance w).1.1),
     mkWorld
       (if (transaction ext (before ++ [pet_data]) search_city search_state
              max_distance w).2
        then pets w
        else (transaction ext (before ++ [pet_data]) search_city search_state
                max_distance w).1.2)
       (clock w)
       (trace w ++ t ++
        [Log INFO
           (DatabaseUpdateComplete
              (saved_count
                 (transaction ext (before ++ [pet_data]) search_city search_state
                    max_distance w).1.1)
              (updated_count
                 (transaction ext (before ++ [pet_data]) search_city search_state
                    max_distance w).1.1)
              (filtered_count
                 (transaction ext (before ++ [pet_data]) search_city search_state
                    max_distance w).1.1))])) ∧
    (reaches_write
       (distance_verdict ext
          (resolved_origin ext search_city search_state max_distance).1
          (resolved_origin ext search_city search_state max_distance).2
          max_distance pet_data) &&
     ((transaction ext before search_city search_state max_distance w).2 ||
      negb (accepts ext
              (upsert_target (clock w) pet_data
                 (transaction ext before search_city search_state max_distance
                    w).1.2).1.2))
     = true →
     ∃ t' e,
       t = t' ++ [Log ERROR (FailedToSavePet (default "Unknown" (PetData.name pet_data))
                               e)]).
Proof.
  destruct (save_pets_to_database_preamble ext search_city search_state max_distance w)
    as [t0 ->].
  unfold transaction.
  destruct (resolved_origin ext search_city search_state max_distance) as [slat slon].
  cbn [fst snd].
  destruct (for_each_save_pet_snoc ext slat slon max_distance before pet_data
              (mkCounters 0 0 0) false (mkWorld (pets w) (clock w) (trace w ++ t0)))
    as (t1 & Hloop & Hfail).
  cbn [pets clock trace] in Hloop, Hfail.
  rewrite (atomic_block_end ext slat slon max_distance _ _ _ t1 Hloop).
  cbn [pets clock trace]. exists (t0 ++ t1). rewrite !app_assoc. split; [done|].
  intros Hb. destruct (Hfail Hb) as (t' & e & ->).
  exists (t0 ++ t'), e. by rewrite app_assoc.
Qed.

Lemma save_pets_to_database_spec ext pets_data search_city search_state max_distance w :
  ∃ t,
    save_pets_to_database ext pets_data search_city search_state max_distance w =
    (Ok (saved_count
           (transaction ext pets_data search_city search_state max_distance w).1.1),
     mkWorld
       (if (transaction ext pets_data search_city search_state max_distance w).2
        then pets w
        else (transaction ext pets_data search_city search_state max_distance w).1.2)
       (clock w) (trace w ++ t)).
Proof.
  destruct (save_pets_to_database_report ext pets_data search_city search_state
              max_distance w) as [t ->].
  by eexists.
Qed.

Lemma run_atomic_cons ext search max_distance now pet_data rest s :
  run_atomic ext search max_distance now (pet_data :: rest) s =
  run_atomic ext search max_distance now rest
    (after_atomic ext (distance_verdict ext search.1 search.2 max_distance pet_data)
       now pet_data s).
Proof. reflexivity. Qed.

Lemma run_cons ext search max_distance now pet_data rest c db :
  run ext search max_distance now (pet_data :: rest) (c, db) =
  run ext search max_distance now rest
    (after (distance_verdict ext search.1 search.2 max_distance pet_data)
       now pet_data c db).
Proof. reflexivity. Qed.

(** A broken transaction stays broken, and changes nothing any more
    but the count of the records filtered out. *)
Lemma run_atomic_broken ext search max_distance now pets_data c db :
  (run_atomic ext search max_distance now pets_data (c, db, true)).2 = true ∧
  (run_atomic ext search max_distance now pets_data (c, db, true)).1.2 = db ∧
  saved_count (run_atomic ext search max_distance now pets_data (c, db, true)).1.1
    = saved_count c.
Proof.
  revert c. induction pets_data as [|pet_data rest IH]; intros c; [done|].
  rewrite run_atomic_cons. unfold after_atomic. cbn [fst snd orb].
  destruct (distance_verdict ext search.1 search.2 max_distance pet_data) as [[|d|e]|];
    cbn [reaches_write andb after fst snd]; try apply IH.
  destruct (IH (mkCounters (saved_count c) (updated_count c) (filtered_count c + 1)))
    as (H1 & H2 & H3).
  by rewrite H1, H2, H3.
Qed.

(** A transaction that commits did what [run] says. *)
Lemma run_atomic_commit ext search max_distance now pets_data c db :
  (run_atomic ext search max_distance now pets_data (c, db, false)).2 = false →
  (run_atomic ext search max_distance now pets_data (c, db, false)).1
    = run ext search max_distance now pets_data (c, db).
Proof.
  revert c db. induction pets_data as [|pet_data rest IH]; intros c db; [done|].
  rewrite run_atomic_cons, run_cons. unfold after_atomic. cbn [fst snd orb].
  destruct (reaches_write _ && _).
  - intros H. by rewrite (proj1 (run_atomic_broken _ _ _ _ _ _ _)) in H.
  - destruct (after _ now pet_data c db) as [c' db']. apply IH.
Qed.

(** The saved count of a transaction, committed or not, grows by at most
    one per record. *)
Lemma run_atomic_saved ext search max_distance now pets_data c db broken :
  saved_count c
    ≤ saved_count (run_atomic ext search max_distance now pets_data (c, db, broken)).1.1
    ≤ saved_count c + Z.of_nat (length pets_data).
Proof.
  revert c db broken. induction pets_data as [|pet_data rest IH]; intros c db broken.
  { cbn. lia. }
  rewrite run_atomic_cons. unfold after_atomic. cbn [fst snd].
  destruct (reaches_write _ && _).
  - specialize (IH c db true). cbn [length]. lia.
  - unfold after.
    destruct (distance_verdict ext _ _ _ pet_data) as [[|d|e]|];
      try destruct (upsert now pet_data db) as [db' []];
      match goal with
      | |- context [run_atomic _ _ _ _ _ (?c', ?db', ?b)] =>
          specialize (IH c' db' b)
      end; cbn [saved_count length] in *; lia.
Qed.

(** A batch none of whose records reaches the write step commits. *)
Lemma run_atomic_no_write ext search max_distance now pets_data c db :
  Forall (λ pet_data,
            reaches_write (distance_verdict ext search.1 search.2 max_distance pet_data)
            = false) pets_data →
  (run_atomic ext search max_distance now pets_data (c, db, false)).2 = false.
Proof.
  intros Hall. revert c db. induction Hall as [|pet_data rest Hp Hrest IH]; intros c db;
    [done|].
  rewrite run_atomic_cons. unfold after_atomic. rewrite Hp. cbn [andb fst snd].
  destruct (after _ now pet_data c db) as [c' db']. apply IH.
Qed.

(** The table a call leaves is the table it found, or the table of
    [run]; the count it returns is that of [run] when it commits. *)
Lemma save_pets_to_database_cases ext pets_data search_city search_state max_distance w :
  ∃ n w',
    save_pets_to_database ext pets_data search_city search_state max_distance w
      = (Ok n, w') ∧
    0 ≤ n ≤ Z.of_nat (length pets_data) ∧
    (pets w' = pets w ∨
     (commits ext pets_data search_city search_state max_distance w ∧
      n = saved_count
            (run ext (resolved_origin ext search_city search_state max_distance)
               max_distance (clock w) pets_data (mkCounters 0 0 0, pets w)).1 ∧
      pets w' = (run ext (resolved_origin ext search_city search_state max_distance)
                   max_distance (clock w) pets_data (mkCounters 0 0 0, pets w)).2)).
Proof.
  destruct (save_pets_to_database_spec ext pets_data search_city search_state
              max_distance w) as [t ->].
  do 2 eexists. split; [reflexivity|]. split.
  { pose proof (run_atomic_saved ext
                  (resolved_origin ext search_city search_state max_distance)
                  max_distance (clock w) pets_data (mkCounters 0 0 0) (pets w) false)
      as H. cbn [saved_count] in H. unfold transaction. lia. }
  cbn [pets]. unfold commits.
  destruct (transaction ext pets_data search_city search_state max_distance w).2
    eqn:Eb; [by left|right].
  unfold transaction in *. rewrite (run_atomic_commit _ _ _ _ _ _ _ Eb). done.
Qed.

(** The table a call that commits leaves, and the count it returns. *)
Lemma save_pets_to_database_commit ext pets_data search_city search_state max_distance w :
  commits ext pets_data search_city search_state max_distance w →
  ∃ t,
    save_pets_to_database ext pets_data search_city search_state max_distance w =
    (Ok (saved_count
           (run ext (resolved_origin ext search_city search_state max_distance)
                max_distance (clock w) pets_data (mkCounters 0 0 0, pets w)).1),
     mkWorld (run ext (resolved_origin ext search_city search_state max_distance)
                max_distance (clock w) pets_data (mkCounters 0 0 0, pets w)).2
             (clock w) (trace w ++ t)).
Proof.
  intros Hc. unfold commits in Hc.
  destruct (save_pets_to_database_spec ext pets_data search_city search_state
              max_distance w) as [t ->].
  rewrite Hc. unfold transaction in *. rewrite (run_atomic_commit _ _ _ _ _ _ _ Hc).
  by exists t.
Qed.

(** ** One row per profile identifier *)

Lemma first_filter_Some u (db : gmap positive Pet.t) pk pet :
  Objects.first (Objects.filter_profile_url u db) = Some (pk, pet) →
  db !! pk = Some pet ∧ Pet.profile_url pet = Some u.
Proof.
  unfold Objects.first, Objects.filter_profile_url, Objects.order_by_created_desc.
  intros H. apply head_Some_elem_of in H.
  rewrite merge_sort_Permutation in H.
  apply list_elem_of_filter in H as [Hu Hin].
  apply elem_of_map_to_list in Hin. done.
Qed.

Lemma first_filter_None u (db : gmap positive Pet.t) :
  Objects.first (Objects.filter_profile_url u db) = None → ¬ stored u db.
Proof.
  unfold Objects.first, Objects.filter_profile_url, Objects.order_by_created_desc.
  intros H (pk & pet & Hpk & Hu).
  apply head_None in H.
  assert (Hin : (pk, pet) ∈ merge_sort Objects.newer
            (filter (λ kv, Pet.profile_url kv.2 = Some u) (map_to_list db))).
  { rewrite merge_sort_Permutation. apply list_elem_of_filter. split; [done|].
    by apply elem_of_map_to_list. }
  rewrite H in Hin. by apply not_elem_of_nil in Hin.
Qed.

Lemma truthy_str_nonempty s : truthy (PyStr s) = true ↔ s ≠ EmptyString.
Proof.
  simpl. destruct (String.eqb_spec s EmptyString); simpl; split; congruence.
Qed.

Lemma written_profile_url now pet_data pet :
  Pet.profile_url (Objects.touch now (PetData.set_on pet_data pet)) =
  match PetData.profile_url pet_data with
  | Some u => Some u
  | None => Pet.profile_url pet
  end.
Proof. reflexivity. Qed.

Lemma upsert_cases now pet_data db :
  let u := strip (default EmptyString (PetData.profile_url pet_data)) in
  (∃ pk pet, u ≠ EmptyString ∧ db !! pk = Some pet ∧ Pet.profile_url pet = Some u ∧
     upsert now pet_data db =
       (<[pk := Objects.touch now (PetData.set_on pet_data pet)]> db, false)) ∨
  ((u = EmptyString ∨ ¬ stored u db) ∧
     upsert now pet_data db =
       (<[fresh (dom db) := Objects.touch now (PetData.set_on pet_data (Pet.new now))]> db,
        true)).
Proof.
  intros u. unfold upsert. fold u.
  destruct (truthy (PyStr u)) eqn:Et.
  - apply truthy_str_nonempty in Et.
    destruct (Objects.first (Objects.filter_profile_url u db)) as [[pk pet]|] eqn:Ef.
    + left. apply first_filter_Some in Ef as [? ?]. by exists pk, pet.
    + right. split; [|done]. right. by apply first_filter_None.
  - right. split; [|done]. left.
    destruct (decide (u = EmptyString)) as [|Hne]; [done|].
    apply truthy_str_nonempty in Hne. congruence.
Qed.

Lemma fresh_key_None (db : gmap positive Pet.t) : db !! fresh (dom db) = None.
Proof. apply not_elem_of_dom, is_fresh. Qed.

Lemma upsert_unique now pet_data db :
  normalized pet_data → unique_profile_urls db →
  unique_profile_urls (upsert now pet_data db).1.
Proof.
  intros Hn Hu.
  destruct (upsert_cases now pet_data db) as
    [(pk & pet & Hne & Hpk & Hurl & ->) | [Hnone ->]]; simpl.
  - (* update: the row keeps its profile URL *)
    assert (Hsame : Pet.profile_url (Objects.touch now (PetData.set_on pet_data pet))
                    = Pet.profile_url pet).
    { rewrite written_profile_url.
      destruct (PetData.profile_url pet_data) as [raw|] eqn:Er; [|done].
      simpl in Hurl. rewrite (Hn raw Er) in Hurl. done. }
    intros k1 k2 p1 p2 u H1 H2 Hu1 Hu2 Hnu.
    apply lookup_insert_Some in H1 as [[<- <-]|[? H1]];
      apply lookup_insert_Some in H2 as [[<- <-]|[? H2]]; try done.
    + rewrite Hsame in Hu1. by apply (Hu pk k2 pet p2 u).
    + rewrite Hsame in Hu2. by apply (Hu k1 pk p1 pet u).
    + by apply (Hu k1 k2 p1 p2 u).
  - (* insert under a fresh key *)
    pose proof (fresh_key_None db) as Hfresh.
    assert (Hnew : ∀ p u, db !! fresh (dom db) ≠ Some p ∧
              (Pet.profile_url (Objects.touch now (PetData.set_on pet_data (Pet.new now)))
               = Some u → u ≠ EmptyString → ¬ stored u db)).
    { intros p u. split; [by rewrite Hfresh|].
      rewrite written_profile_url. intros Hw Hnu.
      destruct (PetData.profile_url pet_data) as [raw|] eqn:Er; [|done].
      injection Hw as ->. simpl in Hnone. rewrite (Hn u Er) in Hnone.
      by destruct Hnone. }
    intros k1 k2 p1 p2 u H1 H2 Hu1 Hu2 Hnu.
    apply lookup_insert_Some in H1 as [[<- <-]|[? H1]];
      apply lookup_insert_Some in H2 as [[<- <-]|[? H2]]; try done.
    + destruct (Hnew p2 u) as [_ Hns]. destruct (Hns Hu1 Hnu). by exists k2, p2.
    + destruct (Hnew p1 u) as [_ Hns]. destruct (Hns Hu2 Hnu). by exists k1, p1.
    + by apply (Hu k1 k2 p1 p2 u).
Qed.

Lemma after_unique v now pet_data c db :
  normalized pet_data → unique_profile_urls db →
  unique_profile_urls (after v now pet_data c db).2.
Proof.
  intros Hn Hu. pose proof (upsert_unique now pet_data db Hn Hu) as H.
  unfold after. destruct (upsert now pet_data db) as [db' created].
  destruct v as [[| |]|]; simpl; done.
Qed.

Lemma run_unique ext search max_distance now pets_data c db :
  Forall normalized pets_data → unique_profile_urls db →
  unique_profile_urls (run ext search max_distance now pets_data (c, db)).2.
Proof.
  intros Hn. revert c db. induction Hn as [|pet_data rest Hp Hrest IH]; intros c db Hu.
  - done.
  - unfold run. simpl. fold (run ext search max_distance now rest).
    destruct (after _ now pet_data c db) as [c' db'] eqn:Ea.
    apply IH. replace db' with (after (distance_verdict ext search.1 search.2 max_distance pet_data)
                                  now pet_data c db).2 by (by rewrite Ea).
    by apply after_unique.
Qed.

Lemma upsert_keeps_urls now pet_data db pk pet :
  normalized pet_data → db !! pk = Some pet →
  ∃ pet', (upsert now pet_data db).1 !! pk = Some pet' ∧
          Pet.profile_url pet' = Pet.profile_url pet.
Proof.
  intros Hn Hpk.
  destruct (upsert_cases now pet_data db) as
    [(pk0 & pet0 & Hne & Hpk0 & Hurl & ->) | [Hnone ->]]; simpl.
  - destruct (decide (pk0 = pk)) as [->|Hd].
    + rewrite lookup_insert_eq. eexists. split; [done|].
      rewrite written_profile_url. rewrite Hpk in Hpk0. injection Hpk0 as ->.
      destruct (PetData.profile_url pet_data) as [raw|] eqn:Er; [|done].
      simpl in Hurl. by rewrite (Hn raw Er) in Hurl.
    + rewrite lookup_insert_ne by done. by exists pet.
  - rewrite lookup_insert_ne; [by exists pet|].
    intros Heq. rewrite <- Heq, fresh_key_None in Hpk. done.
Qed.

Lemma upsert_stored_mono now pet_data db u :
  normalized pet_data → stored u db → stored u (upsert now pet_data db).1.
Proof.
  intros Hn (pk & pet & Hpk & Hu).
  destruct (upsert_keeps_urls now pet_data db pk pet Hn Hpk) as (pet' & H1 & H2).
  exists pk, pet'. split; [done|congruence].
Qed.

Lemma upsert_stores now pet_data db u :
  normalized pet_data → PetData.profile_url pet_data = Some u →
  stored u (upsert now pet_data db).1.
Proof.
  intros Hn Hu.
  destruct (upsert_cases now pet_data db) as
    [(pk0 & pet0 & Hne & Hpk0 & Hurl & ->) | [Hnone ->]]; simpl.
  - exists pk0. eexists. rewrite lookup_insert_eq. split; [done|].
    by rewrite written_profile_url, Hu.
  - exists (fresh (dom db)). eexists. rewrite lookup_insert_eq. split; [done|].
    by rewrite written_profile_url, Hu.
Qed.

Lemma upsert_existing now pet_data db u :
  normalized pet_data → PetData.profile_url pet_data = Some u → u ≠ EmptyString →
  stored u db →
  (upsert now pet_data db).2 = false ∧ dom (upsert now pet_data db).1 = dom db.
Proof.
  intros Hn Hu Hne Hs.
  destruct (upsert_cases now pet_data db) as
    [(pk0 & pet0 & _ & Hpk0 & Hurl & ->) | [Hnone ->]]; simpl.
  - split; [done|]. rewrite dom_insert_L.
    apply elem_of_dom_2 in Hpk0.
    apply subseteq_union_1_L. by apply singleton_subseteq_l.
  - rewrite Hu in Hnone. simpl in Hnone. rewrite (Hn u Hu) in Hnone.
    by destruct Hnone.
Qed.

Lemma after_stored_mono v now pet_data c db u :
  normalized pet_data → stored u db → stored u (after v now pet_data c db).2.
Proof.
  intros Hn Hs. pose proof (upsert_stored_mono now pet_data db u Hn Hs) as H.
  unfold after. destruct (upsert now pet_data db) as [db' created].
  destruct v as [[| |]|]; simpl; done.
Qed.

Lemma run_stored_mono ext search max_distance now pets_data c db u :
  Forall normalized pets_data → stored u db →
  stored u (run ext search max_distance now pets_data (c, db)).2.
Proof.
  intros Hn. revert c db. induction Hn as [|pet_data rest Hp Hrest IH]; intros c db Hs.
  - done.
  - unfold run. simpl. fold (run ext search max_distance now rest).
    destruct (after _ now pet_data c db) as [c' db'] eqn:Ea.
    apply IH. replace db' with (after (distance_verdict ext search.1 search.2 max_distance pet_data)
                                  now pet_data c db).2 by (by rewrite Ea).
    by apply after_stored_mono.
Qed.

Lemma run_stores_kept ext search max_distance now pets_data c db pet_data u :
  Forall normalized pets_data → pet_data ∈ pets_data →
  keeps (distance_verdict ext search.1 search.2 max_distance pet_data) →
  PetData.profile_url pet_data = Some u →
  stored u (run ext search max_distance now pets_data (c, db)).2.
Proof.
  intros Hn. revert c db.
  induction Hn as [|first rest Hp Hrest IH]; intros c db Hin Hk Hu.
  - by apply not_elem_of_nil in Hin.
  - unfold run. simpl. fold (run ext search max_distance now rest).
    destruct (after _ now first c db) as [c' db'] eqn:Ea.
    apply elem_of_cons in Hin as [->|Hin].
    + apply run_stored_mono; [done|].
      replace db' with (after (distance_verdict ext search.1 search.2 max_distance first)
                          now first c db).2 by (by rewrite Ea).
      unfold after. pose proof (upsert_stores now first db u Hp Hu) as Hs.
      destruct (upsert now first db) as [db'' created].
      destruct (distance_verdict ext _ _ _ first) as [[| |]|]; simpl; done.
    + by apply IH.
Qed.

(** A second run over the same batch creates nothing. *)
Lemma run_again ext search max_distance now pets_data c db :
  Forall (λ pet_data, normalized pet_data ∧
            ∃ u, PetData.profile_url pet_data = Some u ∧ u ≠ EmptyString) pets_data →
  (∀ pet_data u, pet_data ∈ pets_data →
     keeps (distance_verdict ext search.1 search.2 max_distance pet_data) →
     PetData.profile_url pet_data = Some u → stored u db) →
  saved_count (run ext search max_distance now pets_data (c, db)).1 = saved_count c ∧
  dom (run ext search max_distance now pets_data (c, db)).2 = dom db.
Proof.
  intros Hn. revert c db.
  induction Hn as [|first rest [Hp (u & Hu & Hne)] Hrest IH]; intros c db Hcov.
  - done.
  - unfold run. simpl. fold (run ext search max_distance now rest).
    destruct (after _ now first c db) as [c' db'] eqn:Ea.
    assert (Hstep : saved_count c' = saved_count c ∧ dom db' = dom db ∧
                    ∀ v, stored v db → stored v db').
    { unfold after in Ea.
      destruct (distance_verdict ext search.1 search.2 max_distance first) as [[| |]|] eqn:Ev;
        try (injection Ea as <- <-; done).
      - assert (Hs : stored u db).
        { apply (Hcov first u); [apply elem_of_cons; by left | by rewrite Ev | done]. }
        destruct (upsert_existing now first db u Hp Hu Hne Hs) as [Hc Hd].
        pose proof (λ v, upsert_stored_mono now first db v Hp) as Hm.
        destruct (upsert now first db) as [db'' created]. simpl in *. subst created.
        injection Ea as <- <-. done.
      - assert (Hs : stored u db).
        { apply (Hcov first u); [apply elem_of_cons; by left | by rewrite Ev | done]. }
        destruct (upsert_existing now first db u Hp Hu Hne Hs) as [Hc Hd].
        pose proof (λ v, upsert_stored_mono now first db v Hp) as Hm.
        destruct (upsert now first db) as [db'' created]. simpl in *. subst created.
        injection Ea as <- <-. done. }
    destruct Hstep as (Hc & Hd & Hm).
    destruct (IH c' db') as [IH1 IH2].
    { intros pet_data v Hin Hk Hv. apply Hm, (Hcov pet_data v); [|done|done].
      apply elem_of_cons. by right. }
    unfold run in IH1, IH2. split; congruence.
Qed.

Lemma stored_unique_exactly_one u db :
  u ≠ EmptyString → stored u db → unique_profile_urls db → exactly_one u db.
Proof.
  intros Hne (pk & pet & Hpk & Hu) Huniq. exists pk, pet. repeat split; try done.
  intros pk' pet' Hpk' Hu'. by apply (Huniq pk' pk pet' pet u).
Qed.

Lemma unique_profile_urls_empty : unique_profile_urls (pets w_init).
Proof.
  intros k1 k2 p1 p2 u H1. unfold w_init in H1. simpl in H1.
  by rewrite lookup_empty in H1.
Defined.

(** [strip] leaves a trimmed text as it is. *)
Lemma printable_not_space a : printable a = true → is_space a = false.
Proof.
  unfold printable, is_space. intros [H1 H2]%andb_prop.
  apply Z.leb_le in H1, H2.
  apply orb_false_intro; apply andb_false_intro2; apply Z.leb_gt; lia.
Qed.

Lemma rstrip_last a s :
  is_space (last_char a s) = false → rstrip (String a s) = String a s.
Proof.
  revert a. induction s as [|b s IH]; intros a H.
  - cbn in *. by rewrite H.
  - cbn [last_char] in H. specialize (IH b H).
    change (rstrip (String a (String b s)))
      with (match rstrip (String b s) with
            | EmptyString => if is_space a then EmptyString else String a EmptyString
            | r => String a r
            end).
    by rewrite IH.
Qed.

Lemma trimmed_strip s : trimmed s → strip s = s.
Proof.
  destruct s as [|a s]; [done|]. intros [Ha Hl].
  unfold strip. cbn [lstrip]. rewrite (printable_not_space a Ha).
  apply rstrip_last. by apply printable_not_space.
Qed.

Lemma plainly_identified_normalized pet_data :
  plainly_identified pet_data → normalized pet_data.
Proof. intros H u Hu. apply trimmed_strip. by apply H. Qed.

Lemma Forall_plainly_identified_normalized pets_data :
  Forall plainly_identified pets_data → Forall normalized pets_data.
Proof.
  intros H. eapply Forall_impl; [exact H|]. exact plainly_identified_normalized.
Qed.

Lemma seattle_record_plainly_identified : plainly_identified seattle_record.
Proof. intros u [= <-]. split; reflexivity. Defined.

(** The saved count of a transaction is that of [run] on the records
    before the one that broke it, or on the whole batch. *)
Lemma run_atomic_prefix ext search max_distance now pets_data c db :
  ∃ l1 l2,
    pets_data = l1 ++ l2 ∧
    saved_count (run_atomic ext search max_distance now pets_data (c, db, false)).1.1
      = saved_count (run ext search max_distance now l1 (c, db)).1.
Proof.
  revert c db. induction pets_data as [|pet_data rest IH]; intros c db.
  { by exists [], []. }
  rewrite run_atomic_cons. unfold after_atomic. cbn [fst snd orb].
  destruct (reaches_write _ && _).
  - exists [], (pet_data :: rest). split; [done|].
    by rewrite (proj2 (proj2 (run_atomic_broken _ _ _ _ _ _ _))).
  - destruct (after _ now pet_data c db) as [c' db'] eqn:Ea.
    destruct (IH c' db') as (l1 & l2 & -> & Hs).
    exists (pet_data :: l1), l2. split; [done|]. by rewrite run_cons, Ea.
Qed.

(** C3 (amended).  From a table in which at most one row has any given
    non-empty profile identifier, [save_pets_to_database] ends in a table
    with the same property, whatever the database accepts, on a batch
    whose profile identifiers are trimmed: each is empty, or starts and
    ends with a printable ASCII character other than the space, so that
    the text the lookup strips is the text the row stores. *)
Theorem C3_amended ext pets_data search_city search_state max_distance w :
  Forall plainly_identified pets_data →
  unique_profile_urls (pets w) →
  unique_profile_urls
    (pets (save_pets_to_database ext pets_data search_city search_state max_distance w).2).
Proof.
  intros Hn Hu.
  destruct (save_pets_to_database_cases ext pets_data search_city search_state
              max_distance w) as (n & w' & -> & _ & Hcase).
  cbn [snd]. destruct Hcase as [-> | (_ & _ & ->)]; [done|].
  apply run_unique; [|done]. by apply Forall_plainly_identified_normalized.
Qed.

(** C3 (amended), on a batch that holds the same record twice. *)
Lemma C3_amended_witness :
  unique_profile_urls
    (pets (save_pets_to_database offline [seattle_record; seattle_record]
             (Some "Seattle") (Some "WA") (Some 50) w_init).2).
Proof.
  apply (C3_amended offline [seattle_record; seattle_record]
           (Some "Seattle") (Some "WA") (Some 50) w_init).
  - repeat constructor; exact seattle_record_plainly_identified.
  - exact unique_profile_urls_empty.
Defined.

(** C3 as stated fails on a batch whose identifier starts with a space:
    the lookup uses the stripped text, the row stores the raw text, so the
    second copy finds no row and is inserted again. *)
Lemma C3_counterexample :
  unique_profile_urls (pets w_init) ∧
  ¬ unique_profile_urls
      (pets (save_pets_to_database offline [spaced_record; spaced_record]
               None None None w_init).2).
Proof.
  split.
  - intros k1 k2 p1 p2 u H1. unfold w_init in H1. simpl in H1.
    by rewrite lookup_empty in H1.
  - intros Hu.
    pose proof (Hu 1%positive 2%positive
      (Objects.touch 0 (PetData.set_on spaced_record (Pet.new 0)))
      (Objects.touch 0 (PetData.set_on spaced_record (Pet.new 0)))
      " https://www.petfinder.com/dog/rex-1") as H.
    discriminate H; try reflexivity; try done.
Qed.

(** C2 (amended).  From a table with at most one row per non-empty
    profile identifier, applying twice a batch whose records have
    non-empty, trimmed profile identifiers, when the first application
    commits: the second application returns a saved count of 0 and
    creates no row (the primary keys are those left by the first
    application), and every identifier of the batch that the first
    application stored, which is every identifier when no max distance is
    given, is carried by exactly one row. *)
Theorem C2_amended ext pets_data search_city search_state max_distance w :
  unique_profile_urls (pets w) →
  Forall (λ pet_data, plainly_identified pet_data ∧
            ∃ u, PetData.profile_url pet_data = Some u ∧ u ≠ EmptyString) pets_data →
  commits ext pets_data search_city search_state max_distance w →
  let first := save_pets_to_database ext pets_data search_city search_state
                 max_distance w in
  let second := save_pets_to_database ext pets_data search_city search_state
                  max_distance first.2 in
  second.1 = Ok 0 ∧
  dom (pets second.2) = dom (pets first.2) ∧
  unique_profile_urls (pets second.2) ∧
  (∀ pet_data u, pet_data ∈ pets_data → PetData.profile_url pet_data = Some u →
     stored u (pets first.2) → exactly_one u (pets second.2)) ∧
  (max_distance = None →
   ∀ pet_data u, pet_data ∈ pets_data → PetData.profile_url pet_data = Some u →
     exactly_one u (pets second.2)).
Proof.
  intros Hu Hall' Hc first second. subst first second.
  assert (Hall : Forall (λ pet_data, normalized pet_data ∧
            ∃ u, PetData.profile_url pet_data = Some u ∧ u ≠ EmptyString) pets_data).
  { eapply Forall_impl; [exact Hall'|].
    intros ? [? ?]. split; [by apply plainly_identified_normalized|done]. }
  assert (Hn : Forall normalized pets_data).
  { eapply Forall_impl; [exact Hall|]. by intros ? [? ?]. }
  destruct (save_pets_to_database_commit ext pets_data search_city search_state
              max_distance w Hc) as [t1 ->].
  set (search := resolved_origin ext search_city search_state max_distance).
  set (r1 := run ext search max_distance (clock w) pets_data (mkCounters 0 0 0, pets w)).
  cbn [snd].
  destruct (save_pets_to_database_spec ext pets_data search_city search_state
              max_distance (mkWorld r1.2 (clock w) (trace w ++ t1))) as [t2 ->].
  unfold transaction. fold search. cbn [fst snd pets clock].
  set (T := run_atomic ext search max_distance (clock w) pets_data
              (mkCounters 0 0 0, r1.2, false)).
  assert (Hu1 : unique_profile_urls r1.2) by (by apply run_unique).
  assert (Hcov : ∀ pet_data u, pet_data ∈ pets_data →
            keeps (distance_verdict ext search.1 search.2 max_distance pet_data) →
            PetData.profile_url pet_data = Some u → stored u r1.2).
  { intros pet_data u Hin Hk Hpu. by eapply run_stores_kept. }
  assert (Hne : ∀ pet_data u, pet_data ∈ pets_data →
            PetData.profile_url pet_data = Some u → u ≠ EmptyString).
  { intros pet_data u Hin Hpu. rewrite Forall_forall in Hall.
    destruct (Hall pet_data Hin) as [_ (u' & Hu' & Hne)]. congruence. }
  assert (Hsaved : saved_count T.1.1 = 0).
  { destruct (run_atomic_prefix ext search max_distance (clock w) pets_data
                (mkCounters 0 0 0) r1.2) as (l1 & l2 & Hl & Hs).
    fold T in Hs. rewrite Hs.
    rewrite Hl in Hall. apply Forall_app in Hall as [Hall1 _].
    apply (run_again ext search max_distance (clock w) l1 (mkCounters 0 0 0) r1.2 Hall1).
    intros pet_data u Hin. apply Hcov. rewrite Hl. apply elem_of_app. by left. }
  assert (Htable : (if T.2 then r1.2 else T.1.2) = r1.2 ∨
            (if T.2 then r1.2 else T.1.2)
              = (run ext search max_distance (clock w) pets_data
                   (mkCounters 0 0 0, r1.2)).2).
  { destruct T.2 eqn:Eb; [by left|right].
    unfold T in *. by rewrite (run_atomic_commit _ _ _ _ _ _ _ Eb). }
  set (r2 := run ext search max_distance (clock w) pets_data (mkCounters 0 0 0, r1.2))
    in Htable.
  assert (Hu2 : unique_profile_urls r2.2) by (by apply run_unique).
  destruct (run_again ext search max_distance (clock w) pets_data (mkCounters 0 0 0) r1.2
              Hall Hcov) as [_ Hd].
  fold r2 in Hd.
  assert (Hone : ∀ pet_data u, pet_data ∈ pets_data →
            PetData.profile_url pet_data = Some u → stored u r1.2 →
            exactly_one u r1.2 ∧ exactly_one u r2.2).
  { intros pet_data u Hin Hpu Hst. split.
    - apply stored_unique_exactly_one; [by eapply Hne|done|done].
    - apply stored_unique_exactly_one; [by eapply Hne|by apply run_stored_mono|done]. }
  assert (Hnone : max_distance = None → ∀ pet_data u, pet_data ∈ pets_data →
            PetData.profile_url pet_data = Some u → stored u r1.2).
  { intros -> pet_data u Hin Hpu. apply (Hcov pet_data u Hin); [|done].
    unfold distance_verdict. replace (given_int None) with false by reflexivity.
    rewrite andb_false_r. done. }
  rewrite Hsaved.
  destruct Htable as [-> | ->]; (split; [done|]); (split; [done|]);
    (split; [done|]); split.
  - intros pet_data u Hin Hpu Hst. by apply (Hone pet_data u).
  - intros HM pet_data u Hin Hpu. apply (Hone pet_data u); [done|done|].
    by apply (Hnone HM pet_data).
  - intros pet_data u Hin Hpu Hst. by apply (Hone pet_data u).
  - intros HM pet_data u Hin Hpu. apply (Hone pet_data u); [done|done|].
    by apply (Hnone HM pet_data).
Qed.

(** C2 (amended), on a one-record batch and the empty table. *)
Lemma C2_amended_witness :
  let first := save_pets_to_database offline [seattle_record] None None None w_init in
  let second := save_pets_to_database offline [seattle_record] None None None first.2 in
  second.1 = Ok 0 ∧
  dom (pets second.2) = dom (pets first.2) ∧
  unique_profile_urls (pets second.2) ∧
  (∀ pet_data u, pet_data ∈ [seattle_record] →
     PetData.profile_url pet_data = Some u →
     stored u (pets first.2) → exactly_one u (pets second.2)) ∧
  (@None Z = None →
   ∀ pet_data u, pet_data ∈ [seattle_record] →
     PetData.profile_url pet_data = Some u → exactly_one u (pets second.2)).
Proof.
  apply (C2_amended offline [seattle_record] None None None w_init).
  - exact unique_profile_urls_empty.
  - repeat constructor; [exact seattle_record_plainly_identified|].
    exists "https://www.petfinder.com/dog/bo-2". split; [reflexivity|discriminate].
  - reflexivity.
Defined.

(** C2 as stated fails on a table that already holds several rows with
    the identifier of the batch: both applications update the most recent
    of them, the second returns 0, and the rows that shared the
    identifier before still share it after the second application. *)
Lemma C2_counterexample :
  let u := "https://www.petfinder.com/dog/rex-1" in
  let batch := [record_at "Rex" u PyNone PyNone] in
  let first := save_pets_to_database offline batch None None None three_copies in
  let second := save_pets_to_database offline batch None None None first.2 in
  second.1 = Ok 0 ∧
  size (pets second.2) = 3%nat ∧
  (∀ pk pet, pets second.2 !! pk = Some pet → Pet.profile_url pet = Some u) ∧
  ¬ exactly_one u (pets second.2).
Proof.
  cbv zeta. split; [vm_compute; reflexivity|]. split; [vm_compute; reflexivity|].
  split.
  - intros pk pet Hl. apply elem_of_map_to_list in Hl.
    let l := eval vm_compute in
      (map_to_list (pets (save_pets_to_database offline
         [record_at "Rex" "https://www.petfinder.com/dog/rex-1" PyNone PyNone]
         None None None
         (save_pets_to_database offline
            [record_at "Rex" "https://www.petfinder.com/dog/rex-1" PyNone PyNone]
            None None None three_copies).2).2)) in
    match type of Hl with _ ∈ ?m => change m with l in Hl end.
    repeat (apply elem_of_cons in Hl as [Hl|Hl]; [by injection Hl as -> ->|]).
    by apply elem_of_nil in Hl.
  - intros (pk & pet & _ & _ & Hone).
    assert (H1 : 1%positive = pk).
    { eapply Hone; vm_compute; reflexivity. }
    assert (H2 : 2%positive = pk).
    { eapply Hone; vm_compute; reflexivity. }
    congruence.
Qed.

(** ** The records the scraper builds are normalized *)

Lemma rstrip_idemp s : rstrip (rstrip s) = rstrip s.
Proof.
  induction s as [|a s IH]; [done|]. simpl.
  destruct (rstrip s) as [|b r] eqn:E.
  - destruct (is_space a) eqn:Ea; simpl; [done|]. by rewrite Ea.
  - change (rstrip (String a (String b r)))
      with (match rstrip (String b r) with
            | EmptyString => if is_space a then EmptyString else String a EmptyString
            | r' => String a r'
            end).
    by rewrite IH.
Qed.

Lemma lstrip_head s :
  lstrip s = EmptyString ∨ ∃ a r, lstrip s = String a r ∧ is_space a = false.
Proof.
  induction s as [|a s IH]; [by left|]. simpl.
  destruct (is_space a) eqn:Ea; [done|]. right. by exists a, s.
Qed.

Lemma lstrip_rstrip a r :
  is_space a = false → lstrip (rstrip (String a r)) = rstrip (String a r).
Proof.
  intros Ea. simpl. destruct (rstrip r); rewrite ?Ea; simpl; by rewrite Ea.
Qed.

Lemma strip_idemp s : strip (strip s) = strip s.
Proof.
  unfold strip. destruct (lstrip_head s) as [->|(a & r & -> & Ea)]; [done|].
  by rewrite lstrip_rstrip, rstrip_idemp.
Qed.

Ltac bind_ok H :=
  repeat match type of H with
         | (?r ≫= _) = Ok _ =>
             let E := fresh "E" in
             destruct r eqn:E; [cbn [mbind result_bind] in H | discriminate H]
         end.

(** [extract_pet_data] strips the profile identifier, and stripping twice
    is stripping once. *)
Lemma extract_pet_data_normalized ext now pet_data d :
  extract_pet_data ext now pet_data = Ok d → normalized d.
Proof.
  unfold extract_pet_data. intros H. bind_ok H.
  match type of H with
  | context [let '(_, _) := ?p in _] => destruct p as [address_keys geo_keys]
  end.
  bind_ok H. injection H as <-. intros u [= <-].
  match goal with
  | E : (if ?b then _ else Ok EmptyString) = Ok ?p |- strip ?p = ?p =>
      destruct b; [|by injection E as <-]; bind_ok E
  end.
  match goal with
  | E : str_strip ?v = Ok _ |- _ =>
      destruct v; try discriminate E; injection E as <-
  end.
  apply strip_idemp.
Qed.

Lemma scraped_batch_normalized ext now items :
  Forall normalized (extract_until_raise ext now items).1.
Proof.
  induction items as [|x items IH]; simpl; [constructor|].
  destruct (extract_pet_data ext now x) as [d|e] eqn:E; [|constructor].
  destruct (extract_until_raise ext now items) as [records raised]. simpl in *.
  constructor; [|done]. by eapply extract_pet_data_normalized.
Qed.

Lemma page_yield_normalized ext city state animal distance first_page_data page_num now :
  Forall normalized
    (page_yield ext city state animal distance first_page_data page_num now).1.
Proof.
  unfold page_yield.
  destruct (page_data_of _ _ _ _ _ _ _) as [page_data|e]; simpl; [|constructor].
  destruct (page_items page_data) as [items|e]; [|constructor].
  apply scraped_batch_normalized.
Qed.

(** So the batch [scrape_pets] hands to [save_pets_to_database] is normalized. *)
Lemma scraped_normalized ext city state animal distance first_page_data page_nums start :
  Forall normalized start.1 →
  Forall normalized
    (scraped ext city state animal distance first_page_data page_nums start).1.
Proof.
  revert start. induction page_nums as [|p page_nums IH]; intros start Hs; [done|].
  unfold scraped in *. simpl. apply IH.
  pose proof (page_yield_normalized ext city state animal distance first_page_data
                p start.2) as Hp.
  destruct (page_yield _ _ _ _ _ _ _ _) as [records now]. simpl in *.
  apply Forall_app. by split.
Qed.

(** ** Distance filtering *)

Lemma keeps_reaches_write v : keeps v → reaches_write v = true.
Proof. by destruct v as [[| |]|]. Qed.

Lemma set_on_carries pet_data now base :
  carries pet_data (Objects.touch now (PetData.set_on pet_data base)).
Proof. unfold carries. repeat split; intros v Hv; cbn; by rewrite Hv. Qed.

Lemma upsert_written now pet_data db :
  ∃ pk row,
    (upsert now pet_data db).1 = <[pk := row]> db ∧
    carries pet_data row ∧
    Pet.updated_at row = now ∧
    ((db !! pk = None ∧ Pet.created_at row = now ∧
      (upsert now pet_data db).2 = true) ∨
     (∃ old, db !! pk = Some old ∧ Pet.created_at row = Pet.created_at old ∧
        (upsert now pet_data db).2 = false)).
Proof.
  destruct (upsert_cases now pet_data db) as
    [(pk & pet & _ & Hpk & _ & ->) | [_ ->]]; cbn [fst snd].
  - exists pk, (Objects.touch now (PetData.set_on pet_data pet)).
    split; [done|]. split; [apply set_on_carries|]. split; [done|].
    right. by exists pet.
  - exists (fresh (dom db)), (Objects.touch now (PetData.set_on pet_data (Pet.new now))).
    split; [done|]. split; [apply set_on_carries|]. split; [done|].
    left. split; [apply fresh_key_None|done].
Qed.










(** What a call does to the last record of its batch, by the verdict of
    the distance check and the fate of the transaction. *)
Lemma save_last_record ext before pet_data search_city search_state max_distance w :
  let search := resolved_origin ext search_city search_state max_distance in
  let v := distance_verdict ext search.1 search.2 max_distance pet_data in
  let r0 := save_pets_to_database ext before search_city search_state max_distance w in
  let r := save_pets_to_database ext (before ++ [pet_data]) search_city search_state
             max_distance w in
  ∃ c,
    reports r0 c ∧
    (commits ext (before ++ [pet_data]) search_city search_state max_distance w →
     (keeps v → retained pet_data (clock w) c (pets r0.2) r) ∧
     (∀ d, v = Some (Filtered d) → filtered_out c (pets r0.2) r) ∧
     (∀ e, v = Some (Failed e) → passed_over c (pets r0.2) r)) ∧
    (keeps v →
     ¬ commits ext (before ++ [pet_data]) search_city search_state max_distance w →
     refused pet_data c (pets w) r).
Proof.
  intros search v r0 r. subst r0 r.
  destruct (save_pets_to_database_report ext before search_city search_state
              max_distance w) as [t0 ->].
  destruct (save_pets_to_database_snoc ext before pet_data search_city search_state
              max_distance w) as (t1 & -> & Hfail).
  fold search in Hfail. fold v in Hfail.
  unfold commits.
  assert (HT : transaction ext (before ++ [pet_data]) search_city search_state
                 max_distance w
               = after_atomic ext v (clock w) pet_data
                   (transaction ext before search_city search_state max_distance w)).
  { unfold transaction. apply run_atomic_snoc. }
  rewrite !HT. clear HT.
  destruct (transaction ext before search_city search_state max_distance w)
    as [[c db0] b0].
  cbn [fst snd] in *. exists c. split.
  { split; [done|]. cbn [snd trace]. rewrite !app_assoc. apply last_snoc. }
  unfold after_atomic. cbn [fst snd].
  destruct (reaches_write v && (b0 || negb (accepts ext _))) eqn:Eb.
  - cbn [fst snd]. split; [done|]. intros _ _.
    destruct (Hfail eq_refl) as (t' & e & ->).
    split; [done|]. split; [done|]. cbn [snd trace].
    exists (trace w ++ t'), e. by rewrite <- !app_assoc.
  - cbn [fst snd]. split.
    + intros ->. split.
      * intros Hk.
        assert (Hafter : after v (clock w) pet_data c db0 =
                  (let '(db', created) := upsert (clock w) pet_data db0 in
                   (if created : bool
                    then mkCounters (saved_count c + 1) (updated_count c)
                           (filtered_count c)
                    else mkCounters (saved_count c) (updated_count c + 1)
                           (filtered_count c), db'))).
        { by destruct v as [[| |]|]. }
        rewrite Hafter.
        destruct (upsert_written (clock w) pet_data db0)
          as (pk & row & Htable & Hcarries & Hupdated & Hcase).
        destruct (upsert (clock w) pet_data db0) as [db' created].
        cbn [fst snd] in *. subst db'.
        exists pk, row. split; [done|]. split; [done|]. split; [done|].
        destruct Hcase as [(Hnew & Hcreated & ->)|(old & Hold & Hcreated & ->)].
        -- left. split; [done|]. split; [done|]. split; [done|].
           cbn [snd trace]. rewrite !app_assoc. apply last_snoc.
        -- right. exists old. split; [done|]. split; [done|]. split; [done|].
           cbn [snd trace]. rewrite !app_assoc. apply last_snoc.
      * split.
        -- intros d ->. cbn [after fst snd]. split; [done|]. split; [done|].
           cbn [snd trace]. rewrite !app_assoc. apply last_snoc.
        -- intros e ->. cbn [after fst snd]. split; [done|]. split; [done|].
           cbn [snd trace]. rewrite !app_assoc. apply last_snoc.
    + intros Hk Hnc. exfalso. apply Hnc.
      rewrite (keeps_reaches_write v Hk) in Eb. cbn [andb] in Eb.
      by apply orb_false_elim in Eb as [-> _].
Qed.






(** X22.  With no distance bound, when the database refuses every row
    that carries the values of the last record of a batch, the call
    leaves the table as it found it, whatever the records before did:
    the failure of the write is logged, the transaction is rolled back,
    and the count returned is the one of the batch without that record,
    even though none of its rows is left. *)
Theorem refused_write_rolls_back ext before pet_data search_city search_state w :
  (∀ now base,
     db_write ext (Objects.touch now (PetData.set_on pet_data base)) ≠ Stored) →
  let r0 := save_pets_to_database ext before search_city search_state None w in
  let r := save_pets_to_database ext (before ++ [pet_data]) search_city search_state
             None w in
  ∃ c, reports r0 c ∧ refused pet_data c (pets w) r.
Proof.
  intros Hrefuse r0 r.
  destruct (save_last_record ext before pet_data search_city search_state None w)
    as (c & Hr0 & _ & Hrefused).
  exists c. split; [done|]. apply Hrefused.
  - unfold distance_verdict. replace (given_int None) with false by reflexivity.
    by rewrite andb_false_r.
  - unfold commits, transaction. rewrite run_atomic_snoc.
    unfold after_atomic, distance_verdict.
    replace (given_int None) with false by reflexivity.
    rewrite andb_false_r. cbn [reaches_write andb].
    assert (Ha : ∀ db, accepts ext (upsert_target (clock w) pet_data db).1.2 = false).
    { intros db. unfold upsert_target, accepts.
      destruct (if truthy _ then _ else _) as [[pk pet]|]; cbn [fst snd];
        match goal with
        | |- context [db_write ext ?row] =>
            pose proof (Hrefuse (clock w) _ : db_write ext row ≠ Stored) as Hr;
            by destruct (db_write ext row)
        end. }
    rewrite Ha, orb_true_r. cbn [snd]. discriminate.
Qed.

(** X22, for a record whose [is_mixed_breed] is [None] after a record
    that is inserted: the call returns 1 and the table is empty. *)
Lemma refused_write_rolls_back_witness :
  let r0 := save_pets_to_database offline [seattle_record] None None None w_init in
  let r := save_pets_to_database offline ([seattle_record] ++ [null_record])
             None None None w_init in
  ∃ c, reports r0 c ∧ refused null_record c (pets w_init) r.
Proof.
  apply (refused_write_rolls_back offline [seattle_record] null_record None None
           w_init).
  intros now base. discriminate.
Defined.

(** ** The query builder *)

Lemma build_search_url_int city state animal page limit d w :
  build_search_url city state animal page limit (PyInt d) w =
  (Ok (query_url city state animal page limit (Z.max 1 (Z.min 500 d))),
   mkWorld (pets w) (clock w)
     (trace w ++ [Log INFO (BuiltSearchUrl (Z.max 1 (Z.min 500 d)) city state)])).
Proof.
  unfold build_search_url, query_url, mbind, M_bind, bind, lift, log, emit,
    mret, M_ret, ret. simpl.
  replace (if d <? 1 then 1 else if 500 <? d then 500 else d)
    with (Z.max 1 (Z.min 500 d)).
  2:{ destruct (Z.ltb_spec d 1), (Z.ltb_spec 500 d); lia. }
  reflexivity.
Qed.

Lemma build_search_url_page city state animal distance page_num w :
  build_search_url city state animal page_num 100 (from_option PyInt PyNone distance) w =
  (Ok (page_url city state animal distance page_num),
   mkWorld (pets w) (clock w)
     (trace w ++ [Log INFO (BuiltSearchUrl (Z.max 1 (Z.min 500 (default 100 distance)))
                              city state)])).
Proof.
  destruct distance as [d|]; simpl.
  - apply build_search_url_int.
  - change (build_search_url city state animal page_num 100 PyNone w)
      with (build_search_url city state animal page_num 100 (PyInt 100) w).
    apply build_search_url_int.
Qed.

(** C5 (amended).  [build_search_url] clamps an integer distance into
    [1, 500] and the URL carries the clamped value: 0 and -5 give 1, 1000
    gives 500, an absent distance ([None]) gives 100.  An invalid
    distance is not replaced by 100, no URL is built and nothing is
    logged: an ASCII text that is not a decimal numeral (an optional
    sign and digits, with single underscores between digits and
    whitespace around) raises [ValueError]; a list or a dict raises
    [TypeError]. *)
Theorem C5_amended :
  (∀ city state animal page limit d w,
     (build_search_url city state animal page limit (PyInt d) w).1 =
       Ok (query_url city state animal page limit (Z.max 1 (Z.min 500 d))) ∧
     1 ≤ Z.max 1 (Z.min 500 d) ≤ 500) ∧
  (∀ city state animal page limit w,
     (build_search_url city state animal page limit (PyInt 0) w).1 =
       Ok (query_url city state animal page limit 1) ∧
     (build_search_url city state animal page limit (PyInt (-5)) w).1 =
       Ok (query_url city state animal page limit 1) ∧
     (build_search_url city state animal page limit (PyInt 1000) w).1 =
       Ok (query_url city state animal page limit 500) ∧
     (build_search_url city state animal page limit PyNone w).1 =
       Ok (query_url city state animal page limit 100)) ∧
  (∀ city state animal page limit s w,
     is_ascii s = true → int_of_str s = None →
     build_search_url city state animal page limit (PyStr s) w = (Raise ValueError, w)) ∧
  (∀ city state animal page limit l w,
     build_search_url city state animal page limit (PyList l) w = (Raise TypeError, w)) ∧
  (∀ city state animal page limit d w,
     build_search_url city state animal page limit (PyDict d) w = (Raise TypeError, w)).
Proof.
  split; [|split; [|split; [|split]]].
  - intros. rewrite build_search_url_int. split; [reflexivity|lia].
  - intros. rewrite !build_search_url_int.
    change (build_search_url city state animal page limit PyNone w)
      with (build_search_url city state animal page limit (PyInt 100) w).
    rewrite build_search_url_int. done.
  - intros city state animal page limit s w _ Hs.
    unfold build_search_url, mbind, M_bind, bind, lift. simpl. by rewrite Hs.
  - reflexivity.
  - reflexivity.
Qed.

(** C5 as stated fails for the invalid distance ['abc']: no URL with
    distance 100 is built, the call raises [ValueError]. *)
Lemma C5_counterexample :
  (build_search_url "Seattle" "WA" "dog" 1 100 (PyStr "abc") w_init).1
    = Raise ValueError ∧
  (build_search_url "Seattle" "WA" "dog" 1 100 (PyStr "abc") w_init).1
    ≠ Ok (query_url "Seattle" "WA" "dog" 1 100 100).
Proof. split; [reflexivity | discriminate]. Qed.

Example search_url_1000 :
  (build_search_url "Seattle" "WA" "dog" 1 100 (PyInt 1000) w_init).1 =
  Ok "https://www.petfinder.com/search/?page=1&limit[]=100&status=adoptable&distance[]=500&type[]=dog&sort[]=nearest&location_slug[]=us%2FWA%2FSeattle&include_transportable=true".
Proof. reflexivity. Qed.

(** ** The page fetcher *)

(** [fetch_page_data] logs, requests, and returns or raises [fetch_result]. *)
Lemma fetch_page_data_spec ext url w :
  ∃ evs, fetch_page_data ext url w =
    (fetch_result ext url,
     mkWorld (pets w) (clock w)
       (trace w ++ Log INFO (FetchingDataFrom url) :: Get url :: evs)).
Proof.
  unfold fetch_page_data, fetch_result, try_except, mbind, M_bind, bind, log,
    emit, raise, raise_for_status, response_json, lift, mret, M_ret, ret. simpl.
  rewrite <- !app_assoc. simpl.
  destruct (session_get ext url) as [f|status json]; simpl.
  { eexists. rewrite <- app_assoc. simpl. reflexivity. }
  destruct ((400 <=? status) && (status <? 600)); simpl.
  { eexists. rewrite <- app_assoc. simpl. reflexivity. }
  destruct json as [data|]; simpl.
  2:{ eexists. rewrite <- app_assoc. simpl. reflexivity. }
  destruct (contained_in "result" data) as [[|]|e] eqn:E; simpl.
  - by exists [].
  - by exists [].
  - destruct data; simpl in E; try discriminate; injection E as <-; by exists [].
Qed.

Lemma fetch_page_data_result ext url w :
  (fetch_page_data ext url w).1 = fetch_result ext url.
Proof. by destruct (fetch_page_data_spec ext url w) as [evs ->]. Qed.

Lemma fetch_page_data_hides_transport ext url w f :
  (fetch_page_data ext url w).1 ≠ Raise (RequestException f).
Proof.
  rewrite fetch_page_data_result. unfold fetch_result.
  destruct (session_get ext url) as [f'|status json]; [done|].
  destruct ((400 <=? status) && (status <? 600)); [done|].
  destruct json as [data|]; [|done].
  destruct (contained_in "result" data) as [[|]|e] eqn:E; try done.
  destruct data; simpl in E; try discriminate; by injection E as <-.
Qed.

(** C6, at a response with status 200 and the JSON body [null]: the
    membership test on the parsed body raises [TypeError], which neither
    [except] clause catches, so no [PetFinderAPIError] is raised. *)
Theorem C6_null_body_escapes url w :
  (fetch_page_data null_body url w).1 = Raise TypeError ∧
  ∀ cause, (fetch_page_data null_body url w).1 ≠ Raise (PetFinderAPIError cause).
Proof. rewrite fetch_page_data_result. split; [reflexivity|discriminate]. Qed.

(** ** Pagination *)

(** C8, for a scrape of two pages: the requests and pauses are the
    request of page 1, the request of page 2 and then the pause of 2; no
    pause comes before the request of page 2. *)
Lemma C8_delay_follows_fetch :
  network_events (trace (scrape_pets two_pages "Seattle" "WA" "dog" 2 (Some 100) w_init).2) =
  [Get (page_url "Seattle" "WA" "dog" (Some 100) 1);
   Get (page_url "Seattle" "WA" "dog" (Some 100) 2);
   Sleep 2].
Proof. vm_compute. reflexivity. Qed.

(** C7 as stated fails when the page that fails is the first one: the
    scrape raises, page 2 is never requested and [save_pets_to_database]
    is not run. *)
Lemma C7_counterexample :
  let run := scrape_pets first_page_down "Seattle" "WA" "dog" 2 (Some 100) w_init in
  run.1 = Raise (PetFinderAPIError (ScrapingFailed
            (PetFinderAPIError (FailedToFetch Timeout)))) ∧
  ¬ page_attempted "Seattle" "WA" "dog" (Some 100) 2 run.2 ∧
  ¬ batch_handed_over run.2.
Proof.
  cbv zeta. split; [vm_compute; reflexivity|].
  unfold page_attempted, batch_handed_over.
  let t := eval vm_compute in
    (trace (scrape_pets first_page_down "Seattle" "WA" "dog" 2 (Some 100) w_init).2) in
  assert (Ht : trace (scrape_pets first_page_down "Seattle" "WA" "dog" 2 (Some 100) w_init).2 = t)
    by (vm_compute; reflexivity).
  rewrite Ht.
  split.
  - intros H. repeat (apply elem_of_cons in H as [H|H]; [discriminate H|]).
    by apply elem_of_nil in H.
  - intros (s & u & f & H).
    repeat (apply elem_of_cons in H as [H|H]; [discriminate H|]).
    by apply elem_of_nil in H.
Qed.

Lemma extraction_loop ext items acc w :
  for_each_until_raise items
    (λ animal_data acc,
       now ← timezone_now;
       pet_data ← lift (extract_pet_data ext now animal_data);
       mret (acc ++ [pet_data])) acc w =
  (Ok (acc ++ (extract_until_raise ext (clock w) items).1,
       (extract_until_raise ext (clock w) items).2), w).
Proof.
  revert acc. induction items as [|x items IH]; intros acc; simpl.
  - by rewrite app_nil_r.
  - unfold mbind, M_bind, bind, timezone_now, lift, mret, M_ret, ret. simpl.
    destruct (extract_pet_data ext (clock w) x) as [d|e]; simpl.
    + unfold mbind, M_bind, bind, timezone_now, lift, mret, M_ret, ret in IH.
      rewrite IH. destruct (extract_until_raise ext (clock w) items); simpl.
      by rewrite <- app_assoc.
    + by rewrite app_nil_r.
Qed.

Ltac page_records ext acc :=
  match goal with
  | |- context [get ?d "result" ?x] =>
      destruct (get d "result" x) as [?r|?e]; simpl
  end;
  [ match goal with
    | |- context [get ?r "animals" ?x] =>
        destruct (get r "animals" x) as [?animals|?e]; simpl
    end;
    [ match goal with
      | |- context [iterate ?animals] =>
          destruct (iterate animals) as [?items|?e]; simpl;
          [ match goal with
            | |- context [for_each_until_raise ?items _ acc ?w1] =>
                let Heq := fresh "Heq" in
                pose proof (extraction_loop ext items acc w1) as Heq;
                unfold mbind, M_bind, bind, lift, timezone_now, mret, M_ret, ret
                  in Heq;
                rewrite Heq; simpl;
                destruct (extract_until_raise ext _ items) as [?records [?e|]];
                [|destruct (len animals) as [?n|?e]]; simpl
            end
          | ]
      end
    | ]
  | ].

Ltac page_done :=
  eexists _, _; split; [rewrite ?app_nil_r; reflexivity|];
  split; [done|]; split; [done|];
  split; [simpl; rewrite <- ?app_assoc; reflexivity|].

(** One page: [scrape_page] never raises; it appends [page_yield]. *)
Lemma scrape_page_spec ext city state animal distance first_page_data page_num acc w :
  ∃ w' evs,
    scrape_page ext city state animal distance first_page_data page_num acc w
      = (Ok (acc ++ (page_yield ext city state animal distance first_page_data
                       page_num (clock w)).1), w') ∧
    clock w' = (page_yield ext city state animal distance first_page_data
                  page_num (clock w)).2 ∧
    pets w' = pets w ∧
    trace w' = trace w ++ evs ∧
    (page_num ≠ 1 → Get (page_url city state animal distance page_num) ∈ evs) ∧
    (∀ e, page_data_of ext city state animal distance first_page_data page_num
            = Raise e →
          Log ERROR (FailedToScrapePage page_num e) ∈ evs).
Proof.
  unfold scrape_page, attempt, page_yield, page_data_of, page_items.
  unfold mbind, M_bind, bind.
  destruct (page_num =? 1) eqn:Hp.
  - apply Z.eqb_eq in Hp.
    unfold lift, log, emit, time_sleep, mret, M_ret, ret.
    page_records ext acc; page_done; (split; [done|intros; done]).
  - apply Z.eqb_neq in Hp.
    rewrite build_search_url_page.
    match goal with
    | |- context [fetch_page_data ?e ?u ?w0] =>
        destruct (fetch_page_data_spec e u w0) as [evs Hf]; rewrite Hf
    end.
    unfold lift, log, emit, time_sleep, mret, M_ret, ret.
    destruct (fetch_result ext (page_url city state animal distance page_num))
      as [page_data|e0] eqn:Hfr; simpl.
    + page_records ext acc; page_done;
        (split; [intros _; set_solver | intros; done]).
    + page_done. split; [intros _; set_solver|].
      intros e [= <-]. set_solver.
Qed.

(** The loop over the pages appends [scraped]. *)
Lemma pages_loop ext city state animal distance first_page_data page_nums acc w :
  ∃ w' evs,
    for_each page_nums
      (scrape_page ext city state animal distance first_page_data) acc w =
      (Ok (scraped ext city state animal distance first_page_data page_nums
             (acc, clock w)).1, w') ∧
    clock w' = (scraped ext city state animal distance first_page_data page_nums
                  (acc, clock w)).2 ∧
    pets w' = pets w ∧
    trace w' = trace w ++ evs ∧
    (∀ page_num, page_num ∈ page_nums → page_num ≠ 1 →
       Get (page_url city state animal distance page_num) ∈ evs) ∧
    (∀ page_num e, page_num ∈ page_nums →
       page_data_of ext city state animal distance first_page_data page_num
         = Raise e →
       Log ERROR (FailedToScrapePage page_num e) ∈ evs).
Proof.
  revert acc w. induction page_nums as [|p page_nums IH]; intros acc w.
  - exists w, []. simpl. rewrite app_nil_r.
    split; [done|]. split; [done|]. split; [done|]. split; [done|].
    split; [intros q H|intros q e H]; by apply elem_of_nil in H.
  - simpl. unfold bind.
    destruct (scrape_page_spec ext city state animal distance first_page_data p acc w)
      as (w1 & evs1 & -> & Hc1 & Hp1 & Ht1 & Hg1 & Hl1).
    destruct (IH (acc ++ (page_yield ext city state animal distance first_page_data
                            p (clock w)).1) w1)
      as (w2 & evs2 & -> & Hc2 & Hp2 & Ht2 & Hg2 & Hl2).
    exists w2, (evs1 ++ evs2). unfold scraped in *. simpl.
    rewrite Hc1 in Hc2.
    destruct (page_yield ext city state animal distance first_page_data p (clock w))
      as [records now] eqn:Hy. simpl in *.
    split; [rewrite Hc1; reflexivity|].
    split; [done|]. split; [congruence|].
    split; [rewrite Ht2, Ht1, app_assoc; reflexivity|].
    split.
    + intros q [->|Hq]%elem_of_cons Hne; apply elem_of_app; auto.
    + intros q e [->|Hq]%elem_of_cons He; apply elem_of_app; eauto.
Qed.

Lemma page_yield_failure ext city state animal distance first_page_data page_num now e :
  page_data_of ext city state animal distance first_page_data page_num = Raise e →
  page_yield ext city state animal distance first_page_data page_num now = ([], now).
Proof. unfold page_yield. by intros ->. Qed.

(** C7 (amended).  When the first page is fetched and its pagination is
    read, [scrape_pets] requests every page in range; a page whose fetch
    fails is logged and adds nothing to the batch, the other pages add
    their records, and the batch so accumulated is what
    [save_pets_to_database] is run on; the scrape returns the total page
    count and the saved count. *)
Theorem C7_amended ext city state animal max_pages distance w
    first_page_data pagination total_pages pages_to_scrape page_nums :
  fetch_result ext (page_url city state animal distance 1) = Ok first_page_data →
  (r ← get first_page_data "result" (PyDict []);
   get r "pagination" (PyDict [])) = Ok pagination →
  get pagination "total_pages" (PyInt 1) = Ok total_pages →
  min_with max_pages total_pages = Ok pages_to_scrape →
  range_1_to pages_to_scrape = Ok page_nums →
  let batch := (scraped ext city state animal distance first_page_data page_nums
                  ([], clock w)).1 in
  ∃ w1 evs pets_saved,
    pets w1 = pets w ∧
    trace w1 = trace w ++ evs ∧
    (∀ page_num, page_num ∈ page_nums →
       Get (page_url city state animal distance page_num) ∈ evs) ∧
    (∀ page_num e now, page_num ∈ page_nums →
       page_data_of ext city state animal distance first_page_data page_num
         = Raise e →
       Log ERROR (FailedToScrapePage page_num e) ∈ evs ∧
       page_yield ext city state animal distance first_page_data page_num now
         = ([], now)) ∧
    let saved :=
      save_pets_to_database ext batch (Some city) (Some state) distance w1 in
    saved.1 = Ok pets_saved ∧
    scrape_pets ext city state animal max_pages distance w =
      (Ok (total_pages, pets_saved),
       mkWorld (pets saved.2) (clock saved.2)
         (trace saved.2 ++ [Log INFO (SuccessfullySaved pets_saved pages_to_scrape)])).
Proof.
  intros Hfirst Hpag Htot Hmin Hrange batch.
  unfold scrape_pets, try_except.
  unfold mbind at 1 2, M_bind at 1 2, bind at 1 2.
  rewrite build_search_url_page.
  match goal with
  | |- context [fetch_page_data ?e ?u ?w0] =>
      destruct (fetch_page_data_spec e u w0) as [evs0 Hf]
  end.
  unfold mbind, M_bind, bind. rewrite Hf, Hfirst. cbn [pets clock trace].
  unfold mbind, result_bind in Hpag.
  unfold lift at 1. unfold mbind, result_bind. rewrite Hpag.
  unfold lift at 1. rewrite Htot.
  unfold log at 1, emit at 1.
  unfold lift at 1. rewrite Hmin.
  unfold lift at 1. rewrite Hrange. cbn [pets clock trace].
  match goal with
  | |- context [for_each page_nums ?body [] ?w0] =>
      destruct (pages_loop ext city state animal distance first_page_data
                  page_nums [] w0)
        as (w1 & evs1 & Hloop & Hc1 & Hp1 & Ht1 & Hg1 & Hl1);
      rewrite Hloop
  end.
  cbn [pets clock trace] in *. fold batch.
  destruct (save_pets_to_database_spec ext batch (Some city) (Some state) distance w1)
    as [t Hsave].
  rewrite Hsave. cbn [fst snd pets clock trace].
  eexists w1, _, _.
  split; [done|]. split; [rewrite Ht1, <- !app_assoc; reflexivity|].
  split.
  { intros p Hp. destruct (decide (p = 1)) as [->|Hne].
    - set_solver.
    - specialize (Hg1 p Hp Hne). set_solver. }
  split.
  { intros p e now Hp He. split.
    - specialize (Hl1 p e Hp He). set_solver.
    - by eapply page_yield_failure. }
  cbv zeta. rewrite Hsave. split; reflexivity.
Qed.

(** C7 (amended), for three pages of which the second times out. *)
Lemma C7_amended_witness :
  let first_page_data := one_pet_page 3 "Rex" "https://www.petfinder.com/dog/rex-1" in
  let batch := (scraped second_page_down "Seattle" "WA" "dog" (Some 100)
                  first_page_data [1; 2; 3] ([], clock w_init)).1 in
  ∃ w1 evs pets_saved,
    pets w1 = pets w_init ∧
    trace w1 = trace w_init ++ evs ∧
    (∀ page_num, page_num ∈ [1; 2; 3] →
       Get (page_url "Seattle" "WA" "dog" (Some 100) page_num) ∈ evs) ∧
    (∀ page_num e now, page_num ∈ [1; 2; 3] →
       page_data_of second_page_down "Seattle" "WA" "dog" (Some 100)
         first_page_data page_num = Raise e →
       Log ERROR (FailedToScrapePage page_num e) ∈ evs ∧
       page_yield second_page_down "Seattle" "WA" "dog" (Some 100)
         first_page_data page_num now = ([], now)) ∧
    let saved :=
      save_pets_to_database second_page_down batch (Some "Seattle") (Some "WA")
        (Some 100) w1 in
    saved.1 = Ok pets_saved ∧
    scrape_pets second_page_down "Seattle" "WA" "dog" 3 (Some 100) w_init =
      (Ok (PyInt 3, pets_saved),
       mkWorld (pets saved.2) (clock saved.2)
         (trace saved.2 ++ [Log INFO (SuccessfullySaved pets_saved (PyInt 3))])).
Proof.
  apply (C7_amended second_page_down "Seattle" "WA" "dog" 3 (Some 100) w_init
           (one_pet_page 3 "Rex" "https://www.petfinder.com/dog/rex-1")
           (PyDict [("total_pages", PyInt 3)]) (PyInt 3) (PyInt 3) [1; 2; 3]);
    reflexivity.
Defined.

Lemma second_page_down_run :
  (scrape_pets second_page_down "Seattle" "WA" "dog" 3 (Some 100) w_init).1
    = Ok (PyInt 3, 1) ∧
  size (pets (scrape_pets second_page_down "Seattle" "WA" "dog" 3 (Some 100) w_init).2)
    = 1%nat.
Proof. split; vm_compute; reflexivity. Qed.

(** ** The duplicate sweep *)

Lemma delete_loop (rows : list (positive * Pet.t)) msg c w :
  for_each rows
    (λ '(pk, pet) removed_count,
       Objects.delete pk;;
       log INFO (msg pet);;
       mret (removed_count + 1)) c w =
  (Ok (c + Z.of_nat (length rows)),
   mkWorld (delete_rows rows (pets w)) (clock w)
     (trace w ++ ((λ kv, Log INFO (msg kv.2)) <$> rows))).
Proof.
  revert c w. induction rows as [|[pk pet] rows IH]; intros c w; simpl.
  - rewrite Z.add_0_r, app_nil_r. by destruct w.
  - unfold bind at 1.
    unfold Objects.delete, mbind, M_bind, bind, get_pets, put_pets, log, emit,
      mret, M_ret, ret. simpl.
    rewrite IH. simpl. rewrite <- app_assoc. simpl.
    f_equal. f_equal. lia.
Qed.

Lemma delete_all_but_first_spec rows msg c w :
  delete_all_but_first rows msg c w =
  (Ok (c + Z.of_nat (length (tail rows))),
   mkWorld (delete_rows (tail rows) (pets w)) (clock w)
     (trace w ++ ((λ kv, Log INFO (msg kv.2)) <$> tail rows))).
Proof. apply delete_loop. Qed.

Lemma lookup_delete_rows rows (db : gmap positive Pet.t) i :
  delete_rows rows db !! i = if decide (i ∈ rows.*1) then None else db !! i.
Proof.
  revert db. induction rows as [|[pk pet] rows IH]; intros db.
  - destruct (decide (i ∈ ([] : list (positive * Pet.t)).*1)) as [H|H]; [|done].
    by apply elem_of_nil in H.
  - change (delete_rows ((pk, pet) :: rows) db)
      with (delete_rows rows (delete pk db)).
    rewrite IH. rewrite fmap_cons. cbn [fst].
    destruct (decide (i ∈ rows.*1)) as [Hin|Hnin];
      destruct (decide (i ∈ pk :: rows.*1)) as [Hin'|Hnin']; try done.
    + exfalso. apply Hnin'. by apply elem_of_cons; right.
    + apply elem_of_cons in Hin' as [->|?]; [|done]. apply lookup_delete_eq.
    + apply lookup_delete_ne. intros ->. apply Hnin'. by apply elem_of_cons; left.
Qed.

#[global] Instance newer_total : Total Objects.newer.
Proof. intros a b. unfold Objects.newer. lia. Qed.

#[global] Instance newer_trans : Transitive Objects.newer.
Proof. intros a b c. unfold Objects.newer. lia. Qed.

Lemma filter_all {A} (P : A → Prop) `{∀ x, Decision (P x)} (l : list A) :
  Forall P l → filter P l = l.
Proof.
  induction 1 as [|x l Hx _ IH]; [done|].
  rewrite filter_cons_True by done. by rewrite IH.
Qed.

Lemma NoDup_all_equal {A} (l : list A) (a : A) :
  NoDup l → l ≠ [] → (∀ x, x ∈ l → x = a) → l = [a].
Proof.
  intros Hnd Hne Hall. destruct l as [|x [|y l]]; [done| |].
  - f_equal. apply Hall. by left.
  - exfalso. apply NoDup_cons in Hnd as [Hx _]. apply Hx.
    rewrite (Hall x), (Hall y); [by left | by right; left | by left].
Qed.

Lemma profile_duplicates_one_group u (db : gmap positive Pet.t) :
  u ≠ EmptyString → shares_profile_url u db → (1 < size db)%nat →
  profile_duplicates db = [u] ∧
  filter (λ kv : positive * Pet.t, Pet.profile_url kv.2 = Some u) (map_to_list db)
    = map_to_list db.
Proof.
  intros Hu Hall Hsize.
  assert (Hrows : Forall (λ kv : positive * Pet.t, Pet.profile_url kv.2 = Some u)
                    (map_to_list db)).
  { apply Forall_forall. intros [k p] Hin. apply elem_of_map_to_list in Hin.
    exact (Hall k p Hin). }
  assert (Hfilter := filter_all _ _ Hrows).
  split; [|exact Hfilter].
  unfold profile_duplicates.
  assert (Hgroups : remove_dups (omap (λ kv : positive * Pet.t, Pet.profile_url kv.2)
                                   (map_to_list db)) = [u]).
  { apply NoDup_all_equal.
    - apply NoDup_remove_dups.
    - rewrite <- length_map_to_list in Hsize.
      destruct (map_to_list db) as [|[k p] rows] eqn:E; [simpl in Hsize; lia|].
      apply Forall_cons in Hrows as [Hp _]. simpl in Hp.
      intros Hnil.
      assert (Hin : u ∈ remove_dups (omap (λ kv : positive * Pet.t, Pet.profile_url kv.2)
                                       ((k, p) :: rows))).
      { apply elem_of_remove_dups. apply list_elem_of_omap.
        exists (k, p). split; [by left | exact Hp]. }
      rewrite Hnil in Hin. by apply elem_of_nil in Hin.
    - intros x Hx. apply elem_of_remove_dups, list_elem_of_omap in Hx
        as (kv & Hin & Hkv).
      rewrite Forall_forall in Hrows. specialize (Hrows kv Hin). congruence. }
  rewrite Hgroups.
  rewrite filter_cons_True, filter_nil; [done|].
  split; [done|]. rewrite Hfilter, length_map_to_list. exact Hsize.
Qed.

Lemma name_breed_duplicates_singleton pk pet :
  name_breed_duplicates {[pk := pet]} = [].
Proof.
  unfold name_breed_duplicates. rewrite map_to_list_singleton. simpl.
  rewrite filter_cons_False, filter_nil; [done|].
  intros H. pose proof (length_filter
    (λ kv : positive * Pet.t, Pet.name kv.2 = Pet.name pet ∧
                              Pet.primary_breed kv.2 = Pet.primary_breed pet)
    [(pk, pet)]) as Hle.
  simpl in *. lia.
Qed.

Lemma profile_pass u w :
  u ≠ EmptyString → shares_profile_url u (pets w) → (1 < size (pets w))%nat →
  ∃ t,
    for_each (profile_duplicates (pets w))
      (λ duplicate removed_count,
         db ← get_pets;
         let pets := Objects.filter_profile_url duplicate db in
         delete_all_but_first pets
           (λ pet, RemovedDuplicateByProfileUrl (Pet.name pet)) removed_count)
      0 w =
    (Ok (Z.of_nat (length (tail (Objects.order_by_created_desc (map_to_list (pets w)))))),
     mkWorld (delete_rows (tail (Objects.order_by_created_desc (map_to_list (pets w))))
                (pets w))
             (clock w) (trace w ++ t)).
Proof.
  intros Hu Hall Hsize.
  destruct (profile_duplicates_one_group u (pets w) Hu Hall Hsize) as [-> Hfilter].
  simpl. unfold bind at 1.
  unfold mbind, M_bind, bind at 1, get_pets.
  rewrite delete_all_but_first_spec. unfold Objects.filter_profile_url.
  rewrite Hfilter. simpl. eexists. reflexivity.
Qed.

(** X21.  When the table consists of nothing but N > 1 rows that share
    one non-empty profile identifier and have pairwise distinct creation
    instants, [remove_duplicate_pets] returns N - 1, the table is left
    with a single row, that row is the one created last, and the count
    returned is the number of rows removed. *)
Theorem remove_duplicate_pets_table_of_copies (N : nat) (u : string) (w : world) :
  (1 < N)%nat →
  size (pets w) = N →
  u ≠ EmptyString →
  shares_profile_url u (pets w) →
  distinct_created_at (pets w) →
  ∃ pk pet,
    (remove_duplicate_pets w).1 = Ok (Z.of_nat N - 1) ∧
    pets (remove_duplicate_pets w).2 = {[pk := pet]} ∧
    pets w !! pk = Some pet ∧
    (∀ pk' pet', pets w !! pk' = Some pet' → pk' ≠ pk →
       Pet.created_at pet' < Pet.created_at pet) ∧
    Z.of_nat (size (pets w)) - Z.of_nat (size (pets (remove_duplicate_pets w).2))
      = Z.of_nat N - 1.
Proof.
  intros HN Hsize Hu Hall Hdistinct.
  destruct (profile_pass u w Hu Hall ltac:(lia)) as [t Hpass].
  pose proof (merge_sort_Permutation Objects.newer (map_to_list (pets w))) as Hperm.
  pose proof (StronglySorted_merge_sort Objects.newer (map_to_list (pets w))) as Hsorted.
  fold (Objects.order_by_created_desc (map_to_list (pets w))) in Hperm, Hsorted.
  destruct (Objects.order_by_created_desc (map_to_list (pets w)))
    as [|[pk pet] rest] eqn:Hrows.
  { apply Permutation_length in Hperm. rewrite length_map_to_list in Hperm.
    simpl in Hperm. lia. }
  simpl in Hpass.
  assert (Hlen : length rest = (N - 1)%nat).
  { apply Permutation_length in Hperm. rewrite length_map_to_list in Hperm.
    simpl in Hperm. lia. }
  assert (Hkeys : NoDup (pk :: rest.*1)).
  { change (NoDup (((pk, pet) :: rest).*1)). rewrite Hperm.
    apply NoDup_fst_map_to_list. }
  assert (Hdb : delete_rows rest (pets w) = {[pk := pet]}).
  { apply map_eq. intros i. rewrite lookup_delete_rows.
    destruct (decide (i ∈ rest.*1)) as [Hin|Hnin].
    - rewrite lookup_singleton_ne; [done|]. intros ->.
      by apply NoDup_cons in Hkeys as [? _].
    - destruct (decide (i = pk)) as [->|Hne].
      + rewrite lookup_singleton_eq. apply elem_of_map_to_list.
        rewrite <- Hperm. by left.
      + rewrite lookup_singleton_ne by done.
        destruct (pets w !! i) as [p|] eqn:Hi; [|done].
        exfalso. apply elem_of_map_to_list in Hi. rewrite <- Hperm in Hi.
        apply elem_of_cons in Hi as [[= -> ->]|Hi]; [done|].
        apply Hnin. apply list_elem_of_fmap. by exists (i, p). }
  assert (Hrun : remove_duplicate_pets w =
    (Ok (Z.of_nat N - 1),
     mkWorld {[pk := pet]} (clock w)
       ((trace w ++ t) ++ [Log INFO (RemovedDuplicates (Z.of_nat N - 1))]))).
  { unfold remove_duplicate_pets.
    unfold mbind at 1, M_bind at 1, bind at 1, get_pets at 1.
    unfold mbind at 1, M_bind at 1, bind at 1.
    rewrite Hpass, Hdb, Hlen.
    unfold mbind at 1, M_bind at 1, bind at 1, get_pets at 1. cbn [pets].
    rewrite name_breed_duplicates_singleton. simpl.
    unfold mbind, M_bind, bind, ret, log, emit, mret, M_ret, ret. simpl.
    replace (Z.of_nat (N - 1)) with (Z.of_nat N - 1) by lia. reflexivity. }
  exists pk, pet. rewrite Hrun. simpl.
  split; [done|]. split; [done|].
  split; [apply elem_of_map_to_list; rewrite <- Hperm; by left|].
  split.
  - intros pk' pet' Hlook Hne.
    apply elem_of_map_to_list in Hlook. rewrite <- Hperm in Hlook.
    apply elem_of_cons in Hlook as [[= -> ->]|Hin]; [done|].
    apply StronglySorted_inv in Hsorted as [_ Hhd].
    rewrite Forall_forall in Hhd. specialize (Hhd _ Hin).
    unfold Objects.newer in Hhd. simpl in Hhd.
    assert (Pet.created_at pet' ≠ Pet.created_at pet); [|lia].
    intros Heq. unfold distinct_created_at in Hdistinct.
    rewrite <- Hperm in Hdistinct. rewrite fmap_cons in Hdistinct.
    apply NoDup_cons in Hdistinct as [Hnot _]. apply Hnot. simpl.
    apply list_elem_of_fmap. exists (pk', pet'). by split.
  - rewrite Hsize, map_size_singleton. lia.
Qed.

(** X21, for three copies created at 10, 30 and 20. *)
Lemma remove_duplicate_pets_table_of_copies_witness :
  ∃ pk pet,
    (remove_duplicate_pets three_copies).1 = Ok (Z.of_nat 3 - 1) ∧
    pets (remove_duplicate_pets three_copies).2 = {[pk := pet]} ∧
    pets three_copies !! pk = Some pet ∧
    (∀ pk' pet', pets three_copies !! pk' = Some pet' → pk' ≠ pk →
       Pet.created_at pet' < Pet.created_at pet) ∧
    Z.of_nat (size (pets three_copies))
      - Z.of_nat (size (pets (remove_duplicate_pets three_copies).2))
      = Z.of_nat 3 - 1.
Proof.
  apply (remove_duplicate_pets_table_of_copies 3
           "https://www.petfinder.com/dog/rex-1" three_copies).
  - lia.
  - reflexivity.
  - discriminate.
  - unfold shares_profile_url. apply (bool_decide_unpack _). vm_compute. exact I.
  - unfold distinct_created_at. apply (bool_decide_unpack _). vm_compute. exact I.
Defined.

Lemma three_copies_swept :
  (remove_duplicate_pets three_copies).1 = Ok 2 ∧
  pets (remove_duplicate_pets three_copies).2
    = {[2%positive := copy_of "https://www.petfinder.com/dog/rex-1" 30]}.
Proof. split; vm_compute; reflexivity. Qed.

(** ** The requests of a scrape *)

Lemma network_events_app t1 t2 :
  network_events (t1 ++ t2) = network_events t1 ++ network_events t2.
Proof. unfold network_events. apply List.filter_app. Qed.

Lemma fetch_page_data_events ext url w :
  ∃ logs, fetch_page_data ext url w =
    (fetch_result ext url,
     mkWorld (pets w) (clock w)
       (trace w ++ Log INFO (FetchingDataFrom url) :: Get url :: logs)) ∧
    network_events logs = [].
Proof.
  unfold fetch_page_data, fetch_result, try_except, mbind, M_bind, bind, log,
    emit, raise, raise_for_status, response_json, lift, mret, M_ret, ret. simpl.
  rewrite <- !app_assoc. simpl.
  destruct (session_get ext url) as [f|status json]; simpl.
  { eexists. rewrite <- app_assoc. simpl. split; reflexivity. }
  destruct ((400 <=? status) && (status <? 600)); simpl.
  { eexists. rewrite <- app_assoc. simpl. split; reflexivity. }
  destruct json as [data|]; simpl.
  2:{ eexists. rewrite <- app_assoc. simpl. split; reflexivity. }
  destruct (contained_in "result" data) as [[|]|e] eqn:E; simpl.
  - by exists [].
  - by exists [].
  - destruct data; simpl in E; try discriminate; injection E as <-; by exists [].
Qed.

(** ** Frames *)

Lemma trace_blind_log_blind {X} (f : world → X) : trace_blind f → log_blind f.
Proof. intros H w e _. apply H. Qed.

Lemma pets_trace_blind : trace_blind pets.
Proof. done. Qed.

Lemma clock_trace_blind : trace_blind clock.
Proof. done. Qed.

Lemma clock_pets_blind : pets_blind clock.
Proof. done. Qed.

Lemma requests_log_blind : log_blind requests.
Proof.
  intros w e He. unfold requests. simpl.
  rewrite network_events_app. simpl. rewrite He. apply app_nil_r.
Qed.

Lemma requests_pets_blind : pets_blind requests.
Proof. done. Qed.

Section preserves.
Context {X : Type} (f : world → X).

Lemma preserves_ret {A} (a : A) : preserves f (ret a).
Proof. done. Qed.

Lemma preserves_mret {A} (a : A) : preserves f (mret a : M A).
Proof. done. Qed.

Lemma preserves_raise {A} e : preserves f (raise e : M A).
Proof. done. Qed.

Lemma preserves_lift {A} (r : result A) : preserves f (lift r).
Proof. done. Qed.

Lemma preserves_timezone_now : preserves f timezone_now.
Proof. done. Qed.

Lemma preserves_get_pets : preserves f get_pets.
Proof. done. Qed.

Lemma preserves_bind {A B} (m : M A) (k : A → M B) :
  preserves f m → (∀ a, preserves f (k a)) → preserves f (bind m k).
Proof.
  intros Hm Hk w. unfold bind. specialize (Hm w).
  destruct (m w) as [[a|e] w']; simpl in *; [|done].
  by rewrite Hk.
Qed.

Lemma preserves_mbind {A B} (m : M A) (k : A → M B) :
  preserves f m → (∀ a, preserves f (k a)) → preserves f (m ≫= k).
Proof. apply preserves_bind. Qed.

Lemma preserves_try_except {A} (body : M A) handler :
  preserves f body → (∀ e, preserves f (handler e)) →
  preserves f (try_except body handler).
Proof.
  intros Hm Hk w. unfold try_except. specialize (Hm w).
  destruct (body w) as [[a|e] w']; simpl in *; [done|].
  by rewrite Hk.
Qed.

Lemma preserves_attempt {A} (body : M A) :
  preserves f body → preserves f (attempt body).
Proof.
  intros Hm w. unfold attempt. specialize (Hm w).
  by destruct (body w) as [[a|e] w'].
Qed.

Lemma preserves_for_each {A S} (l : list A) (body : A → S → M S) s :
  (∀ x s, preserves f (body x s)) → preserves f (for_each l body s).
Proof.
  intros Hb. revert s. induction l as [|x l IH]; intros s; simpl; [done|].
  apply preserves_bind; [apply Hb | apply IH].
Qed.

Lemma preserves_for_each_until_raise {A S} (l : list A) (body : A → S → M S) s :
  (∀ x s, preserves f (body x s)) → preserves f (for_each_until_raise l body s).
Proof.
  intros Hb. revert s. induction l as [|x l IH]; intros s w; simpl; [done|].
  specialize (Hb x s w).
  destruct (body x s w) as [[s'|e] w']; simpl in *; [|done].
  by rewrite IH.
Qed.

Lemma preserves_emit e :
  log_blind f → is_request_or_pause e = false → preserves f (emit e).
Proof. intros Hf He w. by apply Hf. Qed.

Lemma preserves_log l m : log_blind f → preserves f (log l m).
Proof. intros Hf. by apply preserves_emit. Qed.

Lemma preserves_put_pets db : pets_blind f → preserves f (put_pets db).
Proof. intros Hf w. apply Hf. Qed.

End preserves.

(** Break a computation into its steps. *)
Ltac preserve_step :=
  lazymatch goal with
  | |- preserves _ (mbind _ _) => apply preserves_mbind; [|intros ?]
  | |- preserves _ (bind _ _) => apply preserves_bind; [|intros ?]
  | |- preserves _ (try_except _ _) => apply preserves_try_except; [|intros ?]
  | |- preserves _ (attempt _) => apply preserves_attempt
  | |- preserves _ (for_each _ _ _) => apply preserves_for_each; intros ? ?
  | |- preserves _ (for_each_until_raise _ _ _) =>
      apply preserves_for_each_until_raise; intros ? ?
  | |- preserves _ (mret _) => apply preserves_mret
  | |- preserves _ (ret _) => apply preserves_ret
  | |- preserves _ (raise _) => apply preserves_raise
  | |- preserves _ (lift _) => apply preserves_lift
  | |- preserves _ timezone_now => apply preserves_timezone_now
  | |- preserves _ get_pets => apply preserves_get_pets
  | |- preserves _ (log _ _) => apply preserves_log; assumption
  | |- preserves _ (emit _) => apply preserves_emit; [assumption | reflexivity]
  | |- preserves _ (put_pets _) => apply preserves_put_pets; assumption
  | |- preserves _ (match ?x with _ => _ end) => destruct x
  | |- preserves _ ((match ?x with _ => _ end) _) => destruct x
  | |- preserves _ _ => progress cbv beta
  end.

Ltac preserve := repeat preserve_step.

Lemma preserves_raise_for_status {X} (f : world → X) status_code :
  preserves f (raise_for_status status_code).
Proof. unfold raise_for_status. preserve. Qed.

Lemma preserves_response_json {X} (f : world → X) json :
  preserves f (response_json json).
Proof. unfold response_json. preserve. Qed.

Lemma preserves_get_coordinates {X} (f : world → X) ext city state :
  log_blind f → preserves f (Geocoding.get_coordinates ext city state).
Proof.
  intros Hf. unfold Geocoding.get_coordinates. preserve;
    first [apply preserves_raise_for_status | apply preserves_response_json].
Qed.

Lemma preserves_get_coordinates_cached {X} (f : world → X) ext city state :
  log_blind f → preserves f (Geocoding.get_coordinates_cached ext city state).
Proof.
  intros Hf. unfold Geocoding.get_coordinates_cached. preserve.
  by apply preserves_get_coordinates.
Qed.

Lemma preserves_build_search_url {X} (f : world → X)
    city state animal page limit distance :
  log_blind f → preserves f (build_search_url city state animal page limit distance).
Proof. intros Hf. unfold build_search_url. preserve. Qed.

Lemma preserves_save_pet {X} (f : world → X)
    ext search_lat search_lon max_distance pet_data s :
  log_blind f → pets_blind f →
  preserves f (save_pet ext search_lat search_lon max_distance pet_data s).
Proof.
  intros Hf Hp.
  unfold save_pet, distance_check, lookup_then_write, Objects.select, Objects.save,
    Objects.insert.
  preserve.
Qed.

Lemma preserves_save_pets_to_database {X} (f : world → X)
    ext pets_data search_city search_state max_distance :
  log_blind f → pets_blind f →
  preserves f (save_pets_to_database ext pets_data search_city search_state
                 max_distance).
Proof.
  intros Hf Hp. unfold save_pets_to_database. preserve;
    first [by apply preserves_get_coordinates_cached | by apply preserves_save_pet].
Qed.

Lemma preserves_remove_duplicate_pets {X} (f : world → X) :
  log_blind f → pets_blind f → preserves f remove_duplicate_pets.
Proof.
  intros Hf Hp. unfold remove_duplicate_pets, delete_all_but_first, Objects.delete.
  preserve.
Qed.

Lemma preserves_clear_all_pets {X} (f : world → X) :
  log_blind f → pets_blind f → preserves f clear_all_pets.
Proof. intros Hf Hp. unfold clear_all_pets. preserve. Qed.

(** ** A scrape, by what its first page says *)

Lemma pets_emit e : preserves pets (emit e).
Proof. done. Qed.

Lemma pets_time_sleep seconds : preserves pets (time_sleep seconds).
Proof. done. Qed.

Lemma pets_fetch_page_data ext url : preserves pets (fetch_page_data ext url).
Proof.
  pose proof (trace_blind_log_blind pets pets_trace_blind) as Hf.
  unfold fetch_page_data. preserve;
    first [apply pets_emit | apply preserves_raise_for_status
          | apply preserves_response_json].
Qed.

Lemma pets_scrape_page ext city state animal distance first_page_data page_num acc :
  preserves pets
    (scrape_page ext city state animal distance first_page_data page_num acc).
Proof.
  pose proof (trace_blind_log_blind pets pets_trace_blind) as Hf.
  unfold scrape_page. preserve;
    first [by apply preserves_build_search_url | apply pets_fetch_page_data
          | apply pets_time_sleep].
Qed.

Ltac requests_done :=
  unfold requests; cbn [trace];
  rewrite ?network_events_app; cbn [network_events List.filter is_request_or_pause];
  rewrite ?app_nil_r, <- ?app_assoc; try reflexivity.

Lemma scrape_page_requests ext city state animal distance first_page_data page_num acc w :
  requests (scrape_page ext city state animal distance first_page_data page_num acc w).2
  = requests w ++ page_requests ext city state animal distance page_num.
Proof.
  unfold scrape_page, attempt, page_requests.
  unfold mbind, M_bind, bind.
  destruct (page_num =? 1) eqn:Hp.
  - unfold lift, log, emit, time_sleep, mret, M_ret, ret.
    page_records ext acc; requests_done.
  - rewrite build_search_url_page.
    match goal with
    | |- context [fetch_page_data ?e ?u ?w0] =>
        destruct (fetch_page_data_events e u w0) as (logs & Hf & Hlogs); rewrite Hf
    end.
    unfold lift, log, emit, time_sleep, mret, M_ret, ret.
    destruct (fetch_result ext (page_url city state animal distance page_num))
      as [page_data|e0] eqn:Hfr; simpl.
    + page_records ext acc; requests_done;
        fold (network_events logs); rewrite Hlogs; reflexivity.
    + requests_done. fold (network_events logs). by rewrite Hlogs.
Qed.

Lemma pages_requests ext city state animal distance first_page_data page_nums acc w :
  requests (for_each page_nums
              (scrape_page ext city state animal distance first_page_data) acc w).2
  = requests w ++
    concat (page_requests ext city state animal distance <$> page_nums).
Proof.
  revert acc w. induction page_nums as [|p page_nums IH]; intros acc w; simpl.
  - by rewrite app_nil_r.
  - unfold bind.
    destruct (scrape_page_spec ext city state animal distance first_page_data p acc w)
      as (w1 & evs1 & Heq & _).
    pose proof (scrape_page_requests ext city state animal distance first_page_data
                  p acc w) as Hr.
    rewrite Heq in *. simpl in Hr. rewrite IH, Hr. by rewrite app_assoc.
Qed.

Lemma scrape_pets_head ext city state animal distance w :
  ∃ logs,
    network_events logs = [] ∧
    ∀ A (k : pyval → M A) (h : exn → M A),
      try_except
        (first_page_url ← build_search_url city state animal 1 100
                            (from_option PyInt PyNone distance);
         first_page_data ← fetch_page_data ext first_page_url;
         k first_page_data) h w =
      let w0 := mkWorld (pets w) (clock w)
                  (trace w ++
                   Log INFO (BuiltSearchUrl
                     (Z.max 1 (Z.min 500 (default 100 distance))) city state) ::
                   Log INFO (FetchingDataFrom (page_url city state animal distance 1)) ::
                   Get (page_url city state animal distance 1) :: logs) in
      match fetch_result ext (page_url city state animal distance 1) with
      | Ok first_page_data => try_except (k first_page_data) h w0
      | Raise e => h e w0
      end.
Proof.
  destruct (fetch_page_data_events ext (page_url city state animal distance 1)
              (mkWorld (pets w) (clock w)
                 (trace w ++ [Log INFO (BuiltSearchUrl
                    (Z.max 1 (Z.min 500 (default 100 distance))) city state)])))
    as (logs & Hf & Hlogs).
  exists logs. split; [done|]. intros A k h.
  unfold try_except, mbind, M_bind, bind.
  rewrite build_search_url_page, Hf. cbn [pets clock trace].
  rewrite <- app_assoc. simpl.
  by destruct (fetch_result ext (page_url city state animal distance 1)).
Qed.

Lemma scrape_pets_raises ext city state animal max_pages distance w e :
  scrape_plan ext city state animal max_pages distance = Raise e →
  ∃ w',
    scrape_pets ext city state animal max_pages distance w
      = (Raise (PetFinderAPIError (ScrapingFailed e)), w') ∧
    pets w' = pets w ∧ clock w' = clock w ∧
    requests w' = requests w ++ [Get (page_url city state animal distance 1)].
Proof.
  intros Hplan. unfold scrape_plan in Hplan.
  destruct (scrape_pets_head ext city state animal distance w) as (logs & Hlogs & Hhead).
  unfold scrape_pets. rewrite Hhead. clear Hhead. cbv zeta.
  assert (Hreq : ∀ t, network_events t = [] →
    network_events
      (trace w ++
       Log INFO (BuiltSearchUrl (Z.max 1 (Z.min 500 (default 100 distance))) city state) ::
       Log INFO (FetchingDataFrom (page_url city state animal distance 1)) ::
       Get (page_url city state animal distance 1) :: logs ++ t)
    = network_events (trace w) ++ [Get (page_url city state animal distance 1)]).
  { intros t Ht. rewrite network_events_app. f_equal.
    change (network_events
      ([Log INFO (BuiltSearchUrl (Z.max 1 (Z.min 500 (default 100 distance))) city state);
        Log INFO (FetchingDataFrom (page_url city state animal distance 1));
        Get (page_url city state animal distance 1)] ++ logs ++ t) =
      [Get (page_url city state animal distance 1)]).
    rewrite !network_events_app, Hlogs, Ht. reflexivity. }
  unfold requests.
  destruct (fetch_result ext (page_url city state animal distance 1))
    as [first_page_data|e0]; cbn [mbind result_bind] in Hplan.
  2:{ injection Hplan as ->. eexists. split; [reflexivity|].
      split; [done|]. split; [done|]. cbn [trace].
      rewrite <- app_assoc. simpl. apply (Hreq [Log ERROR (ScrapingFailedWith e)]).
      reflexivity. }
  unfold try_except, mbind, M_bind, bind, lift, log, emit, raise, mret, M_ret, ret,
    result_bind.
  unfold mbind, result_bind in Hplan.
  destruct (get first_page_data "result" (PyDict [])) as [r|e0].
  2:{ injection Hplan as ->. eexists. split; [reflexivity|].
      split; [done|]. split; [done|]. cbn [trace].
      rewrite <- app_assoc. simpl. apply (Hreq [Log ERROR (ScrapingFailedWith e)]).
      reflexivity. }
  destruct (get r "pagination" (PyDict [])) as [pagination|e0].
  2:{ injection Hplan as ->. eexists. split; [reflexivity|].
      split; [done|]. split; [done|]. cbn [trace].
      rewrite <- app_assoc. simpl. apply (Hreq [Log ERROR (ScrapingFailedWith e)]).
      reflexivity. }
  destruct (get pagination "total_pages" (PyInt 1)) as [total_pages|e0].
  2:{ injection Hplan as ->. eexists. split; [reflexivity|].
      split; [done|]. split; [done|]. cbn [trace].
      rewrite <- app_assoc. simpl. apply (Hreq [Log ERROR (ScrapingFailedWith e)]).
      reflexivity. }
  cbn [pets clock trace].
  destruct (min_with max_pages total_pages) as [pages_to_scrape|e0].
  2:{ injection Hplan as ->. eexists. split; [reflexivity|].
      split; [done|]. split; [done|]. cbn [trace].
      rewrite <- !app_assoc. simpl.
      apply (Hreq [Log INFO (FoundPages total_pages animal city state);
                   Log ERROR (ScrapingFailedWith e)]).
      reflexivity. }
  destruct (range_1_to pages_to_scrape) as [page_nums|e0]; [discriminate Hplan|].
  injection Hplan as ->. eexists. split; [reflexivity|].
  split; [done|]. split; [done|]. cbn [trace].
  rewrite <- !app_assoc. simpl.
  apply (Hreq [Log INFO (FoundPages total_pages animal city state);
               Log ERROR (ScrapingFailedWith e)]).
  reflexivity.
Qed.

Lemma scrape_pets_returns ext city state animal max_pages distance w
    first_page_data total_pages pages_to_scrape page_nums :
  scrape_plan ext city state animal max_pages distance
    = Ok (first_page_data, total_pages, pages_to_scrape, page_nums) →
  ∃ w1 pets_saved,
    let batch := (scraped ext city state animal distance first_page_data
                    page_nums ([], clock w)).1 in
    let saved := save_pets_to_database ext batch (Some city) (Some state)
                   distance w1 in
    pets w1 = pets w ∧
    clock w1 = (scraped ext city state animal distance first_page_data
                  page_nums ([], clock w)).2 ∧
    requests w1 = requests w ++
      Get (page_url city state animal distance 1) ::
      concat (page_requests ext city state animal distance <$> page_nums) ∧
    saved.1 = Ok pets_saved ∧
    scrape_pets ext city state animal max_pages distance w =
      (Ok (total_pages, pets_saved),
       mkWorld (pets saved.2) (clock saved.2)
         (trace saved.2 ++
          [Log INFO (SuccessfullySaved pets_saved pages_to_scrape)])).
Proof.
  intros Hplan. unfold scrape_plan in Hplan.
  destruct (scrape_pets_head ext city state animal distance w) as (logs & Hlogs & Hhead).
  unfold scrape_pets. rewrite Hhead. clear Hhead. cbv zeta.
  destruct (fetch_result ext (page_url city state animal distance 1))
    as [first|e0]; cbn [mbind result_bind] in Hplan; [|discriminate Hplan].
  unfold try_except, mbind, M_bind, bind, lift, log, emit, raise, mret, M_ret, ret,
    result_bind.
  unfold mbind, result_bind in Hplan.
  destruct (get first "result" (PyDict [])) as [r|e0]; [|discriminate Hplan].
  destruct (get r "pagination" (PyDict [])) as [pagination|e0]; [|discriminate Hplan].
  destruct (get pagination "total_pages" (PyInt 1)) as [total|e0]; [|discriminate Hplan].
  destruct (min_with max_pages total) as [pages|e0]; [|discriminate Hplan].
  destruct (range_1_to pages) as [nums|e0]; [|discriminate Hplan].
  injection Hplan as -> -> -> ->.
  cbn [pets clock trace].
  match goal with
  | |- context [for_each page_nums ?body [] ?w0] =>
      pose proof (pages_requests ext city state animal distance first_page_data
                    page_nums [] w0) as Hreq;
      destruct (pages_loop ext city state animal distance first_page_data
                  page_nums [] w0)
        as (w1 & evs1 & Hloop & Hc1 & Hp1 & _);
      rewrite Hloop in *
  end.
  cbn [pets clock trace fst snd] in *.
  destruct (save_pets_to_database_spec ext
              (scraped ext city state animal distance first_page_data page_nums
                 ([], clock w)).1 (Some city) (Some state) distance w1)
    as [t Hsave].
  unfold mbind, M_bind, bind in Hsave. rewrite Hsave. cbn [fst snd pets clock trace].
  eexists w1, _. rewrite Hsave.
  split; [done|]. split; [done|]. split; [|split; reflexivity].
  rewrite Hreq. unfold requests. cbn [trace].
  rewrite <- app_assoc. rewrite network_events_app.
  rewrite <- app_assoc. f_equal.
  change (network_events
    (([Log INFO (BuiltSearchUrl (Z.max 1 (Z.min 500 (default 100 distance))) city state);
       Log INFO (FetchingDataFrom (page_url city state animal distance 1));
       Get (page_url city state animal distance 1)] ++ logs) ++
     [Log INFO (FoundPages total_pages animal city state)]) ++
     concat (page_requests ext city state animal distance <$> page_nums) =
    [Get (page_url city state animal distance 1)] ++
     concat (page_requests ext city state animal distance <$> page_nums)).
  f_equal. by rewrite !network_events_app, Hlogs.
Qed.

(** ** The upsert engine: its accounts *)

Lemma rows_persist_refl db : rows_persist db db.
Proof. intros pk pet H. by exists pet. Qed.

Lemma rows_persist_trans db1 db2 db3 :
  rows_persist db1 db2 → rows_persist db2 db3 → rows_persist db1 db3.
Proof.
  intros H12 H23 pk pet H. destruct (H12 pk pet H) as (pet2 & H2 & E2).
  destruct (H23 pk pet2 H2) as (pet3 & H3 & E3). exists pet3. split; [done|congruence].
Qed.

Lemma rows_persist_dom db db' : rows_persist db db' → dom db ⊆ dom db'.
Proof.
  intros H pk [pet Hpk]%elem_of_dom. destruct (H pk pet Hpk) as (pet' & H' & _).
  by apply elem_of_dom.
Qed.

Lemma upsert_step now pet_data db :
  rows_persist db (upsert now pet_data db).1 ∧
  Z.of_nat (size (upsert now pet_data db).1) =
    Z.of_nat (size db) + (if (upsert now pet_data db).2 then 1 else 0).
Proof.
  destruct (upsert_cases now pet_data db) as
    [(pk & pet & _ & Hpk & _ & ->) | [_ ->]]; simpl.
  - split.
    + intros pk' pet' H'. destruct (decide (pk' = pk)) as [->|Hne].
      * rewrite lookup_insert_eq. eexists. split; [done|].
        rewrite Hpk in H'. by injection H' as <-.
      * rewrite lookup_insert_ne by done. by exists pet'.
    + rewrite map_size_insert_Some by done. lia.
  - split.
    + intros pk' pet' H'. rewrite lookup_insert_ne; [by exists pet'|].
      intros <-. by rewrite fresh_key_None in H'.
    + rewrite map_size_insert_None by apply fresh_key_None. lia.
Qed.

Lemma after_step v now pet_data c db :
  let r := after v now pet_data c db in
  rows_persist db r.2 ∧
  0 ≤ saved_count r.1 - saved_count c ≤ 1 ∧
  Z.of_nat (size r.2) = Z.of_nat (size db) + (saved_count r.1 - saved_count c).
Proof.
  destruct (upsert_step now pet_data db) as [Hrows Hsize].
  unfold after. destruct (upsert now pet_data db) as [db' created]. simpl in *.
  destruct v as [[| |]|]; simpl;
    try (destruct created; simpl; (split; [done|]); lia);
    (split; [apply rows_persist_refl|]); lia.
Qed.

Lemma run_step ext search max_distance now pets_data c db :
  let r := run ext search max_distance now pets_data (c, db) in
  rows_persist db r.2 ∧
  0 ≤ saved_count r.1 - saved_count c ≤ Z.of_nat (length pets_data) ∧
  Z.of_nat (size r.2) = Z.of_nat (size db) + (saved_count r.1 - saved_count c).
Proof.
  unfold run. revert c db. induction pets_data as [|pet_data rest IH]; intros c db.
  - simpl. split; [apply rows_persist_refl|]. lia.
  - simpl.
    pose proof (after_step (distance_verdict ext search.1 search.2 max_distance pet_data)
                  now pet_data c db) as Hstep.
    destruct (after _ now pet_data c db) as [c' db']. simpl in Hstep.
    destruct Hstep as (Hr1 & Hc1 & Hs1).
    destruct (IH c' db') as (Hr2 & Hc2 & Hs2). cbv zeta. simpl in *.
    split; [by eapply rows_persist_trans|]. lia.
Qed.

(** X1.  [save_pets_to_database] never raises, on any batch and any table.
    The count it returns is between 0 and the length of the batch.  When
    the transaction commits, the count is exactly the number of rows the
    table gained; when it does not, the table is as it was, whatever the
    count.  In both cases every row that was in the table is still there
    under its primary key and with its creation instant, the clock has
    not moved, and no request to the search API and no pause has been
    made. *)
Theorem save_pets_to_database_accounting
    ext pets_data search_city search_state max_distance w :
  ∃ saved w',
    save_pets_to_database ext pets_data search_city search_state max_distance w
      = (Ok saved, w') ∧
    0 ≤ saved ≤ Z.of_nat (length pets_data) ∧
    (commits ext pets_data search_city search_state max_distance w →
     Z.of_nat (size (pets w')) = Z.of_nat (size (pets w)) + saved) ∧
    (¬ commits ext pets_data search_city search_state max_distance w →
     pets w' = pets w) ∧
    rows_persist (pets w) (pets w') ∧
    clock w' = clock w ∧
    requests w' = requests w.
Proof.
  pose proof (preserves_save_pets_to_database requests ext pets_data search_city
                search_state max_distance requests_log_blind requests_pets_blind w)
    as Hreq.
  destruct (save_pets_to_database_spec ext pets_data search_city search_state
              max_distance w) as [t Hsave].
  rewrite Hsave in *. do 2 eexists. split; [reflexivity|]. cbn [pets clock snd] in *.
  split.
  { pose proof (run_atomic_saved ext
                  (resolved_origin ext search_city search_state max_distance)
                  max_distance (clock w) pets_data (mkCounters 0 0 0) (pets w) false)
      as H. cbn [saved_count] in H. unfold transaction. lia. }
  unfold commits.
  destruct (transaction ext pets_data search_city search_state max_distance w).2
    eqn:Eb.
  - split; [done|]. split; [done|]. split; [apply rows_persist_refl|done].
  - unfold transaction in *. rewrite (run_atomic_commit _ _ _ _ _ _ _ Eb).
    destruct (run_step ext (resolved_origin ext search_city search_state max_distance)
                max_distance (clock w) pets_data (mkCounters 0 0 0) (pets w))
      as (Hrows & Hcount & Hsize).
    cbn [saved_count] in Hcount, Hsize.
    split; [intros _; lia|]. split; [done|]. split; [done|]. done.
Qed.

Lemma upsert_anonymous now pet_data db :
  anonymous pet_data → (upsert now pet_data db).2 = true.
Proof. unfold anonymous, upsert. by intros ->. Qed.

Lemma run_anonymous ext search now pets_data c db :
  Forall anonymous pets_data →
  saved_count (run ext search None now pets_data (c, db)).1
    = saved_count c + Z.of_nat (length pets_data).
Proof.
  intros Ha. unfold run. revert c db.
  induction Ha as [|pet_data rest Hp _ IH]; intros c db.
  - simpl. lia.
  - simpl.
    pose proof (upsert_anonymous now pet_data db Hp) as Hup.
    assert (Hv : distance_verdict ext search.1 search.2 None pet_data = Some Kept).
    { unfold distance_verdict. replace (given_int None) with false by reflexivity.
      by rewrite andb_false_r. }
    rewrite Hv. unfold after.
    destruct (upsert now pet_data db) as [db' created]. simpl in Hup. subst created.
    simpl. rewrite IH. simpl. lia.
Qed.

(** X2.  With no distance bound, a batch whose records carry no profile
    identifier (the key is absent, or its text is empty or blank) is
    inserted whole when the transaction commits: the count returned is
    the length of the batch and the table grows by as many rows, whatever
    it held. *)
Theorem anonymous_records_always_inserted ext pets_data search_city search_state w :
  Forall anonymous pets_data →
  commits ext pets_data search_city search_state None w →
  (save_pets_to_database ext pets_data search_city search_state None w).1
    = Ok (Z.of_nat (length pets_data)) ∧
  size (pets (save_pets_to_database ext pets_data search_city search_state None w).2)
    = (size (pets w) + length pets_data)%nat.
Proof.
  intros Ha Hc.
  destruct (save_pets_to_database_commit ext pets_data search_city search_state None w
              Hc) as [t ->]. simpl.
  pose proof (run_anonymous ext (resolved_origin ext search_city search_state None)
                (clock w) pets_data (mkCounters 0 0 0) (pets w) Ha) as Hn.
  destruct (run_step ext (resolved_origin ext search_city search_state None)
              None (clock w) pets_data (mkCounters 0 0 0) (pets w))
    as (_ & _ & Hsize).
  simpl in *. rewrite Hn. split; [done|]. lia.
Qed.

(** X2, on a batch that holds the same record without identifier twice. *)
Lemma anonymous_records_always_inserted_witness :
  (save_pets_to_database offline [stray_record; stray_record]
     (Some "Seattle") (Some "WA") None w_init).1
    = Ok (Z.of_nat (length [stray_record; stray_record])) ∧
  size (pets (save_pets_to_database offline [stray_record; stray_record]
                (Some "Seattle") (Some "WA") None w_init).2)
    = (size (pets w_init) + length [stray_record; stray_record])%nat.
Proof.
  apply (anonymous_records_always_inserted offline [stray_record; stray_record]
           (Some "Seattle") (Some "WA") w_init).
  - repeat constructor.
  - vm_compute. reflexivity.
Defined.

Lemma text_coordinates_fail ext search_lat search_lon max_distance pet_data :
  truthy search_lat = true → truthy search_lon = true →
  given_int max_distance = true → text_coordinates pet_data →
  ∃ e, distance_verdict ext search_lat search_lon max_distance pet_data
         = Some (Failed e).
Proof.
  intros Hlat Hlon HM (s & t & Hs & Ht & Hns & Hnt).
  apply truthy_str_nonempty in Hns, Hnt.
  unfold distance_verdict.
  rewrite Hlat, Hlon, HM, Hs, Ht. cbn [default from_option id Datatypes.id andb].
  unfold Datatypes.id. rewrite Hns, Hnt. cbn [andb].
  unfold calculate_distance_in_floats, Pet.calculate_distance.
  cbn [Pet.latitude Pet.longitude Pet.with_coordinates forallb].
  rewrite Hns, Hnt, Hlat, Hlon. cbn.
  destruct (float_error ext _ _ _ _); by eexists.
Qed.

Lemma run_text_coordinates ext search max_distance now pets_data c db :
  truthy search.1 = true → truthy search.2 = true →
  given_int max_distance = true → Forall text_coordinates pets_data →
  run ext search max_distance now pets_data (c, db) = (c, db).
Proof.
  intros Hlat Hlon HM Ht. revert c db.
  induction Ht as [|pet_data rest Hp _ IH]; intros c db; [done|].
  rewrite run_cons.
  destruct (text_coordinates_fail ext _ _ _ _ Hlat Hlon HM Hp) as [e ->].
  cbn [after]. apply IH.
Qed.

(** X3.  When the origin of the search resolves to two truthy
    coordinates and a non-zero bound is given, a batch whose records
    carry their latitude and longitude as non-empty texts is dropped
    whole: the call returns 0 and the table is as it was. *)
Theorem text_coordinates_dropped ext pets_data city state max_distance w :
  truthy (resolved_origin ext (Some city) (Some state) (Some max_distance)).1 = true →
  truthy (resolved_origin ext (Some city) (Some state) (Some max_distance)).2 = true →
  max_distance ≠ 0 →
  Forall text_coordinates pets_data →
  (save_pets_to_database ext pets_data (Some city) (Some state)
     (Some max_distance) w).1 = Ok 0 ∧
  pets (save_pets_to_database ext pets_data (Some city) (Some state)
          (Some max_distance) w).2 = pets w.
Proof.
  intros Hlat Hlon HM Ht.
  assert (HM' : given_int (Some max_distance) = true).
  { unfold given_int. simpl. by destruct (Z.eqb_spec max_distance 0). }
  assert (Hc : commits ext pets_data (Some city) (Some state) (Some max_distance) w).
  { apply run_atomic_no_write. eapply Forall_impl; [exact Ht|].
    intros pet_data Hp. cbv beta.
    by destruct (text_coordinates_fail ext _ _ _ _ Hlat Hlon HM' Hp) as [e ->]. }
  destruct (save_pets_to_database_commit ext pets_data (Some city) (Some state)
              (Some max_distance) w Hc) as [t Hsave].
  rewrite Hsave. simpl.
  by rewrite (run_text_coordinates ext _ _ _ _ _ _ Hlat Hlon HM' Ht).
Qed.

(** X3, for Seattle, a bound of 50 and one record with textual coordinates. *)
Lemma text_coordinates_dropped_witness :
  (save_pets_to_database offline [text_record] (Some "Seattle") (Some "WA")
     (Some 50) w_init).1 = Ok 0 ∧
  pets (save_pets_to_database offline [text_record] (Some "Seattle") (Some "WA")
          (Some 50) w_init).2 = pets w_init.
Proof.
  apply (text_coordinates_dropped offline [text_record] "Seattle" "WA" 50 w_init).
  - reflexivity.
  - reflexivity.
  - discriminate.
  - repeat constructor. exists "47.6062", "-122.3321". repeat split; discriminate.
Defined.

(** ** A scrape: its failure, its accounts, its requests *)

(** X4.  When [scrape_pets] raises, the exception is a
    [PetFinderAPIError] built from the failure that stopped it; the table
    and the clock are as they were, and exactly one request has been
    made, that of the first page. *)
Theorem scrape_pets_failure ext city state animal max_pages distance w e :
  (scrape_pets ext city state animal max_pages distance w).1 = Raise e →
  (∃ cause, e = PetFinderAPIError (ScrapingFailed cause)) ∧
  pets (scrape_pets ext city state animal max_pages distance w).2 = pets w ∧
  clock (scrape_pets ext city state animal max_pages distance w).2 = clock w ∧
  requests (scrape_pets ext city state animal max_pages distance w).2
    = requests w ++ [Get (page_url city state animal distance 1)].
Proof.
  intros Hraise.
  destruct (scrape_plan ext city state animal max_pages distance)
    as [[[[first_page_data total_pages] pages_to_scrape] page_nums]|cause] eqn:Hplan.
  - destruct (scrape_pets_returns ext city state animal max_pages distance w _ _ _ _
                Hplan) as (w1 & n & _ & _ & _ & _ & Heq).
    rewrite Heq in Hraise. discriminate Hraise.
  - destruct (scrape_pets_raises ext city state animal max_pages distance w _ Hplan)
      as (w' & Heq & Hp & Hc & Hr).
    rewrite Heq in *. simpl in *. injection Hraise as <-. eauto.
Qed.

(** X4, for a server whose first page times out, on a table of three rows. *)
Lemma scrape_pets_failure_witness :
  (∃ cause,
     PetFinderAPIError (ScrapingFailed (PetFinderAPIError (FailedToFetch Timeout)))
       = PetFinderAPIError (ScrapingFailed cause)) ∧
  pets (scrape_pets first_page_down "Seattle" "WA" "dog" 2 (Some 100) three_copies).2
    = pets three_copies ∧
  clock (scrape_pets first_page_down "Seattle" "WA" "dog" 2 (Some 100) three_copies).2
    = clock three_copies ∧
  requests (scrape_pets first_page_down "Seattle" "WA" "dog" 2 (Some 100) three_copies).2
    = requests three_copies ++ [Get (page_url "Seattle" "WA" "dog" (Some 100) 1)].
Proof.
  apply (scrape_pets_failure first_page_down "Seattle" "WA" "dog" 2 (Some 100)
           three_copies).
  vm_compute. reflexivity.
Defined.

Lemma scrape_pets_table ext city state animal max_pages distance w :
  (∃ e, (scrape_pets ext city state animal max_pages distance w).1 = Raise e ∧
        pets (scrape_pets ext city state animal max_pages distance w).2 = pets w) ∨
  (∃ search now pets_data total_pages pets_saved,
     Forall normalized pets_data ∧
     (scrape_pets ext city state animal max_pages distance w).1
       = Ok (total_pages, pets_saved) ∧
     0 ≤ pets_saved ∧
     (pets (scrape_pets ext city state animal max_pages distance w).2 = pets w ∨
      (pets_saved = saved_count (run ext search distance now pets_data
                                   (mkCounters 0 0 0, pets w)).1 ∧
       pets (scrape_pets ext city state animal max_pages distance w).2
         = (run ext search distance now pets_data (mkCounters 0 0 0, pets w)).2))).
Proof.
  destruct (scrape_plan ext city state animal max_pages distance)
    as [[[[first_page_data total_pages] pages_to_scrape] page_nums]|cause] eqn:Hplan.
  - right.
    destruct (scrape_pets_returns ext city state animal max_pages distance w _ _ _ _
                Hplan) as (w1 & n & Hp1 & Hc1 & _ & Hn & Heq).
    cbv zeta in Hn, Heq.
    destruct (save_pets_to_database_cases ext
                (scraped ext city state animal distance first_page_data page_nums
                   ([], clock w)).1 (Some city) (Some state) distance w1)
      as (n' & w' & Hsave & Hbound & Hcase).
    rewrite Hsave in Hn, Heq. cbn [fst snd] in Hn, Heq. injection Hn as <-.
    rewrite Heq. cbn [fst snd pets]. rewrite Hp1 in Hcase.
    exists (resolved_origin ext (Some city) (Some state) distance), (clock w1),
      (scraped ext city state animal distance first_page_data page_nums
         ([], clock w)).1, total_pages, n'.
    split; [by apply scraped_normalized|].
    split; [reflexivity|]. split; [lia|].
    destruct Hcase as [Hsame|(_ & Hcount & Htable)]; [by left|right]. by split.
  - left.
    destruct (scrape_pets_raises ext city state animal max_pages distance w _ Hplan)
      as (w' & -> & Hp & _). eauto.
Qed.

(** X5.  Whatever the server answers, a scrape on a table with at most
    one row per non-empty profile identifier leaves a table with at most
    one row per non-empty profile identifier. *)
Theorem scrape_pets_keeps_profile_urls_unique
    ext city state animal max_pages distance w :
  unique_profile_urls (pets w) →
  unique_profile_urls (pets (scrape_pets ext city state animal max_pages distance w).2).
Proof.
  intros Hu.
  destruct (scrape_pets_table ext city state animal max_pages distance w)
    as [(e & _ & ->)
       |(search & now & pets_data & total & n & Hn & _ & _ & [->|[_ ->]])];
    [done|done|].
  by apply run_unique.
Qed.

(** X5, for a server of three pages, the second of which times out. *)
Lemma scrape_pets_keeps_profile_urls_unique_witness :
  unique_profile_urls
    (pets (scrape_pets second_page_down "Seattle" "WA" "dog" 3 (Some 100) w_init).2).
Proof.
  apply (scrape_pets_keeps_profile_urls_unique second_page_down "Seattle" "WA" "dog"
           3 (Some 100) w_init).
  exact unique_profile_urls_empty.
Defined.

(** X6.  When [scrape_pets] returns [(total_pages, pets_saved)],
    [pets_saved] is not negative, and either it is exactly the number of
    rows the table gained, or the transaction of the batch was rolled
    back and the table is as it was; in both cases every row that was in
    the table is still there under its primary key and with its creation
    instant. *)
Theorem scrape_pets_accounting ext city state animal max_pages distance w
    total_pages pets_saved :
  (scrape_pets ext city state animal max_pages distance w).1
    = Ok (total_pages, pets_saved) →
  0 ≤ pets_saved ∧
  (Z.of_nat (size (pets (scrape_pets ext city state animal max_pages distance w).2))
     = Z.of_nat (size (pets w)) + pets_saved ∨
   pets (scrape_pets ext city state animal max_pages distance w).2 = pets w) ∧
  rows_persist (pets w)
    (pets (scrape_pets ext city state animal max_pages distance w).2).
Proof.
  intros Hok.
  destruct (scrape_pets_table ext city state animal max_pages distance w)
    as [(e & Hr & _)
       |(search & now & pets_data & total & n & Hn & Hres & Hpos & Hcase)].
  - rewrite Hr in Hok. discriminate Hok.
  - rewrite Hres in Hok. injection Hok as _ <-. split; [done|].
    destruct Hcase as [->|[-> ->]].
    + split; [by right|apply rows_persist_refl].
    + destruct (run_step ext search distance now pets_data (mkCounters 0 0 0) (pets w))
        as (Hrows & Hc & Hsize). cbn [saved_count] in *. split; [left; lia|done].
Qed.

(** X6, for a server of three pages, the second of which times out: one row. *)
Lemma scrape_pets_accounting_witness :
  0 ≤ 1 ∧
  (Z.of_nat (size (pets (scrape_pets second_page_down "Seattle" "WA" "dog" 3
                           (Some 100) w_init).2))
     = Z.of_nat (size (pets w_init)) + 1 ∨
   pets (scrape_pets second_page_down "Seattle" "WA" "dog" 3 (Some 100) w_init).2
     = pets w_init) ∧
  rows_persist (pets w_init)
    (pets (scrape_pets second_page_down "Seattle" "WA" "dog" 3 (Some 100) w_init).2).
Proof.
  apply (scrape_pets_accounting second_page_down "Seattle" "WA" "dog" 3 (Some 100)
           w_init (PyInt 3) 1).
  vm_compute. reflexivity.
Defined.

Lemma gets_app t1 t2 : gets (t1 ++ t2) = gets t1 ++ gets t2.
Proof. apply omap_app. Qed.

Lemma gets_later_pages ext city state animal distance (page_nums : list Z) :
  Forall (λ p, p ≠ 1) page_nums →
  length (gets (concat (page_requests ext city state animal distance <$> page_nums)))
    = length page_nums.
Proof.
  induction 1 as [|p page_nums Hp _ IH]; [done|].
  rewrite fmap_cons. cbn [concat]. rewrite gets_app, length_app, IH.
  unfold page_requests. apply Z.eqb_neq in Hp. rewrite Hp.
  by destruct (fetch_result _ _).
Qed.

Lemma gets_pages ext city state animal distance n :
  Z.of_nat (length (gets (concat (page_requests ext city state animal distance
                                    <$> seqZ 1 n))))
    = Z.max 0 (n - 1).
Proof.
  destruct (Z.lt_ge_cases 0 n) as [Hn|Hn].
  - rewrite seqZ_cons by done. rewrite fmap_cons. cbn [concat].
    change (page_requests ext city state animal distance 1) with (@nil event).
    rewrite app_nil_l, gets_later_pages, length_seqZ; [lia|].
    apply Forall_forall. intros p Hp%elem_of_seqZ. lia.
  - rewrite seqZ_nil by lia. simpl. lia.
Qed.

Lemma planned_pages ext city state animal max_pages distance
    first_page_data total_pages pages_to_scrape page_nums :
  scrape_plan ext city state animal max_pages distance
    = Ok (first_page_data, total_pages, pages_to_scrape, page_nums) →
  ∃ n, n ≤ max_pages ∧ page_nums = seqZ 1 n.
Proof.
  unfold scrape_plan. intros H. bind_ok H.
  match type of H with
  | (_ ≫= _) = Ok _ => idtac
  | _ => idtac
  end.
  injection H as -> -> -> ->.
  match goal with
  | Hmin : min_with max_pages ?t = Ok ?p, Hr : range_1_to ?p = Ok _ |- _ =>
      destruct t; simpl in Hmin; try discriminate Hmin; injection Hmin as <-;
      repeat match goal with
             | H' : range_1_to (if ?c then _ else _) = Ok _ |- _ =>
                 destruct c eqn:?; simpl in H'
             end;
      simpl in Hr; try discriminate Hr; injection Hr as <-
  end;
  eexists; (split; [|reflexivity]);
    repeat match goal with
           | H' : (_ <? _) = true |- _ => apply Z.ltb_lt in H'
           | H' : (_ <? _) = false |- _ => apply Z.ltb_ge in H'
           end; try lia.
Qed.

(** X7.  Of the requests to the search API and the pauses of a scrape
    (the request to the geocoding provider is not among them), the first
    is the request of the first page; the scrape makes at most
    [max(1, max_pages)] requests to the search API, and with [max_pages]
    at most 1 the request of the first page is its only request to the
    search API and it makes no pause. *)
Theorem scrape_pets_request_bound ext city state animal max_pages distance w :
  ∃ delta,
    requests (scrape_pets ext city state animal max_pages distance w).2
      = requests w ++ delta ∧
    head delta = Some (Get (page_url city state animal distance 1)) ∧
    Z.of_nat (length (gets delta)) ≤ Z.max 1 max_pages ∧
    (max_pages ≤ 1 → delta = [Get (page_url city state animal distance 1)]).
Proof.
  destruct (scrape_plan ext city state animal max_pages distance)
    as [[[[first_page_data total_pages] pages_to_scrape] page_nums]|cause] eqn:Hplan.
  - destruct (scrape_pets_returns ext city state animal max_pages distance w _ _ _ _
                Hplan) as (w1 & n & _ & _ & Hreq & _ & Heq).
    cbv zeta in Heq. rewrite Heq. clear Heq.
    pose proof (preserves_save_pets_to_database requests ext
                  (scraped ext city state animal distance first_page_data page_nums
                     ([], clock w)).1 (Some city) (Some state) distance
                  requests_log_blind requests_pets_blind w1) as Hsave.
    destruct (planned_pages _ _ _ _ _ _ _ _ _ _ Hplan) as (k & Hk & ->).
    eexists. split.
    { cbn [snd]. rewrite requests_log_blind by reflexivity.
      rewrite Hsave. exact Hreq. }
    split; [done|]. split.
    + change (gets (Get ?u :: ?l)) with (u :: gets l). cbn [length].
      pose proof (gets_pages ext city state animal distance k). lia.
    + intros Hm. destruct (Z.le_gt_cases k 0) as [H0|H0].
      * by rewrite seqZ_nil.
      * by replace k with 1 by lia.
  - destruct (scrape_pets_raises ext city state animal max_pages distance w _ Hplan)
      as (w' & -> & _ & _ & Hr).
    eexists. split; [exact Hr|]. split; [done|]. split; [simpl; lia|done].
Qed.

(** ** The duplicate sweep on any table *)

Lemma at_most_one_subseteq Q (db db' : gmap positive Pet.t) :
  db' ⊆ db → at_most_one Q db → at_most_one Q db'.
Proof.
  intros Hsub H k1 p1 k2 p2 H1 H2.
  apply (H k1 p1 k2 p2); by eapply lookup_weaken.
Qed.

Lemma at_most_one_filter_length Q `{∀ kv, Decision (Q kv)} (db : gmap positive Pet.t) :
  at_most_one Q db ↔ (length (filter Q (map_to_list db)) ≤ 1)%nat.
Proof.
  split.
  - intros Hone.
    assert (Hnd : NoDup (filter Q (map_to_list db)))
      by apply NoDup_filter, NoDup_map_to_list.
    destruct (filter Q (map_to_list db)) as [|[k1 p1] [|[k2 p2] l]] eqn:E;
      simpl; [lia|lia|exfalso].
    assert (H1 : (k1, p1) ∈ filter Q (map_to_list db)) by (rewrite E; by left).
    assert (H2 : (k2, p2) ∈ filter Q (map_to_list db))
      by (rewrite E; right; by left).
    apply list_elem_of_filter in H1 as [Q1 H1], H2 as [Q2 H2].
    apply elem_of_map_to_list in H1, H2.
    pose proof (Hone k1 p1 k2 p2 H1 H2 Q1 Q2) as ->.
    assert (p1 = p2) as -> by congruence.
    apply NoDup_cons in Hnd as [Hnot _]. apply Hnot. by left.
  - intros Hlen k1 p1 k2 p2 H1 H2 Q1 Q2.
    destruct (decide (k1 = k2)) as [|Hne]; [done|exfalso].
    assert (Hin1 : (k1, p1) ∈ filter Q (map_to_list db)).
    { apply list_elem_of_filter. split; [done|]. by apply elem_of_map_to_list. }
    assert (Hin2 : (k2, p2) ∈ filter Q (map_to_list db)).
    { apply list_elem_of_filter. split; [done|]. by apply elem_of_map_to_list. }
    destruct (filter Q (map_to_list db)) as [|a [|b l]]; simpl in Hlen; [|..].
    + by apply elem_of_nil in Hin1.
    + apply list_elem_of_singleton in Hin1, Hin2. congruence.
    + lia.
Qed.

Lemma size_delete_rows rows (db : gmap positive Pet.t) :
  NoDup rows.*1 → (∀ kv, kv ∈ rows → db !! kv.1 = Some kv.2) →
  (size (delete_rows rows db) + length rows = size db)%nat.
Proof.
  revert db. induction rows as [|[pk pet] rows IH]; intros db Hnd Hin.
  - simpl. lia.
  - change (delete_rows ((pk, pet) :: rows) db)
      with (delete_rows rows (delete pk db)).
    rewrite fmap_cons in Hnd. apply NoDup_cons in Hnd as [Hpk Hnd].
    assert (Hhere : db !! pk = Some pet) by (apply (Hin (pk, pet)); by left).
    assert (Hrest : ∀ kv, kv ∈ rows → delete pk db !! kv.1 = Some kv.2).
    { intros [k p] Hkp. cbn [fst snd].
      rewrite lookup_delete_ne; [apply (Hin (k, p)); by right|].
      intros <-. apply Hpk. apply list_elem_of_fmap. by exists (pk, p). }
    pose proof (IH (delete pk db) Hnd Hrest) as Hsize.
    rewrite map_size_delete_Some in Hsize by eauto.
    assert (size db ≠ 0)%nat by (by eapply map_size_ne_0_lookup_2).
    simpl. lia.
Qed.

Section group.
Context (Q : positive * Pet.t → Prop) `{∀ kv, Decision (Q kv)}.
Context (db : gmap positive Pet.t).

Lemma selected_spec kv : kv ∈ selected Q db ↔ Q kv ∧ db !! kv.1 = Some kv.2.
Proof.
  unfold selected, Objects.order_by_created_desc.
  rewrite merge_sort_Permutation, list_elem_of_filter.
  destruct kv as [k p]. by rewrite elem_of_map_to_list.
Qed.

Lemma selected_NoDup : NoDup (selected Q db).*1.
Proof.
  unfold selected, Objects.order_by_created_desc. rewrite merge_sort_Permutation.
  eapply sublist_NoDup; [apply (NoDup_fst_map_to_list db)|].
  apply fmap_sublist, sublist_filter.
Qed.

Lemma tail_elem_of {A} (l : list A) x : x ∈ tail l → x ∈ l.
Proof. destruct l; [done|]. by right. Qed.

Lemma sweep_group_lookup c i :
  (sweep_group Q (c, db)).2 !! i =
  if decide (i ∈ (tail (selected Q db)).*1) then None else db !! i.
Proof. unfold sweep_group. apply lookup_delete_rows. Qed.

Lemma sweep_group_subseteq c : (sweep_group Q (c, db)).2 ⊆ db.
Proof.
  apply map_subseteq_spec. intros i x. rewrite sweep_group_lookup.
  by destruct (decide _).
Qed.

Lemma sweep_group_count c :
  (sweep_group Q (c, db)).1 - c =
  Z.of_nat (size db) - Z.of_nat (size (sweep_group Q (c, db)).2).
Proof.
  unfold sweep_group. cbn [fst snd].
  assert (Hnd : NoDup (tail (selected Q db)).*1).
  { pose proof selected_NoDup as Hnd. destruct (selected Q db) as [|x l]; [done|].
    rewrite fmap_cons in Hnd. by apply NoDup_cons in Hnd as [_ ?]. }
  pose proof (size_delete_rows (tail (selected Q db)) db Hnd) as Hsize.
  rewrite <- Hsize; [lia|].
  intros kv Hkv%tail_elem_of. by apply selected_spec in Hkv as [_ ?].
Qed.

Lemma sweep_group_at_most_one c : at_most_one Q (sweep_group Q (c, db)).2.
Proof.
  assert (Hhead : ∀ k p, (sweep_group Q (c, db)).2 !! k = Some p → Q (k, p) →
            head (selected Q db) = Some (k, p)).
  { intros k p Hk HQ. rewrite sweep_group_lookup in Hk.
    destruct (decide (k ∈ (tail (selected Q db)).*1)) as [|Hnot]; [done|].
    assert (Hin : (k, p) ∈ selected Q db) by (by apply selected_spec).
    destruct (selected Q db) as [|x l]; [by apply elem_of_nil in Hin|].
    apply elem_of_cons in Hin as [->|Hin]; [done|].
    exfalso. apply Hnot. apply list_elem_of_fmap. by exists (k, p). }
  intros k1 p1 k2 p2 H1 H2 Q1 Q2.
  pose proof (Hhead k1 p1 H1 Q1) as E1. pose proof (Hhead k2 p2 H2 Q2) as E2.
  congruence.
Qed.

Lemma sweep_group_others c k p :
  db !! k = Some p → ¬ Q (k, p) → (sweep_group Q (c, db)).2 !! k = Some p.
Proof.
  intros Hk HQ. rewrite sweep_group_lookup.
  destruct (decide (k ∈ (tail (selected Q db)).*1)) as [Hin|]; [exfalso|done].
  apply list_elem_of_fmap in Hin as ([k' p'] & -> & Hin%tail_elem_of).
  apply selected_spec in Hin as [HQ' Hk']. simpl in *. congruence.
Qed.

End group.

Section pass.
Context {K : Type} (Q : K → positive * Pet.t → Prop) `{∀ k kv, Decision (Q k kv)}.

Lemma sweep_pass_facts groups c db :
  (sweep_pass Q groups (c, db)).2 ⊆ db ∧
  (sweep_pass Q groups (c, db)).1 - c =
    Z.of_nat (size db) - Z.of_nat (size (sweep_pass Q groups (c, db)).2) ∧
  (∀ k, k ∈ groups → at_most_one (Q k) (sweep_pass Q groups (c, db)).2).
Proof.
  unfold sweep_pass. revert c db.
  induction groups as [|k groups IH]; intros c db.
  - simpl. split; [done|]. split; [lia|]. intros k Hk. by apply elem_of_nil in Hk.
  - cbn [foldl].
    pose proof (sweep_group_subseteq (Q k) db c) as Hsub.
    pose proof (sweep_group_count (Q k) db c) as Hcount.
    pose proof (sweep_group_at_most_one (Q k) db c) as Hone.
    destruct (sweep_group (Q k) (c, db)) as [c' db']. cbn [fst snd] in *.
    destruct (IH c' db') as (Hsub' & Hcount' & Hone').
    split; [by etrans|]. split; [lia|].
    intros k' [->|Hk']%elem_of_cons; [|by apply Hone'].
    by eapply at_most_one_subseteq.
Qed.

End pass.

Lemma mbind_Ok {A B} (m : M A) (k : A → M B) w a w1 :
  m w = (Ok a, w1) → (m ≫= k) w = k a w1.
Proof. unfold mbind, M_bind, bind. by intros ->. Qed.

Lemma for_each_delete_pass {K}
    (rows_of : K → gmap positive Pet.t → list (positive * Pet.t))
    (msg : Pet.t → message) groups c w :
  ∃ t,
    for_each groups
      (λ k removed_count,
         db ← get_pets;
         delete_all_but_first (rows_of k db) msg removed_count) c w =
    (Ok (foldl (λ s k, (s.1 + Z.of_nat (length (tail (rows_of k s.2))),
                        delete_rows (tail (rows_of k s.2)) s.2))
               (c, pets w) groups).1,
     mkWorld (foldl (λ s k, (s.1 + Z.of_nat (length (tail (rows_of k s.2))),
                             delete_rows (tail (rows_of k s.2)) s.2))
                    (c, pets w) groups).2
             (clock w) (trace w ++ t)).
Proof.
  set (body := λ (k : K) (removed_count : Z),
         db ← get_pets; delete_all_but_first (rows_of k db) msg removed_count).
  assert (Hbody : ∀ k c w, body k c w =
            delete_all_but_first (rows_of k (pets w)) msg c w) by reflexivity.
  revert c w. induction groups as [|k groups IH]; intros c w.
  - exists []. simpl. rewrite app_nil_r. by destruct w.
  - cbn [for_each foldl]. unfold bind.
    rewrite Hbody, delete_all_but_first_spec.
    match goal with
    | |- context [for_each groups body ?c' ?w'] =>
        destruct (IH c' w') as [t Ht]
    end.
    rewrite Ht. cbn [pets clock trace fst snd]. eexists.
    rewrite <- app_assoc. reflexivity.
Qed.

Lemma profile_pass_spec groups c w :
  ∃ t,
    for_each groups
      (λ duplicate removed_count,
         db ← get_pets;
         let pets := Objects.filter_profile_url duplicate db in
         delete_all_but_first pets
           (λ pet, RemovedDuplicateByProfileUrl (Pet.name pet)) removed_count)
      c w =
    (Ok (sweep_pass has_profile_url groups (c, pets w)).1,
     mkWorld (sweep_pass has_profile_url groups (c, pets w)).2 (clock w)
       (trace w ++ t)).
Proof.
  exact (for_each_delete_pass (λ u db, Objects.filter_profile_url u db)
           (λ pet, RemovedDuplicateByProfileUrl (Pet.name pet)) groups c w).
Qed.

Lemma name_breed_pass_spec groups c w :
  ∃ t,
    for_each groups
      (λ duplicate removed_count,
         db ← get_pets;
         let pets := Objects.filter_name_breed duplicate.1 duplicate.2 db in
         delete_all_but_first pets
           (λ pet, RemovedDuplicateByNameBreed (Pet.name pet) (Pet.primary_breed pet))
           removed_count)
      c w =
    (Ok (sweep_pass has_name_breed groups (c, pets w)).1,
     mkWorld (sweep_pass has_name_breed groups (c, pets w)).2 (clock w)
       (trace w ++ t)).
Proof.
  exact (for_each_delete_pass
           (λ (nb : string * option string) db,
              Objects.filter_name_breed nb.1 nb.2 db)
           (λ pet, RemovedDuplicateByNameBreed (Pet.name pet) (Pet.primary_breed pet))
           groups c w).
Qed.

Lemma remove_duplicate_pets_spec w :
  ∃ t,
    remove_duplicate_pets w =
    (Ok (swept (pets w)).1,
     mkWorld (swept (pets w)).2 (clock w) (trace w ++ t)).
Proof.
  destruct (profile_pass_spec (profile_duplicates (pets w)) 0 w) as [t1 H1].
  set (s1 := sweep_pass has_profile_url (profile_duplicates (pets w)) (0, pets w)) in *.
  destruct (name_breed_pass_spec (name_breed_duplicates s1.2) s1.1
              (mkWorld s1.2 (clock w) (trace w ++ t1))) as [t2 H2].
  exists (t1 ++ t2 ++ [Log INFO (RemovedDuplicates (swept (pets w)).1)]).
  unfold remove_duplicate_pets.
  rewrite (mbind_Ok get_pets _ w (pets w) w eq_refl).
  rewrite (mbind_Ok _ _ w _ _ H1).
  rewrite (mbind_Ok get_pets _ (mkWorld s1.2 (clock w) (trace w ++ t1)) s1.2 _
             eq_refl).
  rewrite (mbind_Ok _ _ _ _ _ H2).
  unfold swept. fold s1. cbn [pets clock trace].
  replace (s1.1, s1.2) with s1 by (by destruct s1).
  unfold mbind, M_bind, bind, log, emit, mret, M_ret, ret. cbn [pets clock trace].
  by rewrite <- !app_assoc.
Qed.

Lemma unique_profile_urls_at_most_one db :
  unique_profile_urls db ↔
  ∀ u, u ≠ EmptyString → at_most_one (has_profile_url u) db.
Proof.
  unfold unique_profile_urls, at_most_one, has_profile_url. split.
  - intros H u Hu k1 p1 k2 p2 H1 H2 Q1 Q2. by apply (H k1 k2 p1 p2 u).
  - intros H k1 k2 p1 p2 u H1 H2 Q1 Q2 Hu. by apply (H u Hu k1 p1 k2 p2).
Qed.

Lemma unique_name_breed_at_most_one db :
  unique_name_breed db ↔ ∀ nb, at_most_one (has_name_breed nb) db.
Proof.
  unfold unique_name_breed, at_most_one, has_name_breed. split.
  - intros H nb k1 p1 k2 p2 H1 H2 [N1 B1] [N2 B2]. simpl in *.
    apply (H k1 k2 p1 p2); congruence.
  - intros H k1 k2 p1 p2 H1 H2 N B.
    by apply (H (Pet.name p1, Pet.primary_breed p1) k1 p1 k2 p2).
Qed.

Lemma not_profile_duplicate u db :
  u ≠ EmptyString → u ∉ profile_duplicates db → at_most_one (has_profile_url u) db.
Proof.
  intros Hu Hnot. apply (at_most_one_filter_length (has_profile_url u) db).
  destruct (decide (length (filter (has_profile_url u) (map_to_list db)) ≤ 1)%nat)
    as [|Hlen]; [done|exfalso].
  apply Hnot. unfold profile_duplicates. apply list_elem_of_filter.
  split; [split; [done|]|].
  - change (1 < length (filter (has_profile_url u) (map_to_list db)))%nat. lia.
  - apply elem_of_remove_dups, list_elem_of_omap.
    destruct (filter (has_profile_url u) (map_to_list db)) as [|kv l] eqn:E;
      [simpl in Hlen; lia|].
    assert (Hin : kv ∈ filter (has_profile_url u) (map_to_list db))
      by (rewrite E; by left).
    apply list_elem_of_filter in Hin as [Hkv Hin]. by exists kv.
Qed.

Lemma not_name_breed_duplicate nb db :
  nb ∉ name_breed_duplicates db → at_most_one (has_name_breed nb) db.
Proof.
  intros Hnot. apply (at_most_one_filter_length (has_name_breed nb) db).
  destruct (decide (length (filter (has_name_breed nb) (map_to_list db)) ≤ 1)%nat)
    as [|Hlen]; [done|exfalso].
  apply Hnot. unfold name_breed_duplicates. apply list_elem_of_filter. split.
  - change (1 < length (filter (has_name_breed nb) (map_to_list db)))%nat. lia.
  - apply elem_of_remove_dups, list_elem_of_fmap.
    destruct (filter (has_name_breed nb) (map_to_list db)) as [|kv l] eqn:E;
      [simpl in Hlen; lia|].
    assert (Hin : kv ∈ filter (has_name_breed nb) (map_to_list db))
      by (rewrite E; by left).
    apply list_elem_of_filter in Hin as [[Hn Hb] Hin]. exists kv.
    split; [|done]. destruct nb. simpl in *. congruence.
Qed.

Lemma filter_nil_not {A} (P : A → Prop) `{∀ x, Decision (P x)} (l : list A) :
  (∀ x, x ∈ l → ¬ P x) → filter P l = [].
Proof.
  intros Hnot. destruct (filter P l) as [|x l'] eqn:E; [done|exfalso].
  assert (Hin : x ∈ filter P l) by (rewrite E; by left).
  apply list_elem_of_filter in Hin as [HP Hin]. by apply (Hnot x).
Qed.

Lemma no_profile_duplicates db :
  unique_profile_urls db → profile_duplicates db = [].
Proof.
  intros Hu. unfold profile_duplicates. apply filter_nil_not.
  intros u _ [Hne Hlen].
  pose proof (proj1 (unique_profile_urls_at_most_one db) Hu u Hne) as Hone.
  apply (at_most_one_filter_length (has_profile_url u) db) in Hone.
  change (1 < length (filter (has_profile_url u) (map_to_list db)))%nat in Hlen.
  lia.
Qed.

Lemma no_name_breed_duplicates db :
  unique_name_breed db → name_breed_duplicates db = [].
Proof.
  intros Hu. unfold name_breed_duplicates. apply filter_nil_not.
  intros nb _ Hlen.
  pose proof (proj1 (unique_name_breed_at_most_one db) Hu nb) as Hone.
  apply (at_most_one_filter_length (has_name_breed nb) db) in Hone.
  change (1 < length (filter (has_name_breed nb) (map_to_list db)))%nat in Hlen.
  lia.
Qed.

Lemma swept_facts db :
  (swept db).2 ⊆ db ∧
  (swept db).1 = Z.of_nat (size db) - Z.of_nat (size (swept db).2) ∧
  unique_profile_urls (swept db).2 ∧
  unique_name_breed (swept db).2.
Proof.
  unfold swept.
  destruct (sweep_pass_facts has_profile_url (profile_duplicates db) 0 db)
    as (Hsub1 & Hcount1 & Hone1).
  destruct (sweep_pass has_profile_url (profile_duplicates db) (0, db))
    as [c1 db1] eqn:E1. cbn [fst snd] in *.
  destruct (sweep_pass_facts has_name_breed (name_breed_duplicates db1) c1 db1)
    as (Hsub2 & Hcount2 & Hone2).
  destruct (sweep_pass has_name_breed (name_breed_duplicates db1) (c1, db1))
    as [c2 db2] eqn:E2. cbn [fst snd] in *.
  split; [by etrans|]. split; [lia|]. split.
  - apply (proj2 (unique_profile_urls_at_most_one db2)). intros u Hu.
    apply (at_most_one_subseteq _ db1); [done|].
    destruct (decide (u ∈ profile_duplicates db)) as [Hin|Hnot]; [by apply Hone1|].
    apply (at_most_one_subseteq _ db); [done|]. by apply not_profile_duplicate.
  - apply (proj2 (unique_name_breed_at_most_one db2)). intros nb.
    destruct (decide (nb ∈ name_breed_duplicates db1)) as [Hin|Hnot];
      [by apply Hone2|].
    apply (at_most_one_subseteq _ db1); [done|]. by apply not_name_breed_duplicate.
Qed.

Lemma swept_clean db :
  unique_profile_urls db → unique_name_breed db → swept db = (0, db).
Proof.
  intros Hu Hn. unfold swept.
  rewrite (no_profile_duplicates db Hu). cbn [sweep_pass foldl fst snd].
  by rewrite (no_name_breed_duplicates db Hn).
Qed.

Lemma covered_refl db : covered db db.
Proof. intros k p H. by exists k, p. Qed.

Lemma covered_trans db1 db2 db3 : covered db1 db2 → covered db2 db3 → covered db1 db3.
Proof.
  intros H12 H23 k p H. destruct (H12 k p H) as (k2 & p2 & H2 & L2).
  destruct (H23 k2 p2 H2) as (k3 & p3 & H3 & L3). exists k3, p3. split; [done|lia].
Qed.

Lemma sweep_group_covered Q `{∀ kv, Decision (Q kv)} db c :
  covered db (sweep_group Q (c, db)).2.
Proof.
  intros k p Hk.
  destruct (decide (k ∈ (tail (selected Q db)).*1)) as [Hin|Hnot].
  2:{ exists k, p. split; [|lia]. rewrite sweep_group_lookup.
      by rewrite decide_False. }
  pose proof (selected_NoDup Q db) as Hnd.
  pose proof (selected_spec Q db) as Hspec.
  assert (Hsorted : StronglySorted Objects.newer (selected Q db)).
  { unfold selected, Objects.order_by_created_desc.
    apply StronglySorted_merge_sort; apply _. }
  destruct (selected Q db) as [|[k0 p0] l] eqn:E; [by apply elem_of_nil in Hin|].
  cbn [tail] in Hin. rewrite fmap_cons in Hnd. apply NoDup_cons in Hnd as [Hk0 _].
  apply StronglySorted_inv in Hsorted as [_ Hhd]. rewrite Forall_forall in Hhd.
  apply list_elem_of_fmap in Hin as ([k' p'] & -> & Hin).
  assert (p' = p) as ->.
  { destruct (proj1 (Hspec (k', p')) ltac:(by right)) as [_ H']. simpl in *.
    congruence. }
  exists k0, p0. split.
  - rewrite sweep_group_lookup, E. cbn [tail].
    destruct (proj1 (Hspec (k0, p0)) ltac:(by left)) as [_ H0].
    by rewrite decide_False.
  - specialize (Hhd _ Hin). unfold Objects.newer in Hhd. done.
Qed.

Lemma sweep_pass_covered {K} (Q : K → positive * Pet.t → Prop)
    `{∀ k kv, Decision (Q k kv)} groups c db :
  covered db (sweep_pass Q groups (c, db)).2.
Proof.
  unfold sweep_pass. revert c db.
  induction groups as [|k groups IH]; intros c db; [apply covered_refl|].
  cbn [foldl]. pose proof (sweep_group_covered (Q k) db c) as Hstep.
  destruct (sweep_group (Q k) (c, db)) as [c' db']. cbn [snd] in Hstep.
  eapply covered_trans; [exact Hstep|apply IH].
Qed.

Lemma swept_covered db : covered db (swept db).2.
Proof.
  unfold swept.
  pose proof (sweep_pass_covered has_profile_url (profile_duplicates db) 0 db) as H1.
  destruct (sweep_pass has_profile_url (profile_duplicates db) (0, db))
    as [c1 db1]. cbn [fst snd] in *.
  eapply covered_trans; [exact H1|apply sweep_pass_covered].
Qed.

(** X8.  [remove_duplicate_pets] never raises; the count it returns is
    exactly the number of rows the table lost; the rows that remain are
    rows of the table, unchanged; the clock has not moved and no request
    and no pause has been made. *)
Theorem remove_duplicate_pets_accounting w :
  ∃ removed w',
    remove_duplicate_pets w = (Ok removed, w') ∧
    removed = Z.of_nat (size (pets w)) - Z.of_nat (size (pets w')) ∧
    pets w' ⊆ pets w ∧
    clock w' = clock w ∧
    requests w' = requests w.
Proof.
  pose proof (preserves_remove_duplicate_pets requests requests_log_blind
                requests_pets_blind w) as Hreq.
  destruct (remove_duplicate_pets_spec w) as [t Heq]. rewrite Heq in *.
  destruct (swept_facts (pets w)) as (Hsub & Hcount & _).
  do 2 eexists. split; [reflexivity|]. by cbn [pets clock].
Qed.

(** X9.  After the sweep, on any table, no two rows have the same
    non-empty profile identifier and no two rows have the same name and
    the same primary breed. *)
Theorem remove_duplicate_pets_establishes_uniqueness w :
  unique_profile_urls (pets (remove_duplicate_pets w).2) ∧
  unique_name_breed (pets (remove_duplicate_pets w).2).
Proof.
  destruct (remove_duplicate_pets_spec w) as [t ->]. cbn [snd pets].
  by destruct (swept_facts (pets w)) as (_ & _ & Hu & Hn).
Qed.

(** X10.  On a table without two rows of the same non-empty profile
    identifier and without two rows of the same name and primary breed,
    the sweep returns 0 and leaves the table as it was. *)
Theorem remove_duplicate_pets_clean_table w :
  unique_profile_urls (pets w) → unique_name_breed (pets w) →
  (remove_duplicate_pets w).1 = Ok 0 ∧
  pets (remove_duplicate_pets w).2 = pets w.
Proof.
  intros Hu Hn. destruct (remove_duplicate_pets_spec w) as [t ->].
  by rewrite (swept_clean (pets w) Hu Hn).
Qed.

(** X10, on a table with one row. *)
Lemma remove_duplicate_pets_clean_table_witness :
  (remove_duplicate_pets one_copy).1 = Ok 0 ∧
  pets (remove_duplicate_pets one_copy).2 = pets one_copy.
Proof.
  apply (remove_duplicate_pets_clean_table one_copy).
  - unfold one_copy. cbn [pets].
    intros k1 k2 p1 p2 u [<- _]%lookup_singleton_Some [<- _]%lookup_singleton_Some.
    reflexivity.
  - unfold one_copy. cbn [pets].
    intros k1 k2 p1 p2 [<- _]%lookup_singleton_Some [<- _]%lookup_singleton_Some.
    reflexivity.
Defined.

(** X11.  A second sweep right after a sweep returns 0 and leaves the
    table as the first sweep left it. *)
Theorem remove_duplicate_pets_idempotent w :
  let once := (remove_duplicate_pets w).2 in
  (remove_duplicate_pets once).1 = Ok 0 ∧
  pets (remove_duplicate_pets once).2 = pets once.
Proof.
  cbv zeta. destruct (remove_duplicate_pets_spec w) as [t ->]. cbn [snd].
  destruct (swept_facts (pets w)) as (_ & _ & Hu & Hn).
  match goal with
  | |- context [remove_duplicate_pets ?w1] =>
      destruct (remove_duplicate_pets_spec w1) as [t' ->]
  end.
  cbn [fst snd pets]. by rewrite (swept_clean _ Hu Hn).
Qed.

(** X12.  For every row of the table before the sweep, a row created at
    the same instant or later remains after it: the sweep never empties
    a table that held a row, and the latest creation instant survives. *)
Theorem remove_duplicate_pets_keeps_newest w pk pet :
  pets w !! pk = Some pet →
  ∃ pk' pet',
    pets (remove_duplicate_pets w).2 !! pk' = Some pet' ∧
    Pet.created_at pet ≤ Pet.created_at pet'.
Proof.
  intros Hpk. destruct (remove_duplicate_pets_spec w) as [t ->]. cbn [snd pets].
  exact (swept_covered (pets w) pk pet Hpk).
Qed.

(** X12, for the oldest of three copies. *)
Lemma remove_duplicate_pets_keeps_newest_witness :
  ∃ pk' pet',
    pets (remove_duplicate_pets three_copies).2 !! pk' = Some pet' ∧
    Pet.created_at (copy_of "https://www.petfinder.com/dog/rex-1" 10)
      ≤ Pet.created_at pet'.
Proof.
  apply (remove_duplicate_pets_keeps_newest three_copies 1%positive
           (copy_of "https://www.petfinder.com/dog/rex-1" 10)).
  reflexivity.
Defined.

Lemma sweep_group_spares Q `{∀ kv, Decision (Q kv)} db c k p :
  db !! k = Some p →
  (∀ k' p', db !! k' = Some p' → Q (k', p') → Q (k, p) →
     k' = k ∨ Pet.created_at p' < Pet.created_at p) →
  (sweep_group Q (c, db)).2 !! k = Some p.
Proof.
  intros Hk Hone. rewrite sweep_group_lookup.
  destruct (decide (k ∈ (tail (selected Q db)).*1)) as [Hin|]; [exfalso|done].
  pose proof (selected_NoDup Q db) as Hnd.
  pose proof (selected_spec Q db) as Hspec.
  assert (Hsorted : StronglySorted Objects.newer (selected Q db)).
  { unfold selected, Objects.order_by_created_desc.
    apply StronglySorted_merge_sort; apply _. }
  destruct (selected Q db) as [|[k0 p0] l]; [by apply elem_of_nil in Hin|].
  cbn [tail] in Hin. rewrite fmap_cons in Hnd. apply NoDup_cons in Hnd as [Hk0 _].
  apply StronglySorted_inv in Hsorted as [_ Hhd]. rewrite Forall_forall in Hhd.
  apply list_elem_of_fmap in Hin as ([k' p'] & -> & Hin).
  destruct (proj1 (Hspec (k', p')) ltac:(by right)) as [HQ H'].
  destruct (proj1 (Hspec (k0, p0)) ltac:(by left)) as [HQ0 H0].
  cbn [fst snd] in *. assert (p' = p) as -> by congruence.
  destruct (Hone k0 p0 H0 HQ0 HQ) as [->|Hlt].
  - apply Hk0. apply list_elem_of_fmap. by exists (k', p).
  - specialize (Hhd _ Hin). unfold Objects.newer in Hhd. cbn [snd] in Hhd. lia.
Qed.

Lemma sweep_pass_spares {K} (Q : K → positive * Pet.t → Prop)
    `{∀ k kv, Decision (Q k kv)} groups c db k p :
  db !! k = Some p →
  (∀ g, g ∈ groups →
     ∀ k' p', db !! k' = Some p' → Q g (k', p') → Q g (k, p) →
       k' = k ∨ Pet.created_at p' < Pet.created_at p) →
  (sweep_pass Q groups (c, db)).2 !! k = Some p.
Proof.
  unfold sweep_pass. revert c db.
  induction groups as [|g groups IH]; intros c db Hk Hone; [done|].
  cbn [foldl].
  pose proof (sweep_group_spares (Q g) db c k p Hk
                (Hone g ltac:(by left))) as Hstep.
  pose proof (sweep_group_subseteq (Q g) db c) as Hsub.
  destruct (sweep_group (Q g) (c, db)) as [c' db']. cbn [snd] in *.
  apply IH; [done|].
  intros g' Hg' k' p' H'. apply (Hone g' ltac:(by right)).
  by eapply lookup_weaken.
Qed.

Lemma swept_spares db k p :
  db !! k = Some p → unmatched db k p → (swept db).2 !! k = Some p.
Proof.
  intros Hk Hun. unfold swept.
  assert (H1 : (sweep_pass has_profile_url (profile_duplicates db) (0, db)).2 !! k
               = Some p).
  { apply sweep_pass_spares; [done|].
    intros u Hu k' p' H' Q' Q0. unfold has_profile_url in *. cbn [snd] in *.
    destruct (decide (k' = k)) as [|Hne]; [by left|exfalso].
    apply list_elem_of_filter in Hu as [[Hu _] _].
    destruct (Hun k' p' H' Hne) as [Hurl _]. by apply (Hurl u). }
  destruct (sweep_pass_facts has_profile_url (profile_duplicates db) 0 db)
    as (Hsub & _).
  destruct (sweep_pass has_profile_url (profile_duplicates db) (0, db))
    as [c1 db1]. cbn [fst snd] in *.
  apply sweep_pass_spares; [done|].
  intros nb _ k' p' H' [N' B'] [N0 B0]. cbn [snd] in *.
  destruct (decide (k' = k)) as [|Hne]; [by left|exfalso].
  destruct (Hun k' p' (lookup_weaken _ _ _ _ H' Hsub) Hne) as [_ Hnb].
  apply Hnb. split; congruence.
Qed.

(** The most recent row of a group of the first pass outlives the sweep
    when the second pass has no rival for it. *)
Lemma swept_keeps_newest db u k p :
  u ≠ EmptyString → newest_with u db k p → unrivalled u db p →
  (swept db).2 !! k = Some p.
Proof.
  intros Hu (Hk & Hurl & Hnewest) Hrival. unfold swept.
  assert (H1 : (sweep_pass has_profile_url (profile_duplicates db) (0, db)).2 !! k
               = Some p).
  { apply sweep_pass_spares; [done|].
    intros u' Hu' k' p' H' Q' Q0. unfold has_profile_url in *. cbn [snd] in *.
    destruct (decide (k' = k)) as [|Hne]; [by left|right].
    apply (Hnewest k' p' H'); [congruence|done]. }
  destruct (sweep_pass_facts has_profile_url (profile_duplicates db) 0 db)
    as (Hsub & _ & Hone).
  destruct (sweep_pass has_profile_url (profile_duplicates db) (0, db))
    as [c1 db1]. cbn [fst snd] in *.
  assert (Hgroup : at_most_one (has_profile_url u) db1).
  { destruct (decide (u ∈ profile_duplicates db)) as [Hin|Hnot]; [by apply Hone|].
    apply (at_most_one_subseteq _ db); [done|]. by apply not_profile_duplicate. }
  apply sweep_pass_spares; [done|].
  intros nb _ k' p' H' [N' B'] [N0 B0]. cbn [snd] in *. left.
  destruct (decide (Pet.profile_url p' = Some u)) as [Hsame|Hother].
  - by apply (Hgroup k' p' k p).
  - exfalso. apply (Hrival k' p' (lookup_weaken _ _ _ _ H' Hsub) Hother).
    split; congruence.
Qed.

(** C4 (amended).  Take a row with a non-empty profile identifier that
    was created strictly after every other row with that identifier, as
    the most recent of N rows with pairwise distinct creation instants
    is, in a table that may hold other rows; and let no row with another
    identifier, or with none, have both its name and its primary breed.
    Then after [remove_duplicate_pets] that row is in the table,
    unchanged, every other row that had the identifier is gone, so the
    row is the only one with the identifier, and the count returned is
    the number of rows the table lost. *)
Theorem C4_amended (u : string) (w : world) (pk : positive) (pet : Pet.t) :
  u ≠ EmptyString →
  newest_with u (pets w) pk pet →
  unrivalled u (pets w) pet →
  pets (remove_duplicate_pets w).2 !! pk = Some pet ∧
  (∀ pk' pet', pets w !! pk' = Some pet' → Pet.profile_url pet' = Some u →
     pk' ≠ pk → pets (remove_duplicate_pets w).2 !! pk' = None) ∧
  (∀ pk' pet', pets (remove_duplicate_pets w).2 !! pk' = Some pet' →
     Pet.profile_url pet' = Some u → pk' = pk) ∧
  (remove_duplicate_pets w).1
    = Ok (Z.of_nat (size (pets w))
          - Z.of_nat (size (pets (remove_duplicate_pets w).2))).
Proof.
  intros Hu Hnewest Hrival.
  pose proof (swept_keeps_newest (pets w) u pk pet Hu Hnewest Hrival) as Hkept.
  destruct Hnewest as (Hpk & Hurl & _).
  destruct (remove_duplicate_pets_spec w) as [t ->]. cbn [fst snd pets].
  destruct (swept_facts (pets w)) as (Hsub & Hcount & Hunique & _).
  assert (Hsole : ∀ pk' pet', (swept (pets w)).2 !! pk' = Some pet' →
            Pet.profile_url pet' = Some u → pk' = pk).
  { intros pk' pet' H' Hurl'. by apply (Hunique pk' pk pet' pet u). }
  split; [done|]. split; [|split; [done|by rewrite Hcount]].
  intros pk' pet' H' Hurl' Hne.
  destruct ((swept (pets w)).2 !! pk') as [pet''|] eqn:Hafter; [exfalso|done].
  pose proof (lookup_weaken _ _ _ _ Hafter Hsub) as Hbefore.
  apply Hne, (Hsole pk' pet''); [done|]. congruence.
Qed.

(** C4 (amended), for the most recent of three copies, in a table with
    a fourth row of another name. *)
Lemma C4_amended_witness :
  pets (remove_duplicate_pets mixed_table).2 !! 2%positive
    = Some (copy_of "https://www.petfinder.com/dog/rex-1" 30) ∧
  (∀ pk' pet', pets mixed_table !! pk' = Some pet' →
     Pet.profile_url pet' = Some "https://www.petfinder.com/dog/rex-1" →
     pk' ≠ 2%positive → pets (remove_duplicate_pets mixed_table).2 !! pk' = None) ∧
  (∀ pk' pet', pets (remove_duplicate_pets mixed_table).2 !! pk' = Some pet' →
     Pet.profile_url pet' = Some "https://www.petfinder.com/dog/rex-1" →
     pk' = 2%positive) ∧
  (remove_duplicate_pets mixed_table).1
    = Ok (Z.of_nat (size (pets mixed_table))
          - Z.of_nat (size (pets (remove_duplicate_pets mixed_table).2))).
Proof.
  apply (C4_amended "https://www.petfinder.com/dog/rex-1" mixed_table 2%positive
           (copy_of "https://www.petfinder.com/dog/rex-1" 30)).
  - discriminate.
  - split; [reflexivity|]. split; [reflexivity|].
    intros pk' pet' Hl Hurl Hne. apply elem_of_map_to_list in Hl.
    let l := eval vm_compute in (map_to_list (pets mixed_table)) in
    change (map_to_list (pets mixed_table)) with l in Hl.
    repeat (apply elem_of_cons in Hl as [Hl|Hl]; [injection Hl as -> ->|]);
      try (by apply elem_of_nil in Hl); try done; cbn; lia.
  - intros pk' pet' Hl Hurl. apply elem_of_map_to_list in Hl.
    let l := eval vm_compute in (map_to_list (pets mixed_table)) in
    change (map_to_list (pets mixed_table)) with l in Hl.
    repeat (apply elem_of_cons in Hl as [Hl|Hl]; [injection Hl as -> ->|]);
      try (by apply elem_of_nil in Hl); try (by exfalso; apply Hurl);
      intros [? _]; discriminate.
Defined.

(** C4 as stated fails when the table holds one more row: two rows share
    an identifier and were created at 10 and 30; a third row, created at
    50 under another identifier, has their name and primary breed.  The
    first pass removes the older copy, the second pass removes the other
    one as a duplicate of the third row: the sweep returns 2, not 1, and
    no row with the identifier remains. *)
Lemma C4_counterexample :
  let u := "https://www.petfinder.com/dog/rex-1" in
  pets rival_table !! 1%positive = Some (copy_of u 10) ∧
  pets rival_table !! 2%positive = Some (copy_of u 30) ∧
  (∀ pk pet, pets rival_table !! pk = Some pet → Pet.profile_url pet = Some u →
     pk = 1%positive ∨ pk = 2%positive) ∧
  (remove_duplicate_pets rival_table).1 = Ok 2 ∧
  (∀ pk pet, pets (remove_duplicate_pets rival_table).2 !! pk = Some pet →
     Pet.profile_url pet ≠ Some u).
Proof.
  cbv zeta. split; [reflexivity|]. split; [reflexivity|]. split; [|split].
  - intros pk pet Hl Hurl. apply elem_of_map_to_list in Hl.
    let l := eval vm_compute in (map_to_list (pets rival_table)) in
    change (map_to_list (pets rival_table)) with l in Hl.
    repeat (apply elem_of_cons in Hl as [Hl|Hl]; [injection Hl as -> ->|]);
      try (by apply elem_of_nil in Hl); try (by left); try (by right);
      discriminate Hurl.
  - vm_compute. reflexivity.
  - intros pk pet Hl. apply elem_of_map_to_list in Hl.
    let l := eval vm_compute in
      (map_to_list (pets (remove_duplicate_pets rival_table).2)) in
    change (map_to_list (pets (remove_duplicate_pets rival_table).2)) with l in Hl.
    repeat (apply elem_of_cons in Hl as [Hl|Hl]; [injection Hl as -> ->|]);
      try (by apply elem_of_nil in Hl); discriminate.
Qed.

(** X13.  The sweep never deletes a row without a duplicate: a row whose
    non-empty profile identifier no other row has, and whose name and
    primary breed no other row has together, is in the table after the
    sweep, unchanged. *)
Theorem remove_duplicate_pets_spares_unmatched w pk pet :
  pets w !! pk = Some pet →
  unmatched (pets w) pk pet →
  pets (remove_duplicate_pets w).2 !! pk = Some pet.
Proof.
  intros Hpk Hun. destruct (remove_duplicate_pets_spec w) as [t ->]. cbn [snd pets].
  by apply swept_spares.
Qed.

(** X13, for the fourth row of a table whose other three rows are copies. *)
Lemma remove_duplicate_pets_spares_unmatched_witness :
  pets (remove_duplicate_pets mixed_table).2 !! 4%positive
    = pets mixed_table !! 4%positive.
Proof.
  apply (remove_duplicate_pets_spares_unmatched mixed_table 4%positive).
  - reflexivity.
  - intros pk' pet' Hl Hne. apply elem_of_map_to_list in Hl.
    let l := eval vm_compute in (map_to_list (pets mixed_table)) in
    change (map_to_list (pets mixed_table)) with l in Hl.
    repeat (apply elem_of_cons in Hl as [Hl|Hl]; [injection Hl as -> ->|]);
      try (by apply elem_of_nil in Hl); try done;
      (split; [intros u _ [= <-]; discriminate | intros [? _]; discriminate]).
Defined.

(** ** The page fetcher: its effects and its outcomes *)

(** X14.  A call of [fetch_page_data] makes exactly one request, the one
    for its URL, and no pause; it leaves the table and the clock alone.
    When it returns, the parsed body contains [result].  When it raises,
    the exception is a [PetFinderAPIError] for a failed request, for a
    body that is not JSON or for a missing [result], or the [TypeError]
    of a body that supports no membership test; a [RequestException] or a
    [ValueError] never leaves the function. *)
Theorem fetch_page_data_contract ext url w :
  let r := fetch_page_data ext url w in
  pets r.2 = pets w ∧ clock r.2 = clock w ∧
  requests r.2 = requests w ++ [Get url] ∧
  match r.1 with
  | Ok data => contained_in "result" data = Ok true
  | Raise e =>
      e = TypeError ∨ e = PetFinderAPIError MissingResultKey ∨
      e = PetFinderAPIError InvalidJSONResponse ∨
      ∃ f, e = PetFinderAPIError (FailedToFetch f)
  end.
Proof.
  cbv zeta. destruct (fetch_page_data_events ext url w) as (logs & -> & Hlogs).
  cbn [fst snd pets clock]. split; [done|]. split; [done|]. split.
  - unfold requests. cbn [trace]. rewrite network_events_app.
    change (network_events (Log INFO (FetchingDataFrom url) :: Get url :: logs))
      with (Get url :: network_events logs).
    by rewrite Hlogs.
  - unfold fetch_result.
    destruct (session_get ext url) as [f|status json]; [eauto|].
    destruct ((400 <=? status) && (status <? 600)); [eauto|].
    destruct json as [data|]; [|eauto].
    destruct (contained_in "result" data) as [[|]|e] eqn:E; [done|eauto|].
    left. destruct data; simpl in E; try discriminate; by injection E as <-.
Qed.

(** ** The distance calculator: its range *)

Lemma atan2_quadrant (y x : R) :
  (0 <= y)%R → (0 <= x)%R → (0 <= atan2 y x <= PI / 2)%R.
Proof.
  intros Hy Hx. unfold atan2. pose proof PI_RGT_0 as Hpi.
  destruct (Rlt_dec 0 x) as [Hpos|Hnpos].
  - pose proof (atan_bound (y / x)) as [_ Hub].
    split; [|lra].
    destruct (Req_dec y 0) as [->|Hy0].
    + unfold Rdiv. rewrite Rmult_0_l, atan_0. lra.
    + assert (0 < y / x)%R by (apply Rdiv_lt_0_compat; lra).
      pose proof (atan_increasing 0 (y / x) ltac:(done)) as Hinc.
      rewrite atan_0 in Hinc. lra.
  - destruct (Rlt_dec x 0); [lra|].
    destruct (Rlt_dec 0 y); [lra|].
    destruct (Rlt_dec y 0); lra.
Qed.

Lemma haversine_range (lat1 lon1 lat2 lon2 : R) :
  (0 <= Pet.haversine lat1 lon1 lat2 lon2 <= 3959 * PI)%R.
Proof.
  unfold Pet.haversine. cbv zeta.
  match goal with
  | |- context [atan2 (sqrt ?a) (sqrt ?b)] =>
      pose proof (atan2_quadrant (sqrt a) (sqrt b) (sqrt_pos a) (sqrt_pos b))
  end.
  lra.
Qed.

(** X15.  A distance that [calculate_distance] returns is at least 0
    and at most 3959 times pi miles, half the circumference of the
    sphere the formula uses. *)
Theorem calculate_distance_range self target_lat target_lon d :
  Pet.calculate_distance self target_lat target_lon = Ok (Some d) →
  (0 <= d <= 3959 * PI)%R.
Proof.
  unfold Pet.calculate_distance.
  destruct (negb _); [discriminate|].
  destruct (number (Pet.latitude self)); [|discriminate].
  destruct (number target_lat); [|discriminate].
  destruct (number target_lon); [|discriminate].
  destruct (number (Pet.longitude self)); [|discriminate].
  cbn [mbind result_bind]. intros [= <-]. apply haversine_range.
Qed.

(** X15, between the points (47, -122) and (34, -118). *)
Lemma calculate_distance_range_witness :
  (0 <= Pet.haversine (Q2R (inject_Z 47)) (Q2R (inject_Z (-122)))
          (Q2R (inject_Z 34)) (Q2R (inject_Z (-118)))
     <= 3959 * PI)%R.
Proof.
  apply (calculate_distance_range (at_point (PyInt 47) (PyInt (-122)))
           (PyInt 34) (PyInt (-118))).
  reflexivity.
Defined.

(** ** The geocoder *)

Lemma geocoding_requests_app (w : world) t :
  geocoding_requests (mkWorld (pets w) (clock w) (trace w ++ t)) =
  geocoding_requests w ++
  List.filter (λ e, match e with GeocodeGet _ => true | _ => false end) t.
Proof. unfold geocoding_requests. cbn [trace]. apply List.filter_app. Qed.

Lemma get_coordinates_cases ext city state w :
  ∃ r l m,
    Geocoding.get_coordinates ext city state w =
      (Ok r, mkWorld (pets w) (clock w)
               (trace w ++ Log INFO (Geocoding (geocoding_query city state)) ::
                  GeocodeGet (geocoding_query city state) :: [Log l m])) ∧
    (r = (PyNone, PyNone) ∨ ∃ lat lon, r = (PyFloat lat, PyFloat lon)).
Proof.
  unfold Geocoding.get_coordinates.
  unfold try_except, mbind, M_bind, bind, mret, M_ret, ret, lift, log, emit,
    raise_for_status, response_json, raise, ret.
  fold (geocoding_query city state). set (query := geocoding_query city state).
  destruct (requests_get ext query) as [f|status json].
  { do 3 eexists. simpl. rewrite <- !app_assoc.
    split; [reflexivity|by left]. }
  destruct ((400 <=? status) && (status <? 600)).
  { do 3 eexists. simpl. rewrite <- !app_assoc.
    split; [reflexivity|by left]. }
  destruct json as [data|].
  2:{ do 3 eexists. simpl. rewrite <- !app_assoc.
      split; [reflexivity|by left]. }
  simpl.
  repeat match goal with
         | |- context [match ?x with _ => _ end] =>
             lazymatch type of x with
             | result _ => destruct x
             | bool => destruct x
             end; simpl
         end;
    do 3 eexists; simpl; rewrite <- ?app_assoc;
    (split; [reflexivity|]); eauto.
Qed.

(** X16.  [GeocodingService.get_coordinates] never raises, whatever
    the provider does.  It returns two floats or [(None, None)], never
    one coordinate without the other; it sends exactly one request to the
    provider, for the query made of the city, the state and USA; the
    table, the clock and the requests to the search API are as they were. *)
Theorem get_coordinates_never_raises ext city state w :
  ∃ r w',
    Geocoding.get_coordinates ext city state w = (Ok r, w') ∧
    (r = (PyNone, PyNone) ∨ ∃ lat lon, r = (PyFloat lat, PyFloat lon)) ∧
    pets w' = pets w ∧ clock w' = clock w ∧ requests w' = requests w ∧
    geocoding_requests w' =
      geocoding_requests w ++ [GeocodeGet (geocoding_query city state)].
Proof.
  destruct (get_coordinates_cases ext city state w) as (r & l & m & -> & Hr).
  do 2 eexists. split; [reflexivity|]. split; [done|].
  split; [done|]. split; [done|]. split.
  - unfold requests. cbn [trace]. rewrite network_events_app. apply app_nil_r.
  - by rewrite geocoding_requests_app.
Qed.

(** *** The cache key ignores letter case *)

Lemma to_lower_idemp a : to_lower (to_lower a) = to_lower a.
Proof. by destruct a as [[] [] [] [] [] [] [] []]. Qed.

Lemma to_upper_to_lower a : to_upper (to_lower a) = to_upper a.
Proof. by destruct a as [[] [] [] [] [] [] [] []]. Qed.

Lemma cased_to_lower a :
  is_upper (to_lower a) || is_lower (to_lower a) = is_upper a || is_lower a.
Proof. by destruct a as [[] [] [] [] [] [] [] []]. Qed.

Lemma is_space_to_lower a : is_space (to_lower a) = is_space a.
Proof. by destruct a as [[] [] [] [] [] [] [] []]. Qed.

Lemma lower_idemp s : lower (lower s) = lower s.
Proof. induction s as [|a s IH]; [done|]. simpl. by rewrite to_lower_idemp, IH. Qed.

Lemma upper_lower s : upper (lower s) = upper s.
Proof. induction s as [|a s IH]; [done|]. simpl. by rewrite to_upper_to_lower, IH. Qed.

Lemma title_from_lower b s : title_from b (lower s) = title_from b s.
Proof.
  revert b. induction s as [|a s IH]; intros b; [done|]. simpl.
  rewrite cased_to_lower, to_lower_idemp, to_upper_to_lower, !IH.
  destruct (is_upper a || is_lower a) eqn:E; [done|].
  apply orb_false_elim in E as [E _]. unfold to_lower. by rewrite E.
Qed.

Lemma title_lower s : title (lower s) = title s.
Proof. apply title_from_lower. Qed.

(** X17.  The lookup in the cache of city coordinates ignores letter
    case: when a city and state are in the cache, [get_coordinates_cached]
    returns the cached coordinates for every spelling that differs from
    them only in the case of letters, without a request to the geocoding
    provider or to the search API and without touching the table or the
    clock. *)
Theorem cached_coordinates_ignore_case ext city state city' state' lat lon w :
  Geocoding.CITY_COORDINATES_CACHE !! (title city, upper state) = Some (lat, lon) →
  lower city' = lower city → lower state' = lower state →
  ∃ w',
    Geocoding.get_coordinates_cached ext city' state' w
      = (Ok (PyFloat lat, PyFloat lon), w') ∧
    pets w' = pets w ∧ clock w' = clock w ∧ requests w' = requests w ∧
    geocoding_requests w' = geocoding_requests w.
Proof.
  intros Hhit Hcity Hstate. unfold Geocoding.get_coordinates_cached.
  rewrite <- (title_lower city'), <- (upper_lower state'), Hcity, Hstate,
    title_lower, upper_lower, Hhit.
  eexists. split; [reflexivity|]. cbn [pets clock].
  split; [done|]. split; [done|]. split.
  - unfold requests. cbn [trace]. rewrite network_events_app. apply app_nil_r.
  - unfold geocoding_requests. cbn [trace]. rewrite List.filter_app. apply app_nil_r.
Qed.

(** X17, for Seattle, WA, spelled with the cases swapped. *)
Lemma cached_coordinates_ignore_case_witness :
  ∃ w',
    Geocoding.get_coordinates_cached offline "sEATTLE" "wa" w_init
      = (Ok (PyFloat 47.6062, PyFloat (-122.3321)), w') ∧
    pets w' = pets w_init ∧ clock w' = clock w_init ∧
    requests w' = requests w_init ∧
    geocoding_requests w' = geocoding_requests w_init.
Proof.
  apply (cached_coordinates_ignore_case offline "Seattle" "WA" "sEATTLE" "wa"
           47.6062%Q (-122.3321)%Q w_init); reflexivity.
Defined.

(** ** The records the extractor builds *)

Lemma lstrip_lower s : lstrip (lower s) = lower (lstrip s).
Proof.
  induction s as [|a s IH]; [done|]. simpl. rewrite is_space_to_lower.
  by destruct (is_space a).
Qed.

Lemma rstrip_lower s : rstrip (lower s) = lower (rstrip s).
Proof.
  induction s as [|a s IH]; [done|]. simpl. rewrite IH, is_space_to_lower.
  destruct (rstrip s); simpl; [by destruct (is_space a)|done].
Qed.

Lemma strip_lower s : strip (lower s) = lower (strip s).
Proof. unfold strip. by rewrite lstrip_lower, rstrip_lower. Qed.

Lemma stripped_strip d k s : stripped d k = Ok s → strip s = s.
Proof.
  unfold stripped. intros H. bind_ok H.
  match type of H with
  | str_strip ?v = _ => destruct v; try discriminate H; injection H as <-
  end.
  apply strip_idemp.
Qed.

Lemma lower_stripped d k s :
  lower <$> stripped d k = Ok s → lower s = s ∧ strip s = s.
Proof.
  destruct (stripped d k) as [t|e] eqn:E; [|discriminate]. intros [= <-].
  split; [apply lower_idemp|]. by rewrite strip_lower, (stripped_strip d k t).
Qed.

(** X18.  A record that [extract_pet_data] returns is stamped with the
    instant of the extraction, and its texts are in normal form: name,
    primary breed, primary color, age, profile identifier and photo URL
    are present and carry no surrounding whitespace; sex, size and coat
    length are present, carry no surrounding whitespace and hold no
    upper-case letter. *)
Theorem extract_pet_data_canonical ext now pet_data d :
  extract_pet_data ext now pet_data = Ok d →
  PetData.scraped_at d = Some now ∧
  stripped_text (PetData.name d) ∧
  stripped_text (PetData.primary_breed d) ∧
  stripped_text (PetData.primary_color d) ∧
  stripped_text (PetData.age d) ∧
  stripped_text (PetData.profile_url d) ∧
  stripped_text (PetData.photo_url d) ∧
  lowered_text (PetData.sex d) ∧
  lowered_text (PetData.size d) ∧
  lowered_text (PetData.coat_length d).
Proof.
  unfold extract_pet_data. intros H. bind_ok H.
  match type of H with
  | context [let '(_, _) := ?p in _] => destruct p as [address_keys geo_keys]
  end.
  bind_ok H. injection H as <-. cbn.
  repeat match goal with
         | E : lower <$> stripped _ _ = Ok _ |- _ => apply lower_stripped in E
         | E : stripped _ _ = Ok _ |- _ => apply stripped_strip in E
         | E : (if ?b then _ else Ok EmptyString) = Ok _ |- _ =>
             destruct b; [bind_ok E|injection E as <-]
         | E : str_strip ?v = Ok _ |- _ =>
             destruct v; try discriminate E; injection E as <-
         end;
    unfold stripped_text, lowered_text;
    repeat split; eexists; (split; [reflexivity|]); try done;
    try apply strip_idemp.
Qed.

(** X18, for an animal whose texts are padded and capitalised. *)
Lemma extract_pet_data_canonical_witness :
  ∃ d,
    extract_pet_data offline 7 padded_animal = Ok d ∧
    PetData.scraped_at d = Some 7 ∧
    stripped_text (PetData.name d) ∧
    stripped_text (PetData.primary_breed d) ∧
    stripped_text (PetData.primary_color d) ∧
    stripped_text (PetData.age d) ∧
    stripped_text (PetData.profile_url d) ∧
    stripped_text (PetData.photo_url d) ∧
    lowered_text (PetData.sex d) ∧
    lowered_text (PetData.size d) ∧
    lowered_text (PetData.coat_length d).
Proof.
  eexists. split; [vm_compute; reflexivity|].
  apply (extract_pet_data_canonical offline 7 padded_animal).
  vm_compute. reflexivity.
Defined.

Import Views.

(** ** A search from the home page *)

Lemma clear_all_pets_spec w :
  clear_all_pets w =
  (Ok (Z.of_nat (size (pets w))),
   mkWorld ∅ (clock w) (trace w ++ [Log INFO (DeletedPets (Z.of_nat (size (pets w))))])).
Proof. reflexivity. Qed.

Lemma scrape_pets_outcome ext city state animal max_pages distance w :
  (∃ cause w',
     scrape_pets ext city state animal max_pages distance w
       = (Raise (PetFinderAPIError (ScrapingFailed cause)), w') ∧
     pets w' = pets w) ∨
  (∃ total_pages pets_saved w',
     scrape_pets ext city state animal max_pages distance w
       = (Ok (total_pages, pets_saved), w') ∧
     0 ≤ pets_saved ∧
     (Z.of_nat (size (pets w')) = Z.of_nat (size (pets w)) + pets_saved ∨
      pets w' = pets w) ∧
     (unique_profile_urls (pets w) → unique_profile_urls (pets w'))).
Proof.
  destruct (scrape_plan ext city state animal max_pages distance)
    as [[[[first_page_data total_pages] pages_to_scrape] page_nums]|cause] eqn:Hplan.
  - right.
    destruct (scrape_pets_returns ext city state animal max_pages distance w _ _ _ _
                Hplan) as (w1 & n & _ & _ & _ & _ & Heq).
    cbv zeta in Heq.
    destruct (scrape_pets_table ext city state animal max_pages distance w)
      as [(e & Hr & _)
         |(search & now & pets_data & total & saved & Hn & Hres & Hpos & Hcase)].
    { rewrite Heq in Hr. discriminate Hr. }
    rewrite Heq in Hres, Hcase. cbn [fst snd] in Hres, Hcase.
    injection Hres as _ Hsaved.
    do 3 eexists. split; [exact Heq|]. rewrite Hsaved. split; [done|].
    destruct Hcase as [Hsame|[-> Htable]].
    + split; [by right|]. intros Hu. cbn [pets] in Hsame. cbn [pets].
      by rewrite Hsame.
    + cbn [pets] in *. rewrite Htable.
      destruct (run_step ext search distance now pets_data (mkCounters 0 0 0) (pets w))
        as (_ & _ & Hsize). cbn [saved_count] in Hsize. split; [left; lia|].
      intros Hu. by apply run_unique.
  - left.
    destruct (scrape_pets_raises ext city state animal max_pages distance w _ Hplan)
      as (w' & Heq & Hp & _). eauto.
Qed.

Lemma scrape_pets_one_page ext city state animal distance w :
  requests (scrape_pets ext city state animal 1 distance w).2
    = requests w ++ [Get (page_url city state animal distance 1)] ∧
  clock (scrape_pets ext city state animal 1 distance w).2 = clock w.
Proof.
  destruct (scrape_plan ext city state animal 1 distance)
    as [[[[first_page_data total_pages] pages_to_scrape] page_nums]|cause] eqn:Hplan.
  - destruct (scrape_pets_returns ext city state animal 1 distance w _ _ _ _
                Hplan) as (w1 & n & _ & Hclock & Hreq & _ & Heq).
    cbv zeta in Heq. rewrite Heq. clear Heq. cbn [snd clock].
    pose proof (preserves_save_pets_to_database requests ext
                  (scraped ext city state animal distance first_page_data page_nums
                     ([], clock w)).1 (Some city) (Some state) distance
                  requests_log_blind requests_pets_blind w1) as Hsave.
    pose proof (preserves_save_pets_to_database clock ext
                  (scraped ext city state animal distance first_page_data page_nums
                     ([], clock w)).1 (Some city) (Some state) distance
                  (trace_blind_log_blind _ clock_trace_blind) clock_pets_blind w1)
      as Hsavec.
    rewrite requests_log_blind by reflexivity. rewrite Hsave, Hsavec, Hreq, Hclock.
    destruct (planned_pages _ _ _ _ _ _ _ _ _ _ Hplan) as (k & Hk & ->).
    destruct (Z.le_gt_cases k 0) as [H0|H0].
    + by rewrite seqZ_nil.
    + by replace k with 1 by lia.
  - destruct (scrape_pets_raises ext city state animal 1 distance w _ Hplan)
      as (w' & -> & _ & Hc & Hr). done.
Qed.

(** X19.  A search posted from the home page with a valid form, whose
    distance reads as an integer, ends in one of two ways, whatever the
    table held.  Either the success message is issued: no two rows have
    the same non-empty profile identifier, and the number of new pets the
    message reports is not negative and is the number of rows of the
    table, unless the transaction of the batch was rolled back, in which
    case the table is empty whatever the message reports.  Or the scrape
    failed: the error is logged and reported, and the table is empty,
    because the rows were cleared before the scrape started.  In both
    cases the first message, if the table held rows, reports how many
    were cleared. *)
Theorem post_search_outcome ext city state animal distance d w :
  search_distance distance = Ok d →
  let r := HomePageView.post ext (Valid city state animal distance) w in
  (∃ total_pages pets_saved,
     r.1 = cleared_message (pets w) ++
           [Message success (FreshSearchCompleted pets_saved city state total_pages)] ∧
     0 ≤ pets_saved ∧
     (Z.of_nat (size (pets r.2)) = pets_saved ∨ pets r.2 = ∅) ∧
     unique_profile_urls (pets r.2)) ∨
  (∃ e,
     r.1 = cleared_message (pets w) ++
           [LoggerError (ScrapingError e); Message error (FailedToScrapePets e)] ∧
     pets r.2 = ∅).
Proof.
  intros Hd. cbv zeta. unfold HomePageView.post. rewrite Hd, clear_all_pets_spec.
  fold (cleared_message (pets w)).
  set (w0 := mkWorld ∅ (clock w) _).
  destruct (scrape_pets_outcome ext city state animal 1 (Some d) w0)
    as [(cause & w' & -> & Hp)
       |(total_pages & pets_saved & w' & -> & Hpos & Hsize & Hu)].
  - right. eexists. split; [reflexivity|]. exact Hp.
  - left. exists total_pages, pets_saved. cbn [fst snd].
    split; [reflexivity|]. split; [done|]. split.
    + destruct Hsize as [Hsize|Hsame]; [left|by right].
      cbn [pets w0] in Hsize. rewrite map_size_empty in Hsize. lia.
    + apply Hu. intros k1 k2 p1 p2 u H1.
      exact (False_ind _ (lookup_empty_Some k1 p1 H1)).
Qed.

(** X19, for a server whose first page times out, on a table of three rows. *)
Lemma post_search_outcome_witness :
  let r := HomePageView.post first_page_down
             (Valid "Seattle" "WA" "dog" (PyStr "100")) three_copies in
  (∃ total_pages pets_saved,
     r.1 = cleared_message (pets three_copies) ++
           [Message success
              (FreshSearchCompleted pets_saved "Seattle" "WA" total_pages)] ∧
     0 ≤ pets_saved ∧
     (Z.of_nat (size (pets r.2)) = pets_saved ∨ pets r.2 = ∅) ∧
     unique_profile_urls (pets r.2)) ∨
  (∃ e,
     r.1 = cleared_message (pets three_copies) ++
           [LoggerError (ScrapingError e); Message error (FailedToScrapePets e)] ∧
     pets r.2 = ∅).
Proof.
  apply (post_search_outcome first_page_down "Seattle" "WA" "dog" (PyStr "100") 100
           three_copies).
  reflexivity.
Defined.

(** X20.  A search posted from the home page with a valid form, whose
    distance reads as an integer, makes exactly one request to the search
    API, the one for the first page, and no pause: the clock is as it
    was. *)
Theorem post_search_requests ext city state animal distance d w :
  search_distance distance = Ok d →
  let r := HomePageView.post ext (Valid city state animal distance) w in
  requests r.2 = requests w ++ [Get (page_url city state animal (Some d) 1)] ∧
  clock r.2 = clock w.
Proof.
  intros Hd. cbv zeta. unfold HomePageView.post. rewrite Hd, clear_all_pets_spec.
  set (w0 := mkWorld ∅ (clock w) _).
  destruct (scrape_pets_one_page ext city state animal (Some d) w0) as [Hreq Hclock].
  assert (Hw0 : requests w0 = requests w).
  { unfold requests, w0. cbn [trace]. rewrite network_events_app. apply app_nil_r. }
  rewrite Hw0 in Hreq. cbn [clock w0] in Hclock.
  destruct (scrape_pets ext city state animal 1 (Some d) w0) as [[[t n]|[]] w'];
    cbn [fst snd] in *; done.
Qed.

(** X20, for a server with three pages, on a table of three rows. *)
Lemma post_search_requests_witness :
  let r := HomePageView.post second_page_down
             (Valid "Seattle" "WA" "dog" (PyStr "100")) three_copies in
  requests r.2
    = requests three_copies ++ [Get (page_url "Seattle" "WA" "dog" (Some 100) 1)] ∧
  clock r.2 = clock three_copies.
Proof.
  apply (post_search_requests second_page_down "Seattle" "WA" "dog" (PyStr "100") 100
           three_copies).
  reflexivity.
Defined.
